(** * journalism/columns.py: typed column views over an immutable table

    A shallow embedding of the column layer (Python 2) and the proofs of the
    properties its specification states.

    Modelling conventions
    - Cell values are [None], [int]/[long] (as [Z]), text (as [string]) and
      finite [Decimal] numbers.  Binary floats, Decimal infinities and NaNs
      and the [str]/[unicode] distinction are outside the model.
    - [Decimal] arithmetic follows the default context: 28 significant digits,
      [ROUND_HALF_EVEN]; the exponent limits of the context (+-999999999) are
      never reached in the model, and [x ** 2] is the correctly rounded
      square.
    - Operators are those of Python 2: [/] between integers is floor
      division, values of different kinds are ordered ([None], then numbers,
      then text), indices may be negative.
    - Mutable objects (rows, the lists held by a table, the caches of a
      column, the column object itself) live in a store indexed by locations;
      every method is a computation over that store that may raise.
    - The order in which a [dict] is traversed is a parameter of [counts] and
      [mode].
    - [ColumnIterator] and [ColumnMapping] take the column factory of the
      table, which is defined outside this file, as a parameter; the position
      of an iterator is passed explicitly from one call of [next] to the
      following one. *)

From Stdlib Require Import ZArith NArith Bool Ascii String Lia.
From Stdlib Require Import Sorting.Permutation Sorting.Sorted.
From stdpp Require Import gmap strings list fin_maps.

Local Open Scope Z_scope.

(* ===================================================================== *)
(** * Values                                                              *)
(* ===================================================================== *)

(** A finite [Decimal]: [(-1)^neg * coeff * 10^exp], the triple Python keeps
    as [_sign], [_int], [_exp]. *)
Record decimal := Dec { dneg : bool; dcoeff : N; dexp : Z }.

Inductive value :=
| VNone
| VInt (n : Z)
| VStr (s : string)
| VDec (d : decimal).

(** The column classes, used as type tags in [Table._column_types]. *)
Inductive column_class :=
| class_Column
| class_TextColumn
| class_NumberColumn
| class_IntColumn
| class_DecimalColumn.

Definition loc := nat.

Inductive exn :=
| IndexError
| KeyError
| ValueError
| TypeError
| ZeroDivisionError
| NotImplementedError
| StopIteration
| InvalidOperation          (* decimal.InvalidOperation *)
| DivisionByZero            (* decimal.DivisionByZero *)
| AttributeError
| InvalidTable              (* Table._fork refusing misaligned lists *)
| NullComputationError
| ColumnValidationError (v : value) (column : loc).

Inductive result (A : Type) :=
| Ok (a : A)
| Raise (e : exn).
Arguments Ok {A} a.
Arguments Raise {A} e.

Definition result_bind {A B} (r : result A) (k : A -> result B) : result B :=
  match r with
  | Ok a => k a
  | Raise e => Raise e
  end.

Definition is_ok {A} (r : result A) : bool :=
  match r with Ok _ => true | Raise _ => false end.

#[global] Instance decimal_eq_dec : EqDecision decimal.
Proof. solve_decision. Defined.
#[global] Instance value_eq_dec : EqDecision value.
Proof. solve_decision. Defined.
#[global] Instance column_class_eq_dec : EqDecision column_class.
Proof. solve_decision. Defined.
#[global] Instance exn_eq_dec : EqDecision exn.
Proof. solve_decision. Defined.

(* ===================================================================== *)
(** * Python sequences                                                    *)
(* ===================================================================== *)

(** [l[j]]: a negative index counts from the end; anything outside
    [-len(l), len(l)) raises [IndexError]. *)
Definition py_index {A} (l : list A) (j : Z) : result A :=
  let n := Z.of_nat (length l) in
  let k := if j <? 0 then j + n else j in
  if (0 <=? k) && (k <? n) then
    match l !! Z.to_nat k with
    | Some x => Ok x
    | None => Raise IndexError
    end
  else Raise IndexError.

(** [l[j] = x], same index rule. *)
Definition py_setitem {A} (l : list A) (j : Z) (x : A) : result (list A) :=
  let n := Z.of_nat (length l) in
  let k := if j <? 0 then j + n else j in
  if (0 <=? k) && (k <? n) then Ok (<[Z.to_nat k := x]> l)
  else Raise IndexError.

(* ===================================================================== *)
(** * The store and the computations over it                              *)
(* ===================================================================== *)

Module Table.
(** The three attributes of a table that the column layer reads; each is a
    reference to a list object.  No method of columns.py rebinds them. *)
Record t := Make { _data : loc; _column_types : loc; _column_names : loc }.
End Table.

(** The instance attributes of a [Column]. *)
Record column := MkColumn {
  _table : Table.t;
  _index : Z;
  _cached_data : option loc;
  _cached_data_without_nulls : option loc;
  _cached_data_sorted : option loc }.

Inductive obj :=
| OValues (xs : list value)        (* a list of cell values: a row, a cache *)
| ORows (rs : list loc)            (* a list of rows *)
| OTypes (ts : list column_class)  (* a list of column classes *)
| ONames (ns : list string)        (* a list of column names *)
| OColumn (c : column).            (* a Column instance *)

Abbreviation heap := (gmap loc obj).

Definition M (A : Type) : Type := heap -> heap * result A.

Definition ret {A} (a : A) : M A := fun h => (h, Ok a).
Definition raise {A} (e : exn) : M A := fun h => (h, Raise e).
Definition lift {A} (r : result A) : M A := fun h => (h, r).
Definition bind {A B} (m : M A) (k : A -> M B) : M B :=
  fun h => match m h with
           | (h', Ok a) => k a h'
           | (h', Raise e) => (h', Raise e)
           end.

Declare Scope monad_scope.
Delimit Scope monad_scope with monad.
Notation "x <- m ;; k" := (bind m (fun x => k))
  (at level 100, m at next level, right associativity) : monad_scope.
Notation "m ;;; k" := (bind m (fun _ => k))
  (at level 100, right associativity) : monad_scope.
Local Open Scope monad_scope.

Fixpoint traverse {A B} (f : A -> M B) (l : list A) : M (list B) :=
  match l with
  | [] => ret []
  | a :: l' => b <- f a ;; bs <- traverse f l' ;; ret (b :: bs)
  end.

Fixpoint forM_ {A} (l : list A) (f : A -> M unit) : M unit :=
  match l with
  | [] => ret tt
  | a :: l' => f a ;;; forM_ l' f
  end.

(** A new object gets a location not yet in use. *)
Definition alloc (o : obj) : M loc :=
  fun h => let l := fresh (dom h) in (<[l := o]> h, Ok l).

Definition store (l : loc) (o : obj) : M unit :=
  fun h => (<[l := o]> h, Ok tt).

(** Reading a reference at the kind of object the code expects there.  A
    reference to an object of another kind is a type error. *)
Definition read_values (l : loc) : M (list value) :=
  fun h => match h !! l with
           | Some (OValues xs) => (h, Ok xs)
           | _ => (h, Raise TypeError)
           end.

Definition read_rows (l : loc) : M (list loc) :=
  fun h => match h !! l with
           | Some (ORows rs) => (h, Ok rs)
           | _ => (h, Raise TypeError)
           end.

Definition read_types (l : loc) : M (list column_class) :=
  fun h => match h !! l with
           | Some (OTypes ts) => (h, Ok ts)
           | _ => (h, Raise TypeError)
           end.

Definition read_names (l : loc) : M (list string) :=
  fun h => match h !! l with
           | Some (ONames ns) => (h, Ok ns)
           | _ => (h, Raise TypeError)
           end.

Definition read_column (l : loc) : M column :=
  fun h => match h !! l with
           | Some (OColumn c) => (h, Ok c)
           | _ => (h, Raise TypeError)
           end.

(* ===================================================================== *)
(** * decimal.Decimal, default context                                    *)
(* ===================================================================== *)

Module Decimal.

(** [getcontext().prec] *)
Definition prec : Z := 28.

Definition pow10 (k : Z) : N := (10 ^ Z.to_N k)%N.

Fixpoint ndigits_fuel (fuel : nat) (n : N) : Z :=
  match fuel with
  | O => 1
  | S fuel' => if (n <? 10)%N then 1 else 1 + ndigits_fuel fuel' (n / 10)%N
  end.

(** [len(str(n))]; the binary logarithm bounds the number of divisions. *)
Definition ndigits (n : N) : Z := ndigits_fuel (N.to_nat (N.log2 n)) n.

Definition is_zero (d : decimal) : bool := (dcoeff d =? 0)%N.

(** The signed coefficient. *)
Definition scoeff (d : decimal) : Z :=
  if dneg d then - Z.of_N (dcoeff d) else Z.of_N (dcoeff d).

Definition of_signed (s e : Z) : decimal := Dec (s <? 0) (Z.abs_N s) e.

(** [Decimal(n)] for an integer: exact, whatever its size. *)
Definition of_int (n : Z) : decimal := of_signed n 0.

Definition negate (d : decimal) : decimal :=
  Dec (negb (dneg d)) (dcoeff d) (dexp d).

(** [Decimal._fix]: round the coefficient to [prec] digits, half to even.
    A coefficient that rounds up to [10^prec] loses its last digit. *)
Definition fix_ (d : decimal) : decimal :=
  let c := dcoeff d in
  if (c =? 0)%N then d
  else
    let L := ndigits c in
    if L <=? prec then d
    else
      let drop := L - prec in
      let q := (c / pow10 drop)%N in
      let r := (c mod pow10 drop)%N in
      let half := (5 * pow10 (drop - 1))%N in
      let up := (half <? r)%N || ((r =? half)%N && N.odd q) in
      let q' := if up then (q + 1)%N else q in
      if (q' =? pow10 prec)%N
      then Dec (dneg d) (pow10 (prec - 1)) (dexp d + drop + 1)
      else Dec (dneg d) q' (dexp d + drop).

(** [x + y]: the exact sum at the smaller exponent, then [_fix].  A zero
    sum of two zeros is negative only when both are. *)
Definition add (x y : decimal) : decimal :=
  let e := Z.min (dexp x) (dexp y) in
  let s := scoeff x * Z.of_N (pow10 (dexp x - e))
         + scoeff y * Z.of_N (pow10 (dexp y - e)) in
  if s =? 0 then
    Dec (is_zero x && is_zero y && dneg x && dneg y) 0 e
  else fix_ (of_signed s e).

Definition sub (x y : decimal) : decimal := add x (negate y).

Definition mul (x y : decimal) : decimal :=
  fix_ (Dec (xorb (dneg x) (dneg y)) (dcoeff x * dcoeff y) (dexp x + dexp y)).

(** [x ** 2]: the square, correctly rounded; [0 ** 2] is [Decimal('0')]. *)
Definition sqr (x : decimal) : decimal :=
  if is_zero x then Dec false 0 0
  else fix_ (Dec false (dcoeff x * dcoeff x) (dexp x + dexp x)).

(** The loop of [__truediv__] that moves an exact quotient towards the
    ideal exponent; it runs at most [ideal - exp] times. *)
Fixpoint strip_zeros (fuel : nat) (coeff : N) (exp ideal : Z) : N * Z :=
  match fuel with
  | O => (coeff, exp)
  | S fuel' =>
      if (exp <? ideal) && (coeff mod 10 =? 0)%N
      then strip_zeros fuel' (coeff / 10)%N (exp + 1) ideal
      else (coeff, exp)
  end.

(** [x / y] ([Decimal.__truediv__]). *)
Definition div (x y : decimal) : result decimal :=
  let sign := xorb (dneg x) (dneg y) in
  if is_zero y then
    if is_zero x then Raise InvalidOperation else Raise DivisionByZero
  else if is_zero x then
    Ok (fix_ (Dec sign 0 (dexp x - dexp y)))
  else
    let shift := ndigits (dcoeff y) - ndigits (dcoeff x) + prec + 1 in
    let exp := dexp x - dexp y - shift in
    let num := if 0 <=? shift then (dcoeff x * pow10 shift)%N else dcoeff x in
    let den := if 0 <=? shift then dcoeff y else (dcoeff y * pow10 (- shift))%N in
    let coeff := (num / den)%N in
    let remainder := (num mod den)%N in
    let '(coeff', exp') :=
      if negb (remainder =? 0)%N then
        (if (coeff mod 5 =? 0)%N then (coeff + 1)%N else coeff, exp)
      else
        let ideal_exp := dexp x - dexp y in
        strip_zeros (Z.to_nat (ideal_exp - exp)) coeff exp ideal_exp in
    Ok (fix_ (Dec sign coeff' exp')).

(** [x.sqrt()] ([Decimal.sqrt]). *)
Definition sqrt (x : decimal) : result decimal :=
  if is_zero x then Ok (fix_ (Dec (dneg x) 0 (dexp x / 2)))
  else if dneg x then Raise InvalidOperation
  else
    let p := prec + 1 in
    let e := dexp x / 2 in
    let odd_exp := Z.odd (dexp x) in
    let c := if odd_exp then (dcoeff x * 10)%N else dcoeff x in
    let l := if odd_exp then ndigits (dcoeff x) / 2 + 1
             else (ndigits (dcoeff x) + 1) / 2 in
    let shift := p - l in
    let c' := if 0 <=? shift then (c * 100 ^ Z.to_N shift)%N
              else (c / 100 ^ Z.to_N (- shift))%N in
    let exact0 := if 0 <=? shift then true
                  else (c mod 100 ^ Z.to_N (- shift) =? 0)%N in
    let e' := e - shift in
    let n := N.sqrt c' in
    let exact := exact0 && (n * n =? c')%N in
    if exact then
      let n' := if 0 <=? shift then (n / pow10 shift)%N
                else (n * pow10 (- shift))%N in
      Ok (fix_ (Dec false n' (e' + shift)))
    else
      let n' := if (n mod 5 =? 0)%N then (n + 1)%N else n in
      Ok (fix_ (Dec false n' e')).

(** [Decimal._cmp]: numeric comparison. *)
Definition compare (x y : decimal) : comparison :=
  let e := Z.min (dexp x) (dexp y) in
  Z.compare (scoeff x * Z.of_N (pow10 (dexp x - e)))
            (scoeff y * Z.of_N (pow10 (dexp y - e))).

(** [int(x)]: truncation towards zero. *)
Definition to_int (x : decimal) : Z :=
  let m := if 0 <=? dexp x then (dcoeff x * pow10 (dexp x))%N
           else (dcoeff x / pow10 (- dexp x))%N in
  if dneg x then - Z.of_N m else Z.of_N m.

End Decimal.

(* ===================================================================== *)
(** * Text: the [str] methods the casts use, and the numeric literals     *)
(* ===================================================================== *)

Module Str.
Local Open Scope string_scope.

(** [s.replace(c, '')] for a one-character [c]. *)
Fixpoint remove_char (c : ascii) (s : string) : string :=
  match s with
  | EmptyString => EmptyString
  | String a r =>
      if Ascii.eqb a c then remove_char c r else String a (remove_char c r)
  end.

(** The characters [str.strip()] removes: space, tab, newline, return,
    vertical tab and form feed. *)
Definition is_space (a : ascii) : bool :=
  let n := N_of_ascii a in
  ((n =? 32) || ((9 <=? n) && (n <=? 13)))%N.

Fixpoint lstrip (s : string) : string :=
  match s with
  | EmptyString => EmptyString
  | String a r => if is_space a then lstrip r else s
  end.

Fixpoint rstrip (s : string) : string :=
  match s with
  | EmptyString => EmptyString
  | String a r =>
      match rstrip r with
      | EmptyString => if is_space a then EmptyString else String a EmptyString
      | r' => String a r'
      end
  end.

Definition strip (s : string) : string := rstrip (lstrip s).

Definition is_digit (a : ascii) : bool :=
  let n := N_of_ascii a in ((48 <=? n) && (n <=? 57))%N.

(** The longest prefix of decimal digits, and the rest. *)
Fixpoint span_digits (s : string) : string * string :=
  match s with
  | EmptyString => (EmptyString, EmptyString)
  | String a r =>
      if is_digit a
      then let '(ds, rest) := span_digits r in (String a ds, rest)
      else (EmptyString, s)
  end.

Fixpoint digits_value (acc : N) (s : string) : N :=
  match s with
  | EmptyString => acc
  | String a r => digits_value (10 * acc + (N_of_ascii a - 48))%N r
  end.

(** An optional sign. *)
Definition take_sign (s : string) : bool * string :=
  match s with
  | String "-" r => (true, r)
  | String "+" r => (false, r)
  | _ => (false, s)
  end.

Definition digit_char (n : N) : ascii := ascii_of_N (48 + n).

Fixpoint of_N_fuel (fuel : nat) (n : N) (acc : string) : string :=
  match fuel with
  | O => String (digit_char (n mod 10)) acc
  | S fuel' =>
      if (n <? 10)%N then String (digit_char n) acc
      else of_N_fuel fuel' (n / 10)%N (String (digit_char (n mod 10)) acc)
  end.

(** [str(n)] for a natural number. *)
Definition of_N (n : N) : string := of_N_fuel (N.to_nat (N.log2 n)) n "".

(** [str(n)] for an integer. *)
Definition of_Z (n : Z) : string :=
  if (n <? 0)%Z then String "-" (of_N (Z.abs_N n)) else of_N (Z.abs_N n).

Fixpoint zeros (k : nat) : string :=
  match k with O => "" | S k' => String "0" (zeros k') end.

(** [s[:k]] and [s[k:]] for [0 <= k]. *)
Fixpoint take (k : nat) (s : string) : string :=
  match k, s with
  | S k', String a r => String a (take k' r)
  | _, _ => ""
  end.
Fixpoint drop (k : nat) (s : string) : string :=
  match k, s with
  | S k', String _ r => drop k' r
  | _, _ => s
  end.
End Str.

(** [int(s)] for text: optional surrounding blanks, an optional sign, one or
    more decimal digits. *)
Definition int_of_string (s : string) : result Z :=
  let '(neg, r) := Str.take_sign (Str.strip s) in
  match Str.span_digits r with
  | (EmptyString, _) => Raise ValueError
  | (ds, EmptyString) =>
      let n := Z.of_N (Str.digits_value 0 ds) in
      Ok (if neg then - n else n)
  | (_, String _ _) => Raise ValueError
  end.

(** [Decimal(s)] for text denoting a finite number:
    sign? (digits ('.' digits-or-nothing)? | '.' digits) ([eE] sign? digits)?
    The value is exact: the digits become the coefficient unchanged. *)
Definition decimal_of_string (s : string) : result decimal :=
  let '(neg, r0) := Str.take_sign (Str.strip s) in
  let '(intpart, r1) := Str.span_digits r0 in
  let '(fracpart, r2) :=
    match r1 with
    | String "." r => Str.span_digits r
    | _ => (EmptyString, r1)
    end in
  let coeff := Str.digits_value 0 (append intpart fracpart) in
  let nfrac := Z.of_nat (String.length fracpart) in
  match append intpart fracpart with
  | EmptyString => Raise InvalidOperation
  | _ =>
      match r2 with
      | EmptyString => Ok (Dec neg coeff (- nfrac))
      | String c r =>
          if Ascii.eqb c "E" || Ascii.eqb c "e" then
            let '(eneg, r3) := Str.take_sign r in
            match Str.span_digits r3 with
            | (EmptyString, _) => Raise InvalidOperation
            | (ds, EmptyString) =>
                let e := Z.of_N (Str.digits_value 0 ds) in
                Ok (Dec neg coeff ((if eneg then - e else e) - nfrac))
            | (_, String _ _) => Raise InvalidOperation
            end
          else Raise InvalidOperation
      end
  end.

(** [str(d)] ([Decimal.__str__]): scientific notation when the exponent is
    positive or there are more than five leading zeros after the point. *)
Definition decimal_to_string (d : decimal) : string :=
  let sign := if dneg d then "-"%string else ""%string in
  let digits := Str.of_N (dcoeff d) in
  let len := Z.of_nat (String.length digits) in
  let leftdigits := dexp d + len in
  let dotplace := if (dexp d <=? 0) && (-6 <? leftdigits) then leftdigits else 1 in
  let '(intpart, fracpart) :=
    if dotplace <=? 0 then
      ("0"%string, append "." (append (Str.zeros (Z.to_nat (- dotplace))) digits))
    else if len <=? dotplace then
      (append digits (Str.zeros (Z.to_nat (dotplace - len))), ""%string)
    else
      (Str.take (Z.to_nat dotplace) digits,
       append "." (Str.drop (Z.to_nat dotplace) digits)) in
  let exp :=
    if leftdigits =? dotplace then ""%string
    else
      let e := leftdigits - dotplace in
      append "E" (append (if (e <? 0)%Z then "-"%string else "+"%string)
                         (Str.of_N (Z.abs_N e))) in
  append sign (append intpart (append fracpart exp)).

(* ===================================================================== *)
(** * Operators on cell values (Python 2)                                 *)
(* ===================================================================== *)

Definition is_none (v : value) : bool :=
  match v with VNone => true | _ => false end.

(** [isinstance(v, basestring)], [isinstance(v, int)], [isinstance(v, Decimal)] *)
Definition is_basestring (v : value) : bool :=
  match v with VStr _ => true | _ => false end.
Definition is_int (v : value) : bool :=
  match v with VInt _ => true | _ => false end.
Definition is_Decimal (v : value) : bool :=
  match v with VDec _ => true | _ => false end.

(** [a == b]: numbers compare by value across [int] and [Decimal]. *)
Definition py_eq (a b : value) : bool :=
  match a, b with
  | VNone, VNone => true
  | VInt x, VInt y => x =? y
  | VInt x, VDec y => match Decimal.compare (Decimal.of_int x) y with Eq => true | _ => false end
  | VDec x, VInt y => match Decimal.compare x (Decimal.of_int y) with Eq => true | _ => false end
  | VDec x, VDec y => match Decimal.compare x y with Eq => true | _ => false end
  | VStr x, VStr y => String.eqb x y
  | _, _ => false
  end.

(** The order Python 2 gives to values of different kinds: [None] first,
    then numbers, then text. *)
Definition kind_rank (v : value) : Z :=
  match v with
  | VNone => 0
  | VInt _ | VDec _ => 1
  | VStr _ => 2
  end.

Definition as_decimal (v : value) : option decimal :=
  match v with
  | VInt n => Some (Decimal.of_int n)
  | VDec d => Some d
  | _ => None
  end.

(** [a < b] *)
Definition py_lt (a b : value) : bool :=
  match a, b with
  | VInt x, VInt y => x <? y
  | VStr x, VStr y => String.ltb x y
  | _, _ =>
      match as_decimal a, as_decimal b with
      | Some x, Some y => match Decimal.compare x y with Lt => true | _ => false end
      | _, _ => kind_rank a <? kind_rank b
      end
  end.

(** [a + b] *)
Definition py_add (a b : value) : result value :=
  match a, b with
  | VInt x, VInt y => Ok (VInt (x + y))
  | VStr x, VStr y => Ok (VStr (append x y))
  | _, _ =>
      match as_decimal a, as_decimal b with
      | Some x, Some y => Ok (VDec (Decimal.add x y))
      | _, _ => Raise TypeError
      end
  end.

(** [a - b] *)
Definition py_sub (a b : value) : result value :=
  match a, b with
  | VInt x, VInt y => Ok (VInt (x - y))
  | _, _ =>
      match as_decimal a, as_decimal b with
      | Some x, Some y => Ok (VDec (Decimal.sub x y))
      | _, _ => Raise TypeError
      end
  end.

(** [a / b]: floor division between integers (no [__future__] import),
    [Decimal] division as soon as one operand is a [Decimal]. *)
Definition py_div (a b : value) : result value :=
  match a, b with
  | VInt x, VInt y => if y =? 0 then Raise ZeroDivisionError else Ok (VInt (x / y))
  | _, _ =>
      match as_decimal a, as_decimal b with
      | Some x, Some y => result_bind (Decimal.div x y) (fun d => Ok (VDec d))
      | _, _ => Raise TypeError
      end
  end.

(** [a ** 2] *)
Definition py_square (a : value) : result value :=
  match a with
  | VInt x => Ok (VInt (x * x))
  | VDec x => Ok (VDec (Decimal.sqr x))
  | _ => Raise TypeError
  end.

(** [Decimal(v)] *)
Definition py_Decimal (v : value) : result decimal :=
  match v with
  | VInt n => Ok (Decimal.of_int n)
  | VDec d => Ok d
  | VStr s => decimal_of_string s
  | VNone => Raise TypeError
  end.

(** [int(v)] *)
Definition py_int (v : value) : result Z :=
  match v with
  | VInt n => Ok n
  | VDec d => Ok (Decimal.to_int d)
  | VStr s => int_of_string s
  | VNone => Raise TypeError
  end.

(** [unicode(v)] *)
Definition py_unicode (v : value) : string :=
  match v with
  | VNone => "None"
  | VInt n => Str.of_Z n
  | VStr s => s
  | VDec d => decimal_to_string d
  end.

(** [l == other] for two lists. *)
Fixpoint py_list_eq (l other : list value) : bool :=
  match l, other with
  | [], [] => true
  | a :: l', b :: other' => py_eq a b && py_list_eq l' other'
  | _, _ => false
  end.

(** [sum(l)]: starts from the integer 0 and adds from the left. *)
Fixpoint py_sum_from (acc : value) (l : list value) : result value :=
  match l with
  | [] => Ok acc
  | x :: l' => result_bind (py_add acc x) (fun acc' => py_sum_from acc' l')
  end.
Definition py_sum (l : list value) : result value := py_sum_from (VInt 0) l.

(** [min(l)] and [max(l)]: the first smallest, the first largest;
    [ValueError] on an empty sequence. *)
Definition py_min (l : list value) : result value :=
  match l with
  | [] => Raise ValueError
  | x :: l' => Ok (fold_left (fun m y => if py_lt y m then y else m) l' x)
  end.
Definition py_max (l : list value) : result value :=
  match l with
  | [] => Raise ValueError
  | x :: l' => Ok (fold_left (fun m y => if py_lt m y then y else m) l' x)
  end.

(** [sorted(l)]: the sort is stable, an element stays behind the equal
    elements that preceded it. *)
Fixpoint insert_sorted (x : value) (l : list value) : list value :=
  match l with
  | [] => [x]
  | y :: l' => if py_lt y x then y :: insert_sorted x l' else x :: y :: l'
  end.
Definition py_sorted (l : list value) : list value :=
  fold_right insert_sorted [] l.

(** [sorted(l, key=..., reverse=True)] on elements already paired with their
    key: descending keys, equal keys in their original order. *)
Fixpoint insert_desc {A} (x : value * A) (l : list (value * A)) : list (value * A) :=
  match l with
  | [] => [x]
  | y :: l' => if py_lt (fst x) (fst y) then y :: insert_desc x l' else x :: y :: l'
  end.
Definition sorted_desc {A} (l : list (value * A)) : list (value * A) :=
  fold_right insert_desc [] l.

(** ** [defaultdict(int)] used as a counter

    The dictionary is kept as the list of its entries in insertion order; a
    key equal to one already present updates that entry.  The order in which
    a dictionary is traversed is a property of the interpreter's hash table:
    it is taken as a parameter [ord], a rearrangement of the entries. *)
Definition counter := list (value * Z).
Definition dict_order := counter -> counter.

Fixpoint counter_incr (d : value) (c : counter) : counter :=
  match c with
  | [] => [(d, 1)]
  | (k, n) :: c' => if py_eq k d then (k, n + 1) :: c' else (k, n) :: counter_incr d c'
  end.

(** [for d in l: counts[d] += 1] *)
Definition count_values (l : list value) : counter :=
  fold_left (fun c d => counter_incr d c) l [].

(** [counts[k]] for a key that is present. *)
Fixpoint counter_get (c : counter) (k : value) : Z :=
  match c with
  | [] => 0
  | (k', n) :: c' => if py_eq k' k then n else counter_get c' k
  end.

(** [max(keys, key=f)]: the first key with the largest [f]. *)
Definition py_max_by (f : value -> Z) (keys : list value) : result value :=
  match keys with
  | [] => Raise ValueError
  | x :: l' => Ok (fold_left (fun m y => if f m <? f y then y else m) l' x)
  end.

(* ===================================================================== *)
(** * Table: the part the column layer calls                              *)
(* ===================================================================== *)

Definition lengths_aligned (rows : list (list value))
    (types : list column_class) (names : list string) : bool :=
  (length names =? length types)%nat
  && forallb (fun r => (length r =? length names)%nat) rows.

(** Modelled from the spec: [Table._fork] (journalism/table.py is not among
    the sources).  "[fork(rows, columnTypes, columnNames) -> Table] ... must
    validate the invariant (row/type/name lengths aligned) before or as part
    of construction": the new table holds the three lists it is given, and
    construction fails when they are not aligned. *)
Definition _fork (data column_types column_names : loc) : M Table.t :=
  rs <- read_rows data ;;
  rows <- traverse read_values rs ;;
  types <- read_types column_types ;;
  names <- read_names column_names ;;
  if lengths_aligned rows types names
  then ret (Table.Make data column_types column_names)
  else raise InvalidTable.

(** ** [copy.deepcopy]

    Cell values are immutable and copy to themselves; a list is copied to a
    new list.  The memo makes a row that occurs twice in the list of rows
    occur twice, as one object, in the copy. *)
Fixpoint deepcopy_rows (memo : list (loc * loc)) (rs : list loc) : M (list loc) :=
  match rs with
  | [] => ret []
  | r :: rs' =>
      match List.find (fun p => Nat.eqb (fst p) r) memo with
      | Some (_, r') => rs'' <- deepcopy_rows memo rs' ;; ret (r' :: rs'')
      | None =>
          xs <- read_values r ;;
          r' <- alloc (OValues xs) ;;
          rs'' <- deepcopy_rows ((r, r') :: memo) rs' ;;
          ret (r' :: rs'')
      end
  end.

Definition deepcopy_data (data : loc) : M loc :=
  rs <- read_rows data ;;
  y <- alloc (ORows []) ;;
  rs' <- deepcopy_rows [] rs ;;
  store y (ORows rs') ;;;
  ret y.

Definition deepcopy_types (l : loc) : M loc :=
  ts <- read_types l ;; alloc (OTypes ts).

Definition deepcopy_names (l : loc) : M loc :=
  ns <- read_names l ;; alloc (ONames ns).

(* ===================================================================== *)
(** * class Column                                                        *)
(* ===================================================================== *)

Module Column.

Definition __init__ (table : Table.t) (index : Z) : M loc :=
  alloc (OColumn (MkColumn table index None None None)).

Definition set_cached_data (self l : loc) : M unit :=
  c <- read_column self ;;
  store self (OColumn (MkColumn (_table c) (_index c) (Some l)
                         (_cached_data_without_nulls c) (_cached_data_sorted c))).

Definition set_cached_data_without_nulls (self l : loc) : M unit :=
  c <- read_column self ;;
  store self (OColumn (MkColumn (_table c) (_index c) (_cached_data c)
                         (Some l) (_cached_data_sorted c))).

Definition set_cached_data_sorted (self l : loc) : M unit :=
  c <- read_column self ;;
  store self (OColumn (MkColumn (_table c) (_index c) (_cached_data c)
                         (_cached_data_without_nulls c) (Some l))).

(** [[r[self._index] for r in self._table._data]] *)
Definition slice (table : Table.t) (index : Z) : M (list value) :=
  rs <- read_rows (Table._data table) ;;
  traverse (fun r => row <- read_values r ;; lift (py_index row index)) rs.

Definition _data (self : loc) : M loc :=
  c <- read_column self ;;
  match _cached_data c with
  | None =>
      xs <- slice (_table c) (_index c) ;;
      l <- alloc (OValues xs) ;;
      set_cached_data self l ;;;
      ret l
  | Some l => ret l
  end.

Definition _data_without_nulls (self : loc) : M loc :=
  c <- read_column self ;;
  match _cached_data_without_nulls c with
  | None =>
      d <- _data self ;;
      xs <- read_values d ;;
      l <- alloc (OValues (List.filter (fun d => negb (is_none d)) xs)) ;;
      set_cached_data_without_nulls self l ;;;
      ret l
  | Some l => ret l
  end.

Definition _data_sorted (self : loc) : M loc :=
  c <- read_column self ;;
  match _cached_data_sorted c with
  | None =>
      d <- _data self ;;
      xs <- read_values d ;;
      l <- alloc (OValues (py_sorted xs)) ;;
      set_cached_data_sorted self l ;;;
      ret l
  | Some l => ret l
  end.

Definition __getitem__ (self : loc) (j : Z) : M value :=
  d <- _data self ;;
  xs <- read_values d ;;
  lift (py_index xs j).

Definition __len__ (self : loc) : M Z :=
  d <- _data self ;;
  xs <- read_values d ;;
  ret (Z.of_nat (length xs)).

Definition __eq__ (self : loc) (other : list value) : M bool :=
  d <- _data self ;;
  xs <- read_values d ;;
  ret (py_list_eq xs other).

Definition __ne__ (self : loc) (other : list value) : M bool :=
  b <- __eq__ self other ;; ret (negb b).

Definition validate (self : loc) : M unit := raise NotImplementedError.

Definition _cast (self : loc) : M (list value) := raise NotImplementedError.

Definition has_nulls (self : loc) : M bool :=
  d <- _data self ;;
  xs <- read_values d ;;
  ret (existsb is_none xs).

Definition any (self : loc) (func : value -> result bool) : M bool :=
  d <- _data self ;;
  xs <- read_values d ;;
  bs <- traverse (fun d => lift (func d)) xs ;;
  ret (existsb id bs).

Definition all (self : loc) (func : value -> result bool) : M bool :=
  d <- _data self ;;
  xs <- read_values d ;;
  bs <- traverse (fun d => lift (func d)) xs ;;
  ret (forallb id bs).

(** [new_column_type] and [new_column_name] default to [None]; an empty
    name is as false as [None]. *)
Definition map (self : loc) (func : value -> result value)
    (new_column_type : option column_class)
    (new_column_name : option string) : M Table.t :=
  c <- read_column self ;;
  data <- deepcopy_data (Table._data (_table c)) ;;
  column_types <- deepcopy_types (Table._column_types (_table c)) ;;
  column_names <- deepcopy_names (Table._column_names (_table c)) ;;
  rs <- read_rows data ;;
  forM_ rs (fun row =>
    xs <- read_values row ;;
    x <- lift (py_index xs (_index c)) ;;
    y <- lift (func x) ;;
    xs' <- lift (py_setitem xs (_index c) y) ;;
    store row (OValues xs')) ;;;
  match new_column_type with
  | Some ty =>
      ts <- read_types column_types ;;
      ts' <- lift (py_setitem ts (_index c) ty) ;;
      store column_types (OTypes ts')
  | None => ret tt
  end ;;;
  match new_column_name with
  | Some name =>
      if String.eqb name "" then ret tt
      else
        ns <- read_names column_names ;;
        ns' <- lift (py_setitem ns (_index c) name) ;;
        store column_names (ONames ns')
  | None => ret tt
  end ;;;
  _fork data column_types column_names.

Definition count (self : loc) (value : value) : M Z :=
  d <- _data self ;;
  xs <- read_values d ;;
  ret (fold_left (fun count d => if py_eq d value then count + 1 else count) xs 0).

Definition counts (ord : dict_order) (self : loc) : M Table.t :=
  d <- _data self ;;
  xs <- read_values d ;;
  let counts := count_values xs in
  c <- read_column self ;;
  names <- read_names (Table._column_names (_table c)) ;;
  name <- lift (py_index names (_index c)) ;;
  column_names <- alloc (ONames [name; "count"%string]) ;;
  types <- read_types (Table._column_types (_table c)) ;;
  ty <- lift (py_index types (_index c)) ;;
  column_types <- alloc (OTypes [ty; class_IntColumn]) ;;
  data <- traverse (fun i => alloc (OValues [fst i; VInt (snd i)])) (ord counts) ;;
  keyed <- traverse (fun r => xs <- read_values r ;;
                          k <- lift (py_index xs 1) ;;
                          ret (k, r)) data ;;
  rows <- alloc (ORows (List.map snd (sorted_desc keyed))) ;;
  _fork rows column_types column_names.

End Column.

(** The decorator [no_null_computations]: [check] looks for nulls first and
    only then calls the decorated method. *)
Definition no_null_computations {A} (func : loc -> M A) : loc -> M A :=
  fun c =>
    b <- Column.has_nulls c ;;
    if b then raise NullComputationError else func c.

(* ===================================================================== *)
(** * class TextColumn(Column)                                            *)
(* ===================================================================== *)

Module TextColumn.

Definition validate (self : loc) : M unit :=
  d <- Column._data self ;;
  xs <- read_values d ;;
  forM_ xs (fun d =>
    if negb (is_basestring d) && negb (is_none d)
    then raise (ColumnValidationError d self)
    else ret tt).

(** One turn of the loop of [_cast]. *)
Definition cast_value (d : value) : value :=
  if py_eq d (VStr "") then VNone else VStr (py_unicode d).

Definition _cast (self : loc) : M (list value) :=
  d <- Column._data self ;;
  xs <- read_values d ;;
  ret (List.map cast_value xs).

End TextColumn.

(* ===================================================================== *)
(** * class NumberColumn(Column)                                          *)
(* ===================================================================== *)

Module NumberColumn.

Definition sum (self : loc) : M value :=
  d <- Column._data_without_nulls self ;;
  xs <- read_values d ;;
  lift (py_sum xs).

Definition min (self : loc) : M value :=
  d <- Column._data_without_nulls self ;;
  xs <- read_values d ;;
  lift (py_min xs).

Definition max (self : loc) : M value :=
  d <- Column._data_without_nulls self ;;
  xs <- read_values d ;;
  lift (py_max xs).

Definition mean_body (self : loc) : M value :=
  s <- sum self ;;
  d <- lift (py_Decimal s) ;;
  n <- Column.__len__ self ;;
  lift (py_div (VDec d) (VInt n)).

Definition mean : loc -> M value := no_null_computations mean_body.

Definition median_body (self : loc) : M value :=
  d <- Column._data_sorted self ;;
  data <- read_values d ;;
  let length := Z.of_nat (List.length data) in
  if length mod 2 =? 1 then
    lift (py_index data ((length + 1) / 2 - 1))
  else
    a <- lift (py_index data (length / 2 - 1)) ;;
    b <- lift (py_index data (length / 2)) ;;
    ab <- lift (py_add a b) ;;
    dab <- lift (py_Decimal ab) ;;
    lift (py_div (VDec dab) (VInt 2)).

Definition median : loc -> M value := no_null_computations median_body.

Definition mode_body (ord : dict_order) (self : loc) : M value :=
  d <- Column._data self ;;
  data <- read_values d ;;
  let state := count_values data in
  lift (py_max_by (counter_get state) (List.map fst (ord state))).

Definition mode (ord : dict_order) : loc -> M value :=
  no_null_computations (mode_body ord).

(** [sum((n - self.mean()) ** 2 for n in data)]: the generator is consumed
    one term at a time, each term computed just before it is added. *)
Fixpoint sum_squared_deviations (self : loc) (acc : value) (data : list value)
    : M value :=
  match data with
  | [] => ret acc
  | n :: data' =>
      m <- mean self ;;
      dev <- lift (py_sub n m) ;;
      sq <- lift (py_square dev) ;;
      acc' <- lift (py_add acc sq) ;;
      sum_squared_deviations self acc' data'
  end.

Definition variance_body (self : loc) : M value :=
  d <- Column._data self ;;
  data <- read_values d ;;
  s <- sum_squared_deviations self (VInt 0) data ;;
  lift (py_div s (VInt (Z.of_nat (List.length data)))).

Definition variance : loc -> M value := no_null_computations variance_body.

Definition stdev_body (self : loc) : M value :=
  v <- variance self ;;
  match v with
  | VDec x => d <- lift (Decimal.sqrt x) ;; ret (VDec d)
  | _ => raise AttributeError
  end.

Definition stdev : loc -> M value := no_null_computations stdev_body.

End NumberColumn.

(* ===================================================================== *)
(** * class IntColumn(NumberColumn)                                       *)
(* ===================================================================== *)

(** [d.replace(',', '').strip()] when [d] is text. *)
Definition strip_separators (d : value) : value :=
  match d with
  | VStr s => VStr (Str.strip (Str.remove_char "," s))
  | _ => d
  end.

Module IntColumn.

Definition validate (self : loc) : M unit :=
  d <- Column._data self ;;
  xs <- read_values d ;;
  forM_ xs (fun d =>
    if negb (is_int d) && negb (is_none d)
    then raise (ColumnValidationError d self)
    else ret tt).

Definition cast_value (d : value) : result value :=
  let d := strip_separators d in
  if py_eq d (VStr "") || is_none d then Ok VNone
  else result_bind (py_int d) (fun n => Ok (VInt n)).

Definition _cast (self : loc) : M (list value) :=
  d <- Column._data self ;;
  xs <- read_values d ;;
  traverse (fun d => lift (cast_value d)) xs.

End IntColumn.

(* ===================================================================== *)
(** * class DecimalColumn(NumberColumn)                                   *)
(* ===================================================================== *)

Module DecimalColumn.

Definition validate (self : loc) : M unit :=
  d <- Column._data self ;;
  xs <- read_values d ;;
  forM_ xs (fun d =>
    if negb (is_Decimal d) && negb (is_none d)
    then raise (ColumnValidationError d self)
    else ret tt).

Definition cast_value (d : value) : result value :=
  let d := strip_separators d in
  if py_eq d (VStr "") || is_none d then Ok VNone
  else result_bind (py_Decimal d) (fun x => Ok (VDec x)).

Definition _cast (self : loc) : M (list value) :=
  d <- Column._data self ;;
  xs <- read_values d ;;
  traverse (fun d => lift (cast_value d)) xs.

End DecimalColumn.

(* ===================================================================== *)
(** * class ColumnIterator, class ColumnMapping                           *)
(* ===================================================================== *)

(** The two proxies obtain the columns of a table from the method
    [_get_column] of the table, which journalism/table.py defines.  It is a
    parameter of their methods: any computation over the store that is given
    the table and a position. *)
Definition column_factory : Type := Table.t -> Z -> M loc.

(** [l.index(k)]: the first position whose element equals [k]. *)
Fixpoint py_list_index (names : list string) (k : value) : result Z :=
  match names with
  | [] => Raise ValueError
  | n :: names' =>
      if py_eq (VStr n) k then Ok 0
      else result_bind (py_list_index names' k) (fun i => Ok (i + 1))
  end.

(** [k in l] *)
Definition py_in (k : value) (names : list string) : bool :=
  existsb (fun n => py_eq (VStr n) k) names.

Module ColumnIterator.

(** The instance attributes.  [next] returns, with the column, the iterator
    as the call leaves it; a call that raises leaves it as it was. *)
Record t := Make { _table : Table.t; _i : Z }.

Definition __init__ (table : Table.t) : t := Make table 0.

Definition next (_get_column : column_factory) (self : t) : M (t * loc) :=
  names <- read_names (Table._column_names (_table self)) ;;
  match py_index names (_i self) with
  | Raise IndexError => raise StopIteration
  | Raise e => raise e
  | Ok _ =>
      column <- _get_column (_table self) (_i self) ;;
      ret (Make (_table self) (_i self + 1), column)
  end.

End ColumnIterator.

Module ColumnMapping.

Record t := Make { _table : Table.t }.

Definition __init__ (table : Table.t) : t := Make table.

Definition __getitem__ (_get_column : column_factory) (self : t) (k : value)
    : M loc :=
  names <- read_names (Table._column_names (_table self)) ;;
  if negb (py_in k names) then raise KeyError
  else
    names' <- read_names (Table._column_names (_table self)) ;;
    i <- lift (py_list_index names' k) ;;
    _get_column (_table self) i.

Definition __iter__ (self : t) : ColumnIterator.t :=
  ColumnIterator.__init__ (_table self).

Definition __len__ (self : t) : M Z :=
  names <- read_names (Table._column_names (_table self)) ;;
  ret (Z.of_nat (length names)).

End ColumnMapping.

(** [n] successive calls of [next]: the columns they return, in order, and
    the iterator after the last one. *)
Fixpoint nexts (_get_column : column_factory) (n : nat) (it : ColumnIterator.t)
    : M (ColumnIterator.t * list loc) :=
  match n with
  | O => ret (it, [])
  | S n' =>
      r <- ColumnIterator.next _get_column it ;;
      r' <- nexts _get_column n' (fst r) ;;
      ret (fst r', snd r :: snd r')
  end.

(* ===================================================================== *)
(** * What a column computes, as functions of its slice                   *)
(* ===================================================================== *)

Definition without_nulls (data : list value) : list value :=
  List.filter (fun d => negb (is_none d)) data.

Definition guard_nulls {A} (data : list value) (r : result A) : result A :=
  if existsb is_none data then Raise NullComputationError else r.

Definition mean_of (data : list value) : result value :=
  guard_nulls data
    (result_bind (py_sum (without_nulls data)) (fun s =>
     result_bind (py_Decimal s) (fun d =>
     py_div (VDec d) (VInt (Z.of_nat (length data)))))).

Definition median_of (data : list value) : result value :=
  guard_nulls data
    (let sorted := py_sorted data in
     let length := Z.of_nat (List.length sorted) in
     if length mod 2 =? 1 then py_index sorted ((length + 1) / 2 - 1)
     else
       result_bind (py_index sorted (length / 2 - 1)) (fun a =>
       result_bind (py_index sorted (length / 2)) (fun b =>
       result_bind (py_add a b) (fun ab =>
       result_bind (py_Decimal ab) (fun dab =>
       py_div (VDec dab) (VInt 2)))))).

Definition mode_of (ord : dict_order) (data : list value) : result value :=
  guard_nulls data
    (let state := count_values data in
     py_max_by (counter_get state) (List.map fst (ord state))).

Fixpoint ssd_of (m : result value) (acc : value) (l : list value) : result value :=
  match l with
  | [] => Ok acc
  | n :: l' =>
      result_bind m (fun m0 =>
      result_bind (py_sub n m0) (fun dev =>
      result_bind (py_square dev) (fun sq =>
      result_bind (py_add acc sq) (fun acc' =>
      ssd_of m acc' l'))))
  end.

Definition variance_of (data : list value) : result value :=
  guard_nulls data
    (result_bind (ssd_of (mean_of data) (VInt 0) data) (fun s =>
     py_div s (VInt (Z.of_nat (length data))))).

Definition stdev_of (data : list value) : result value :=
  guard_nulls data
    (result_bind (variance_of data) (fun v =>
     match v with
     | VDec x => result_bind (Decimal.sqrt x) (fun d => Ok (VDec d))
     | _ => Raise AttributeError
     end)).

(** The rows [counts()] hands to [_fork], as (value, count) pairs. *)
Definition counts_of (ord : dict_order) (data : list value) : list (value * Z) :=
  List.map snd
    (sorted_desc (List.map (fun i => (VInt (snd i), i)) (ord (count_values data)))).

(** The number of elements of [data] equal to [v] ([Column.count]). *)
Definition count_of (data : list value) (v : value) : Z :=
  fold_left (fun count d => if py_eq d v then count + 1 else count) data 0.

(* ===================================================================== *)
(** * Specification vocabulary                                            *)
(* ===================================================================== *)

(** The rows of table [t] in store [h]. *)
Definition rows_at (h : heap) (t : Table.t) (rows : list (list value)) : Prop :=
  exists rs, h !! Table._data t = Some (ORows rs)
             /\ Forall2 (fun r xs => h !! r = Some (OValues xs)) rs rows.

(** [data] is what slot [idx] holds, row by row. *)
Definition is_slice (rows : list (list value)) (idx : Z) (data : list value) : Prop :=
  Forall2 (fun xs v => py_index xs idx = Ok v) rows data.

(** [T.rows[j][i]] read from the store. *)
Definition table_cell (h : heap) (t : Table.t) (j : nat) (i : Z) : option value :=
  match h !! Table._data t with
  | Some (ORows rs) =>
      match rs !! j with
      | Some r =>
          match h !! r with
          | Some (OValues xs) =>
              match py_index xs i with Ok v => Some v | Raise _ => None end
          | _ => None
          end
      | None => None
      end
  | _ => None
  end.

(** A cache attribute is either unset or refers to the list it stands for. *)
Definition cache_holds (h : heap) (o : option loc) (xs : list value) : Prop :=
  match o with
  | None => True
  | Some l => h !! l = Some (OValues xs)
  end.

(** The invariant of a column object [self] of table [t] at slot [idx]:
    whatever its caches hold is derived from the slice of the table. *)
Record col_state (h : heap) (self : loc) (t : Table.t) (idx : Z)
    (rows : list (list value)) (data : list value) : Prop := {
  cs_obj : exists c, h !! self = Some (OColumn c)
     /\ _table c = t /\ _index c = idx
     /\ cache_holds h (_cached_data c) data
     /\ cache_holds h (_cached_data_without_nulls c) (without_nulls data)
     /\ cache_holds h (_cached_data_sorted c) (py_sorted data);
  cs_rows : rows_at h t rows;
  cs_slice : is_slice rows idx data }.

(** Every object of [h] other than [self] is the same in [h']. *)
Definition frame (self : loc) (h h' : heap) : Prop :=
  forall l o, l <> self -> h !! l = Some o -> h' !! l = Some o.

(** Every object of [h] is the same in [h']. *)
Definition unchanged (h h' : heap) : Prop :=
  forall l o, h !! l = Some o -> h' !! l = Some o.

(** Running [m] from [h] gives [r], keeps the column invariant and leaves
    every other object alone. *)
Definition returns {A} (m : M A) (h : heap) (r : result A)
    (self : loc) (t : Table.t) (idx : Z)
    (rows : list (list value)) (data : list value) : Prop :=
  exists h', m h = (h', r) /\ col_state h' self t idx rows data /\ frame self h h'.

(** Numeric cells: [int], [Decimal], or null. *)
Definition is_number (v : value) : bool :=
  match v with VInt _ | VDec _ => true | _ => false end.
Definition numeric (data : list value) : Prop :=
  Forall (fun v => is_number v = true \/ v = VNone) data.

(** A traversal order of dictionaries rearranges the entries, nothing more. *)
Definition order_ok (ord : dict_order) : Prop :=
  forall c, Permutation (ord c) c.

(** ** Calls on a column

    The methods a client can call on a column object, with their arguments;
    [run_call] is the store a call leaves behind, whatever it returns or
    raises. *)
Inductive call :=
| Call_data
| Call_data_without_nulls
| Call_data_sorted
| Call_getitem (j : Z)
| Call_len
| Call_eq (other : list value)
| Call_ne (other : list value)
| Call_has_nulls
| Call_any (func : value -> result bool)
| Call_all (func : value -> result bool)
| Call_map (func : value -> result value)
    (new_column_type : option column_class) (new_column_name : option string)
| Call_count (v : value)
| Call_counts
| Call_validate (cls : column_class)
| Call_cast (cls : column_class)
| Call_sum
| Call_min
| Call_max
| Call_mean
| Call_median
| Call_mode
| Call_variance
| Call_stdev.

(** [validate] and [_cast] as each class defines or inherits them. *)
Definition validate_of_class (cls : column_class) : loc -> M unit :=
  match cls with
  | class_TextColumn => TextColumn.validate
  | class_IntColumn => IntColumn.validate
  | class_DecimalColumn => DecimalColumn.validate
  | class_Column | class_NumberColumn => Column.validate
  end.

Definition cast_of_class (cls : column_class) : loc -> M (list value) :=
  match cls with
  | class_TextColumn => TextColumn._cast
  | class_IntColumn => IntColumn._cast
  | class_DecimalColumn => DecimalColumn._cast
  | class_Column | class_NumberColumn => Column._cast
  end.

Definition run_call (ord : dict_order) (self : loc) (c : call) (h : heap) : heap :=
  match c with
  | Call_data => fst (Column._data self h)
  | Call_data_without_nulls => fst (Column._data_without_nulls self h)
  | Call_data_sorted => fst (Column._data_sorted self h)
  | Call_getitem j => fst (Column.__getitem__ self j h)
  | Call_len => fst (Column.__len__ self h)
  | Call_eq other => fst (Column.__eq__ self other h)
  | Call_ne other => fst (Column.__ne__ self other h)
  | Call_has_nulls => fst (Column.has_nulls self h)
  | Call_any func => fst (Column.any self func h)
  | Call_all func => fst (Column.all self func h)
  | Call_map func ty name => fst (Column.map self func ty name h)
  | Call_count v => fst (Column.count self v h)
  | Call_counts => fst (Column.counts ord self h)
  | Call_validate cls => fst (validate_of_class cls self h)
  | Call_cast cls => fst (cast_of_class cls self h)
  | Call_sum => fst (NumberColumn.sum self h)
  | Call_min => fst (NumberColumn.min self h)
  | Call_max => fst (NumberColumn.max self h)
  | Call_mean => fst (NumberColumn.mean self h)
  | Call_median => fst (NumberColumn.median self h)
  | Call_mode => fst (NumberColumn.mode ord self h)
  | Call_variance => fst (NumberColumn.variance self h)
  | Call_stdev => fst (NumberColumn.stdev self h)
  end.

Definition run_calls (ord : dict_order) (self : loc) (cs : list call) (h : heap) : heap :=
  fold_left (fun h c => run_call ord self c h) cs h.

(** ** A table to run the methods on

    Two columns; the second one holds [col]. *)
Definition example_table (col : list value) : heap * Table.t :=
  let rows := List.map (fun v => OValues [VStr "r"; v]) col in
  let locs := seq 3 (length col) in
  let h0 : heap := list_to_map (combine locs rows) in
  (<[0%nat := ORows locs]>
     (<[1%nat := OTypes [class_TextColumn; class_IntColumn]]>
        (<[2%nat := ONames ["name"%string; "n"%string]]> h0)),
   Table.Make 0%nat 1%nat 2%nat).

(** The store and the column object after [Column(table, 1)]. *)
Definition example_column (col : list value) : heap * loc :=
  let '(h, t) := example_table col in
  match Column.__init__ t 1 h with
  | (h', Ok self) => (h', self)
  | (h', Raise _) => (h', 0%nat)
  end.

(** [d] denotes the rational [num / den] exactly. *)
Definition exact_quotient (d : decimal) (num den : Z) : Prop :=
  Decimal.scoeff d * den * 10 ^ Z.max 0 (dexp d)
  = num * 10 ^ Z.max 0 (- dexp d).

(** [keeps h0 m h1 Q]: run from [h1], [m] leaves every object of [h0] as it
    is, whether it returns or raises, and [Q] holds of what it returns. *)
Definition keeps {A} (h0 : heap) (m : M A) (h1 : heap)
    (Q : heap -> A -> Prop) : Prop :=
  unchanged h0 (fst (m h1)) /\ forall a, snd (m h1) = Ok a -> Q (fst (m h1)) a.

(** Text made of decimal digits only. *)
Definition digits_only (s : string) : Prop :=
  List.Forall (fun a => Str.is_digit a = true) (list_ascii_of_string s).

(** The rows of a table, as the list of their contents, when every reference
    resolves. *)
Definition table_rows (h : heap) (t : Table.t) : option (list (list value)) :=
  match h !! Table._data t with
  | Some (ORows rs) =>
      fold_right (fun r acc =>
        match h !! r, acc with
        | Some (OValues xs), Some rows => Some (xs :: rows)
        | _, _ => None
        end) (Some []) rs
  | _ => None
  end.

(* ===================================================================== *)
(** * Computations over the store: basic facts                            *)
(* ===================================================================== *)

Lemma bind_ok {A B} (m : M A) (k : A -> M B) h h' a :
  m h = (h', Ok a) -> bind m k h = k a h'.
Proof. intros H. unfold bind. now rewrite H. Qed.

Lemma bind_raise {A B} (m : M A) (k : A -> M B) h h' e :
  m h = (h', Raise e) -> bind m k h = (h', Raise e).
Proof. intros H. unfold bind. now rewrite H. Qed.

Lemma fresh_lookup (h : heap) : h !! fresh (dom h) = None.
Proof. apply not_elem_of_dom, is_fresh. Qed.

Lemma read_values_ok h l xs :
  h !! l = Some (OValues xs) -> read_values l h = (h, Ok xs).
Proof. intros H. unfold read_values. now rewrite H. Qed.

Lemma read_rows_ok h l rs :
  h !! l = Some (ORows rs) -> read_rows l h = (h, Ok rs).
Proof. intros H. unfold read_rows. now rewrite H. Qed.

Lemma read_types_ok h l ts :
  h !! l = Some (OTypes ts) -> read_types l h = (h, Ok ts).
Proof. intros H. unfold read_types. now rewrite H. Qed.

Lemma read_names_ok h l ns :
  h !! l = Some (ONames ns) -> read_names l h = (h, Ok ns).
Proof. intros H. unfold read_names. now rewrite H. Qed.

Lemma read_column_ok h l c :
  h !! l = Some (OColumn c) -> read_column l h = (h, Ok c).
Proof. intros H. unfold read_column. now rewrite H. Qed.

(** A traversal whose every step reads without writing. *)
Lemma traverse_pure {A B} (f : A -> M B) (h : heap) (l : list A) (bs : list B) :
  Forall2 (fun a b => f a h = (h, Ok b)) l bs -> traverse f l h = (h, Ok bs).
Proof.
  induction 1 as [|a b l bs Hab _ IH]; [reflexivity|].
  cbn [traverse]. rewrite (bind_ok _ _ _ _ _ Hab), (bind_ok _ _ _ _ _ IH).
  reflexivity.
Qed.

Lemma frame_refl self h : frame self h h.
Proof. now intros l o _ H. Qed.

Lemma frame_trans self h1 h2 h3 :
  frame self h1 h2 -> frame self h2 h3 -> frame self h1 h3.
Proof. intros H12 H23 l o Hl H. apply H23, H12; assumption. Qed.

Lemma unchanged_frame self h h' : unchanged h h' -> frame self h h'.
Proof. intros H l o _. apply H. Qed.

Lemma rows_at_frame self c h h' t rows :
  h !! self = Some (OColumn c) ->
  frame self h h' -> rows_at h t rows -> rows_at h' t rows.
Proof.
  intros Hself Hf (rs & Hrs & Hall). exists rs. split.
  - apply Hf; [|exact Hrs]. congruence.
  - eapply Forall2_impl; [exact Hall|]. cbn. intros r xs Hr.
    apply Hf; [|exact Hr]. congruence.
Qed.

Lemma cache_holds_frame self c h h' o xs :
  h !! self = Some (OColumn c) ->
  frame self h h' -> cache_holds h o xs -> cache_holds h' o xs.
Proof.
  intros Hself Hf. destruct o as [l|]; cbn; [|trivial].
  intros Hl. apply Hf; [|exact Hl]. congruence.
Qed.

(** The list comprehension of [_data] reads the slice and writes nothing. *)
Lemma slice_spec h t idx rows data :
  rows_at h t rows -> is_slice rows idx data ->
  Column.slice t idx h = (h, Ok data).
Proof.
  intros (rs & Hrs & Hall) Hsl. unfold Column.slice.
  rewrite (bind_ok _ _ _ _ _ (read_rows_ok _ _ _ Hrs)).
  apply traverse_pure. unfold is_slice in Hsl. clear Hrs. revert data Hsl.
  induction Hall as [|r xs rs rows Hr _ IH]; intros data Hsl.
  - inversion Hsl; subst. constructor.
  - inversion Hsl as [|? v ? data' Hv Hsl']; subst. constructor.
    + rewrite (bind_ok _ _ _ _ _ (read_values_ok _ _ _ Hr)).
      unfold lift. now rewrite Hv.
    + now apply IH.
Qed.

(** [_data]: the first call fills the cache with the slice, later calls
    return the cached list; either way the list returned is the slice. *)
Lemma _data_spec h self t idx rows data :
  col_state h self t idx rows data ->
  exists h' l, Column._data self h = (h', Ok l)
    /\ h' !! l = Some (OValues data)
    /\ col_state h' self t idx rows data
    /\ frame self h h'.
Proof.
  intros [(c & Hc & Ht & Hi & Hd & Hn & Hs) Hrows Hsl].
  unfold Column._data. rewrite (bind_ok _ _ _ _ _ (read_column_ok _ _ _ Hc)).
  destruct (_cached_data c) as [l|] eqn:Hcd.
  - exists h, l. cbn in Hd. repeat split; try assumption.
    + exists c. rewrite Hcd. repeat split; assumption.
    + apply frame_refl.
  - rewrite Ht, Hi.
    rewrite (bind_ok _ _ _ _ _ (slice_spec _ _ _ _ _ Hrows Hsl)).
    pose proof (fresh_lookup h) as Hfresh.
    set (l := fresh (dom h)) in *.
    assert (Hne : l <> self) by congruence.
    set (h1 := <[l := OValues data]> h).
    set (c' := MkColumn (_table c) (_index c) (Some l)
                 (_cached_data_without_nulls c) (_cached_data_sorted c)).
    set (h2 := <[self := OColumn c']> h1).
    assert (Hrun : (alloc (OValues data) h) = (h1, Ok l)) by reflexivity.
    rewrite (bind_ok _ _ _ _ _ Hrun).
    assert (Hc1 : h1 !! self = Some (OColumn c)).
    { unfold h1. rewrite lookup_insert_ne by exact Hne. exact Hc. }
    assert (Hset : Column.set_cached_data self l h1 = (h2, Ok tt)).
    { unfold Column.set_cached_data.
      rewrite (bind_ok _ _ _ _ _ (read_column_ok _ _ _ Hc1)). reflexivity. }
    rewrite (bind_ok _ _ _ _ _ Hset).
    assert (Hfr : frame self h h2).
    { intros l0 o Hl0 H0. unfold h2, h1.
      rewrite lookup_insert_ne by congruence.
      rewrite lookup_insert_ne by congruence. exact H0. }
    assert (Hl2 : h2 !! l = Some (OValues data)).
    { unfold h2, h1. rewrite lookup_insert_ne by congruence.
      apply lookup_insert_eq. }
    exists h2, l. split; [reflexivity|]. split; [exact Hl2|].
    split; [|exact Hfr]. split; [| |exact Hsl].
    + exists c'. split; [apply lookup_insert_eq|].
      split; [exact Ht|]. split; [exact Hi|]. split; [exact Hl2|].
      split.
      * apply (cache_holds_frame self c h h2); [exact Hc|exact Hfr|exact Hn].
      * apply (cache_holds_frame self c h h2); [exact Hc|exact Hfr|exact Hs].
    + apply (rows_at_frame self c h h2); assumption.
Qed.

Lemma col_state_lookup h self t idx rows data :
  col_state h self t idx rows data -> exists c, h !! self = Some (OColumn c).
Proof. intros [(c & Hc & _) _ _]. now exists c. Qed.

(** Filling a cache attribute of a column whose invariant holds: a new list
    object is stored and the attribute is pointed to it. *)
Lemma fill_cache h self t idx rows data (xs : list value)
    (setter : loc -> loc -> M unit) (upd : column -> loc -> column) :
  col_state h self t idx rows data ->
  (forall c l h0, h0 !! self = Some (OColumn c) ->
     setter self l h0 = (<[self := OColumn (upd c l)]> h0, Ok tt)) ->
  (forall c l, _table (upd c l) = _table c /\ _index (upd c l) = _index c) ->
  (forall c l h0, h0 !! l = Some (OValues xs) ->
     cache_holds h0 (_cached_data c) data ->
     cache_holds h0 (_cached_data_without_nulls c) (without_nulls data) ->
     cache_holds h0 (_cached_data_sorted c) (py_sorted data) ->
     cache_holds h0 (_cached_data (upd c l)) data
     /\ cache_holds h0 (_cached_data_without_nulls (upd c l)) (without_nulls data)
     /\ cache_holds h0 (_cached_data_sorted (upd c l)) (py_sorted data)) ->
  exists h' l, (l <- alloc (OValues xs) ;; setter self l ;;; ret l) h = (h', Ok l)
    /\ h' !! l = Some (OValues xs)
    /\ col_state h' self t idx rows data
    /\ frame self h h'.
Proof.
  intros [(c & Hc & Ht & Hi & Hd & Hn & Hs) Hrows Hsl] Hset Hupd Hcache.
  pose proof (fresh_lookup h) as Hfresh.
  set (l := fresh (dom h)) in *.
  assert (Hne : l <> self) by congruence.
  set (h1 := <[l := OValues xs]> h).
  set (h2 := <[self := OColumn (upd c l)]> h1).
  assert (Hrun : alloc (OValues xs) h = (h1, Ok l)) by reflexivity.
  assert (Hc1 : h1 !! self = Some (OColumn c)).
  { unfold h1. rewrite lookup_insert_ne by exact Hne. exact Hc. }
  assert (Hfr : frame self h h2).
  { intros l0 o Hl0 H0. unfold h2, h1.
    rewrite lookup_insert_ne by congruence.
    rewrite lookup_insert_ne by congruence. exact H0. }
  assert (Hl2 : h2 !! l = Some (OValues xs)).
  { unfold h2, h1. rewrite lookup_insert_ne by congruence.
    apply lookup_insert_eq. }
  exists h2, l. split.
  { rewrite (bind_ok _ _ _ _ _ Hrun), (bind_ok _ _ _ _ _ (Hset c l h1 Hc1)).
    reflexivity. }
  split; [exact Hl2|]. split; [|exact Hfr]. split; [| |exact Hsl].
  - exists (upd c l). split; [apply lookup_insert_eq|].
    destruct (Hupd c l) as [-> ->]. split; [exact Ht|]. split; [exact Hi|].
    apply Hcache; [exact Hl2| | |];
      (apply (cache_holds_frame self c h h2); [exact Hc|exact Hfr|assumption]).
  - apply (rows_at_frame self c h h2); assumption.
Qed.

Lemma _data_without_nulls_spec h self t idx rows data :
  col_state h self t idx rows data ->
  exists h' l, Column._data_without_nulls self h = (h', Ok l)
    /\ h' !! l = Some (OValues (without_nulls data))
    /\ col_state h' self t idx rows data
    /\ frame self h h'.
Proof.
  intros Hcs. pose proof Hcs as [(c & Hc & Ht & Hi & Hd & Hn & Hs) Hrows Hsl].
  unfold Column._data_without_nulls.
  rewrite (bind_ok _ _ _ _ _ (read_column_ok _ _ _ Hc)).
  destruct (_cached_data_without_nulls c) as [l|] eqn:Hcn.
  - exists h, l. split; [reflexivity|]. split; [exact Hn|].
    split; [exact Hcs|apply frame_refl].
  - destruct (_data_spec _ _ _ _ _ _ Hcs) as (h1 & d & E1 & Hd1 & Hcs1 & Hf1).
    rewrite (bind_ok _ _ _ _ _ E1).
    rewrite (bind_ok _ _ _ _ _ (read_values_ok _ _ _ Hd1)).
    destruct (fill_cache h1 self t idx rows data (without_nulls data)
                Column.set_cached_data_without_nulls
                (fun c l => MkColumn (_table c) (_index c) (_cached_data c)
                              (Some l) (_cached_data_sorted c)) Hcs1)
      as (h2 & l & E2 & Hl2 & Hcs2 & Hf2).
    + intros c0 l0 h0 H0. unfold Column.set_cached_data_without_nulls.
      now rewrite (bind_ok _ _ _ _ _ (read_column_ok _ _ _ H0)).
    + now intros.
    + intros c0 l0 h0 H0 H1 H2 H3. cbn. auto.
    + exists h2, l. split; [exact E2|]. split; [exact Hl2|].
      split; [exact Hcs2|]. eapply frame_trans; eassumption.
Qed.

Lemma _data_sorted_spec h self t idx rows data :
  col_state h self t idx rows data ->
  exists h' l, Column._data_sorted self h = (h', Ok l)
    /\ h' !! l = Some (OValues (py_sorted data))
    /\ col_state h' self t idx rows data
    /\ frame self h h'.
Proof.
  intros Hcs. pose proof Hcs as [(c & Hc & Ht & Hi & Hd & Hn & Hs) Hrows Hsl].
  unfold Column._data_sorted.
  rewrite (bind_ok _ _ _ _ _ (read_column_ok _ _ _ Hc)).
  destruct (_cached_data_sorted c) as [l|] eqn:Hcn.
  - exists h, l. split; [reflexivity|]. split; [exact Hs|].
    split; [exact Hcs|apply frame_refl].
  - destruct (_data_spec _ _ _ _ _ _ Hcs) as (h1 & d & E1 & Hd1 & Hcs1 & Hf1).
    rewrite (bind_ok _ _ _ _ _ E1).
    rewrite (bind_ok _ _ _ _ _ (read_values_ok _ _ _ Hd1)).
    destruct (fill_cache h1 self t idx rows data (py_sorted data)
                Column.set_cached_data_sorted
                (fun c l => MkColumn (_table c) (_index c) (_cached_data c)
                              (_cached_data_without_nulls c) (Some l)) Hcs1)
      as (h2 & l & E2 & Hl2 & Hcs2 & Hf2).
    + intros c0 l0 h0 H0. unfold Column.set_cached_data_sorted.
      now rewrite (bind_ok _ _ _ _ _ (read_column_ok _ _ _ H0)).
    + now intros.
    + intros c0 l0 h0 H0 H1 H2 H3. cbn. auto.
    + exists h2, l. split; [exact E2|]. split; [exact Hl2|].
      split; [exact Hcs2|]. eapply frame_trans; eassumption.
Qed.

(** A method that reads one of the three views and computes on it. *)
Lemma view_then {A} (view : loc -> M loc) (xs : list value)
    (k : list value -> result A) h self t idx rows data :
  (forall h0, col_state h0 self t idx rows data ->
     exists h' l, view self h0 = (h', Ok l)
       /\ h' !! l = Some (OValues xs)
       /\ col_state h' self t idx rows data /\ frame self h0 h') ->
  col_state h self t idx rows data ->
  returns (d <- view self ;; xs <- read_values d ;; lift (k xs))
          h (k xs) self t idx rows data.
Proof.
  intros Hview Hcs. destruct (Hview h Hcs) as (h1 & d & E1 & Hd1 & Hcs1 & Hf1).
  exists h1. split; [|split; assumption].
  rewrite (bind_ok _ _ _ _ _ E1).
  now rewrite (bind_ok _ _ _ _ _ (read_values_ok _ _ _ Hd1)).
Qed.

Lemma data_then {A} (k : list value -> result A) h self t idx rows data :
  col_state h self t idx rows data ->
  returns (d <- Column._data self ;; xs <- read_values d ;; lift (k xs))
          h (k data) self t idx rows data.
Proof. apply view_then. intros h0. apply _data_spec. Qed.

Lemma getitem_returns h self t idx rows data j :
  col_state h self t idx rows data ->
  returns (Column.__getitem__ self j) h (py_index data j) self t idx rows data.
Proof. apply (data_then (fun xs => py_index xs j)). Qed.

Lemma len_returns h self t idx rows data :
  col_state h self t idx rows data ->
  returns (Column.__len__ self) h (Ok (Z.of_nat (length data))) self t idx rows data.
Proof. apply (data_then (fun xs => Ok (Z.of_nat (length xs)))). Qed.

Lemma eq_returns h self t idx rows data other :
  col_state h self t idx rows data ->
  returns (Column.__eq__ self other) h (Ok (py_list_eq data other)) self t idx rows data.
Proof. apply (data_then (fun xs => Ok (py_list_eq xs other))). Qed.

Lemma has_nulls_returns h self t idx rows data :
  col_state h self t idx rows data ->
  returns (Column.has_nulls self) h (Ok (existsb is_none data)) self t idx rows data.
Proof. apply (data_then (fun xs => Ok (existsb is_none xs))). Qed.

Lemma count_returns h self t idx rows data v :
  col_state h self t idx rows data ->
  returns (Column.count self v) h (Ok (count_of data v)) self t idx rows data.
Proof. apply (data_then (fun xs => Ok (count_of xs v))). Qed.

Lemma sum_returns h self t idx rows data :
  col_state h self t idx rows data ->
  returns (NumberColumn.sum self) h (py_sum (without_nulls data)) self t idx rows data.
Proof. apply (view_then _ _ py_sum). intros h0. apply _data_without_nulls_spec. Qed.

Lemma min_returns h self t idx rows data :
  col_state h self t idx rows data ->
  returns (NumberColumn.min self) h (py_min (without_nulls data)) self t idx rows data.
Proof. apply (view_then _ _ py_min). intros h0. apply _data_without_nulls_spec. Qed.

Lemma max_returns h self t idx rows data :
  col_state h self t idx rows data ->
  returns (NumberColumn.max self) h (py_max (without_nulls data)) self t idx rows data.
Proof. apply (view_then _ _ py_max). intros h0. apply _data_without_nulls_spec. Qed.

Section Returns.
Context (self : loc) (t : Table.t) (idx : Z)
        (rows : list (list value)) (data : list value).

Lemma returns_lift {A} (r : result A) h :
  col_state h self t idx rows data ->
  returns (lift r) h r self t idx rows data.
Proof. intros Hcs. exists h. split; [reflexivity|]. split; [exact Hcs|apply frame_refl]. Qed.

Lemma returns_bind {A B} (m : M A) (k : A -> M B) (r : result A)
    (k' : A -> result B) h :
  returns m h r self t idx rows data ->
  (forall a h1, r = Ok a -> col_state h1 self t idx rows data ->
     returns (k a) h1 (k' a) self t idx rows data) ->
  returns (bind m k) h (result_bind r k') self t idx rows data.
Proof.
  intros (h1 & E1 & Hcs1 & Hf1) Hk. destruct r as [a|e].
  - destruct (Hk a h1 eq_refl Hcs1) as (h2 & E2 & Hcs2 & Hf2).
    exists h2. split; [now rewrite (bind_ok _ _ _ _ _ E1)|].
    split; [exact Hcs2|]. eapply frame_trans; eassumption.
  - exists h1. split; [now rewrite (bind_raise _ _ _ _ _ E1)|].
    split; assumption.
Qed.

Lemma no_null_returns {A} (func : loc -> M A) (r : result A) h :
  (forall h0, col_state h0 self t idx rows data ->
     returns (func self) h0 r self t idx rows data) ->
  col_state h self t idx rows data ->
  returns (no_null_computations func self) h (guard_nulls data r)
          self t idx rows data.
Proof.
  intros Hf Hcs. unfold no_null_computations, guard_nulls.
  destruct (has_nulls_returns _ _ _ _ _ _ Hcs) as (h1 & E1 & Hcs1 & Hf1).
  destruct (existsb is_none data).
  - exists h1. split; [now rewrite (bind_ok _ _ _ _ _ E1)|]. split; assumption.
  - destruct (Hf h1 Hcs1) as (h2 & E2 & Hcs2 & Hf2).
    exists h2. split; [now rewrite (bind_ok _ _ _ _ _ E1)|].
    split; [exact Hcs2|]. eapply frame_trans; eassumption.
Qed.

Lemma mean_returns h :
  col_state h self t idx rows data ->
  returns (NumberColumn.mean self) h (mean_of data) self t idx rows data.
Proof.
  apply no_null_returns. intros h0 Hcs0. unfold NumberColumn.mean_body.
  apply returns_bind; [now apply sum_returns|]. intros s h1 _ Hcs1.
  apply returns_bind; [now apply returns_lift|]. intros d h2 _ Hcs2.
  apply (returns_bind _ _ (Ok (Z.of_nat (length data)))
           (fun n => py_div (VDec d) (VInt n))); [now apply len_returns|].
  intros n h3 _ Hcs3. now apply returns_lift.
Qed.

Lemma median_returns h :
  col_state h self t idx rows data ->
  returns (NumberColumn.median self) h (median_of data) self t idx rows data.
Proof.
  apply no_null_returns. intros h0 Hcs0. unfold NumberColumn.median_body.
  destruct (_data_sorted_spec _ _ _ _ _ _ Hcs0) as (h1 & d & E1 & Hd1 & Hcs1 & Hf1).
  exists h1. split; [|split; assumption].
  rewrite (bind_ok _ _ _ _ _ E1).
  rewrite (bind_ok _ _ _ _ _ (read_values_ok _ _ _ Hd1)).
  destruct (_ =? 1); [reflexivity|].
  unfold bind, lift.
  destruct (py_index _ (_ - 1)) as [a|]; [|reflexivity].
  destruct (py_index _ _) as [b|]; [|reflexivity]. cbn.
  destruct (py_add a b) as [ab|]; [|reflexivity]. cbn.
  destruct (py_Decimal ab) as [dab|]; reflexivity.
Qed.

Lemma mode_returns ord h :
  col_state h self t idx rows data ->
  returns (NumberColumn.mode ord self) h (mode_of ord data) self t idx rows data.
Proof.
  apply no_null_returns. intros h0.
  apply (data_then (fun xs => py_max_by (counter_get (count_values xs))
                                (List.map fst (ord (count_values xs))))).
Qed.

Lemma ssd_returns l : forall acc h,
  col_state h self t idx rows data ->
  returns (NumberColumn.sum_squared_deviations self acc l) h
          (ssd_of (mean_of data) acc l) self t idx rows data.
Proof.
  induction l as [|n l IH]; intros acc h Hcs.
  - now apply (returns_lift (Ok acc)).
  - cbn [NumberColumn.sum_squared_deviations ssd_of].
    apply returns_bind; [now apply mean_returns|]. intros m h1 _ Hcs1.
    apply returns_bind; [now apply returns_lift|]. intros dev h2 _ Hcs2.
    apply returns_bind; [now apply returns_lift|]. intros sq h3 _ Hcs3.
    apply returns_bind; [now apply returns_lift|]. intros acc' h4 _ Hcs4.
    now apply IH.
Qed.

Lemma variance_returns h :
  col_state h self t idx rows data ->
  returns (NumberColumn.variance self) h (variance_of data) self t idx rows data.
Proof.
  apply no_null_returns. intros h0 Hcs0. unfold NumberColumn.variance_body.
  destruct (_data_spec _ _ _ _ _ _ Hcs0) as (h1 & d & E1 & Hd1 & Hcs1 & Hf1).
  destruct (ssd_returns data (VInt 0) h1 Hcs1) as (h2 & E2 & Hcs2 & Hf2).
  exists h2. split; [|split; [exact Hcs2|eapply frame_trans; eassumption]].
  rewrite (bind_ok _ _ _ _ _ E1).
  rewrite (bind_ok _ _ _ _ _ (read_values_ok _ _ _ Hd1)).
  unfold bind. rewrite E2. now destruct (ssd_of _ _ _).
Qed.

Lemma stdev_returns h :
  col_state h self t idx rows data ->
  returns (NumberColumn.stdev self) h (stdev_of data) self t idx rows data.
Proof.
  apply no_null_returns. intros h0 Hcs0. unfold NumberColumn.stdev_body.
  apply returns_bind; [now apply variance_returns|]. intros v h1 _ Hcs1.
  destruct v; try now apply (returns_lift (Raise AttributeError)).
  apply (returns_bind (lift (Decimal.sqrt d)) (fun d => ret (VDec d))
           (Decimal.sqrt d) (fun d => Ok (VDec d))); [now apply returns_lift|].
  intros x h2 _ Hcs2. now apply (returns_lift (Ok (VDec x))).
Qed.

End Returns.

(* ===================================================================== *)
(** * Computations that never write to an object of a given store         *)
(* ===================================================================== *)

Lemma unchanged_refl h : unchanged h h.
Proof. now intros l o. Qed.

Lemma unchanged_insert_fresh h0 h1 l o :
  unchanged h0 h1 -> h0 !! l = None -> unchanged h0 (<[l := o]> h1).
Proof.
  intros H Hl l0 o0 H0. rewrite lookup_insert_ne by congruence. now apply H.
Qed.

Lemma unchanged_fresh h0 h1 :
  unchanged h0 h1 -> h0 !! fresh (dom h1) = None.
Proof.
  intros H. destruct (h0 !! fresh (dom h1)) as [o|] eqn:E; [|reflexivity].
  apply H in E. now rewrite fresh_lookup in E.
Qed.

Lemma keeps_bind {A B} h0 (m : M A) (k : A -> M B) h1 Q R :
  keeps h0 m h1 Q ->
  (forall h2 a, unchanged h0 h2 -> Q h2 a -> keeps h0 (k a) h2 R) ->
  keeps h0 (bind m k) h1 R.
Proof.
  unfold keeps, bind. intros [Hu HQ] Hk.
  destruct (m h1) as [h2 [a|e]]; cbn in *.
  - apply Hk; auto.
  - split; [exact Hu|discriminate].
Qed.

Lemma keeps_weaken {A} h0 (m : M A) h1 (Q R : heap -> A -> Prop) :
  keeps h0 m h1 Q -> (forall h a, Q h a -> R h a) -> keeps h0 m h1 R.
Proof. intros [Hu HQ] HR. split; [exact Hu|]. intros a Ha. apply HR, HQ, Ha. Qed.

Lemma keeps_lift {A} h0 (r : result A) h1 :
  unchanged h0 h1 -> keeps h0 (lift r) h1 (fun h a => h = h1 /\ r = Ok a).
Proof. intros Hu. split; [exact Hu|]. cbn. auto. Qed.

Lemma keeps_ret {A} h0 (a : A) h1 (Q : heap -> A -> Prop) :
  unchanged h0 h1 -> Q h1 a -> keeps h0 (ret a) h1 Q.
Proof. intros Hu HQ. split; [exact Hu|]. cbn. now intros a' [= <-]. Qed.

Lemma keeps_raise {A} h0 e h1 (Q : heap -> A -> Prop) :
  unchanged h0 h1 -> keeps h0 (raise e) h1 Q.
Proof. intros Hu. split; [exact Hu|]. cbn. discriminate. Qed.

Lemma keeps_alloc h0 o h1 :
  unchanged h0 h1 ->
  keeps h0 (alloc o) h1
    (fun h l => h0 !! l = None /\ h1 !! l = None /\ h = <[l := o]> h1).
Proof.
  intros Hu. split; cbn.
  - apply unchanged_insert_fresh; [exact Hu|now apply unchanged_fresh].
  - intros l [= <-]. split; [now apply unchanged_fresh|].
    split; [apply fresh_lookup|reflexivity].
Qed.

Lemma keeps_store h0 l o h1 :
  unchanged h0 h1 -> h0 !! l = None ->
  keeps h0 (store l o) h1 (fun h _ => h = <[l := o]> h1).
Proof.
  intros Hu Hl. split; cbn; [now apply unchanged_insert_fresh|auto].
Qed.

Lemma keeps_read_values h0 l h1 :
  unchanged h0 h1 ->
  keeps h0 (read_values l) h1 (fun h xs => h = h1 /\ h1 !! l = Some (OValues xs)).
Proof.
  intros Hu. unfold keeps, read_values.
  destruct (h1 !! l) as [[]|]; cbn; split; try exact Hu; try discriminate.
  now intros a [= <-].
Qed.

Lemma keeps_read_rows h0 l h1 :
  unchanged h0 h1 ->
  keeps h0 (read_rows l) h1 (fun h rs => h = h1 /\ h1 !! l = Some (ORows rs)).
Proof.
  intros Hu. unfold keeps, read_rows.
  destruct (h1 !! l) as [[]|]; cbn; split; try exact Hu; try discriminate.
  now intros a [= <-].
Qed.

Lemma keeps_read_types h0 l h1 :
  unchanged h0 h1 ->
  keeps h0 (read_types l) h1 (fun h ts => h = h1 /\ h1 !! l = Some (OTypes ts)).
Proof.
  intros Hu. unfold keeps, read_types.
  destruct (h1 !! l) as [[]|]; cbn; split; try exact Hu; try discriminate.
  now intros a [= <-].
Qed.

Lemma keeps_read_names h0 l h1 :
  unchanged h0 h1 ->
  keeps h0 (read_names l) h1 (fun h ns => h = h1 /\ h1 !! l = Some (ONames ns)).
Proof.
  intros Hu. unfold keeps, read_names.
  destruct (h1 !! l) as [[]|]; cbn; split; try exact Hu; try discriminate.
  now intros a [= <-].
Qed.

Lemma keeps_read_column h0 l h1 :
  unchanged h0 h1 ->
  keeps h0 (read_column l) h1 (fun h c => h = h1 /\ h1 !! l = Some (OColumn c)).
Proof.
  intros Hu. unfold keeps, read_column.
  destruct (h1 !! l) as [[]|]; cbn; split; try exact Hu; try discriminate.
  now intros a [= <-].
Qed.

(** A traversal of reads writes nothing. *)
Lemma keeps_traverse_read_values h0 rs h1 :
  unchanged h0 h1 ->
  keeps h0 (traverse read_values rs) h1 (fun h _ => h = h1).
Proof.
  intros Hu. induction rs as [|r rs IH]; cbn [traverse].
  - now apply keeps_ret.
  - eapply keeps_bind; [now apply keeps_read_values|].
    intros h2 xs _ [-> _]. eapply keeps_bind; [exact IH|].
    intros h3 xss _ ->. now apply keeps_ret.
Qed.

(** [_fork] only reads. *)
Lemma keeps_fork h0 data ct cn h1 :
  unchanged h0 h1 ->
  keeps h0 (_fork data ct cn) h1
    (fun h t => h = h1 /\ t = Table.Make data ct cn).
Proof.
  intros Hu. unfold _fork.
  eapply keeps_bind; [now apply keeps_read_rows|]. intros h2 rs _ [-> _].
  eapply keeps_bind; [now apply keeps_traverse_read_values|]. intros h3 rows _ ->.
  eapply keeps_bind; [now apply keeps_read_types|]. intros h4 ts _ [-> _].
  eapply keeps_bind; [now apply keeps_read_names|]. intros h5 ns _ [-> _].
  destruct (lengths_aligned _ _ _); [now apply keeps_ret|now apply keeps_raise].
Qed.

(** The copies of the rows are new objects. *)
Lemma keeps_deepcopy_rows h0 rs : forall memo h1,
  unchanged h0 h1 ->
  Forall (fun p => h0 !! snd p = None /\ exists xs, h1 !! snd p = Some (OValues xs)) memo ->
  keeps h0 (deepcopy_rows memo rs) h1
    (fun h rs' => Forall (fun r' => h0 !! r' = None
                            /\ exists xs, h !! r' = Some (OValues xs)) rs'
                  /\ unchanged h1 h).
Proof.
  induction rs as [|r rs IH]; intros memo h1 Hu Hmemo; cbn [deepcopy_rows].
  - apply keeps_ret; [exact Hu|]. split; [constructor|apply unchanged_refl].
  - destruct (List.find (fun p => Nat.eqb (fst p) r) memo) as [[r0 r']|] eqn:Hfind.
    + apply find_some in Hfind as [Hin _].
      rewrite Forall_forall in Hmemo. apply list_elem_of_In, Hmemo in Hin.
      cbn in Hin. destruct Hin as [Hr' [xs Hxs]].
      eapply keeps_bind; [now apply IH; [|rewrite Forall_forall]|].
      intros h2 rs'' Hu2 [Hall H12]. apply keeps_ret; [exact Hu2|].
      split; [|exact H12]. constructor; [|exact Hall].
      split; [exact Hr'|]. exists xs. now apply H12.
    + eapply keeps_bind; [now apply keeps_read_values|]. intros h2 xs _ [-> Hr].
      eapply keeps_bind; [now apply keeps_alloc|].
      intros h3 r' Hu3 (Hr0 & Hr1 & ->).
      eapply keeps_bind.
      * apply IH; [exact Hu3|]. constructor.
        -- cbn. split; [exact Hr0|]. exists xs. apply lookup_insert_eq.
        -- eapply Forall_impl; [exact Hmemo|]. cbn.
           intros p [Hp [ys Hys]]. split; [exact Hp|]. exists ys.
           rewrite lookup_insert_ne by congruence. exact Hys.
      * intros h4 rs'' Hu4 [Hall H34]. apply keeps_ret; [exact Hu4|]. split.
        -- constructor; [|exact Hall]. split; [exact Hr0|]. exists xs.
           apply H34, lookup_insert_eq.
        -- intros l o Hl. apply H34. rewrite lookup_insert_ne by congruence.
           exact Hl.
Qed.

(** What [map] knows about the copy it works on: it is made of new objects. *)
Lemma keeps_deepcopy_data h0 data h1 :
  unchanged h0 h1 ->
  keeps h0 (deepcopy_data data) h1
    (fun h y => h0 !! y = None
       /\ exists rs', h !! y = Some (ORows rs')
                      /\ Forall (fun r' => h0 !! r' = None) rs').
Proof.
  intros Hu. unfold deepcopy_data.
  eapply keeps_bind; [now apply keeps_read_rows|]. intros h2 rs _ [-> _].
  eapply keeps_bind; [now apply keeps_alloc|]. intros h3 y Hu3 (Hy0 & Hy1 & ->).
  eapply keeps_bind; [apply keeps_deepcopy_rows; [exact Hu3|constructor]|].
  intros h4 rs' Hu4 [Hall H34].
  eapply keeps_bind; [now apply keeps_store|]. intros h5 _ Hu5 ->.
  apply keeps_ret; [exact Hu5|]. split; [exact Hy0|]. exists rs'.
  split; [apply lookup_insert_eq|].
  eapply Forall_impl; [exact Hall|]. now intros r' [Hr' _].
Qed.

Lemma keeps_deepcopy_types h0 l h1 :
  unchanged h0 h1 ->
  keeps h0 (deepcopy_types l) h1
    (fun h l' => h0 !! l' = None /\ h1 !! l' = None
                 /\ exists ts, h = <[l' := OTypes ts]> h1).
Proof.
  intros Hu. unfold deepcopy_types.
  eapply keeps_bind; [now apply keeps_read_types|]. intros h2 ts _ [-> _].
  eapply keeps_weaken; [now apply keeps_alloc|].
  intros h3 l' (H0 & H1 & ->). eauto.
Qed.

Lemma keeps_deepcopy_names h0 l h1 :
  unchanged h0 h1 ->
  keeps h0 (deepcopy_names l) h1
    (fun h l' => h0 !! l' = None /\ h1 !! l' = None
                 /\ exists ns, h = <[l' := ONames ns]> h1).
Proof.
  intros Hu. unfold deepcopy_names.
  eapply keeps_bind; [now apply keeps_read_names|]. intros h2 ns _ [-> _].
  eapply keeps_weaken; [now apply keeps_alloc|].
  intros h3 l' (H0 & H1 & ->). eauto.
Qed.

(** The loop of [map] writes to the rows of the copy only. *)
Lemma keeps_map_loop h0 (func : value -> result value) idx y rs' rs : forall h1,
  unchanged h0 h1 ->
  Forall (fun r => h0 !! r = None) rs ->
  h1 !! y = Some (ORows rs') ->
  keeps h0
    (forM_ rs (fun row =>
       xs <- read_values row ;;
       x <- lift (py_index xs idx) ;;
       y <- lift (func x) ;;
       xs' <- lift (py_setitem xs idx y) ;;
       store row (OValues xs')))
    h1 (fun h _ => h !! y = Some (ORows rs')).
Proof.
  induction rs as [|r rs IH]; intros h1 Hu Hall Hy; cbn [forM_].
  - now apply keeps_ret.
  - inversion Hall as [|? ? Hr Hall']; subst.
    apply (keeps_bind _ _ _ _ (fun h _ => h !! y = Some (ORows rs'))).
    + eapply keeps_bind; [now apply keeps_read_values|]. intros h2 xs _ [-> Hxs].
      eapply keeps_bind; [now apply keeps_lift|]. intros h3 x _ [-> _].
      eapply keeps_bind; [now apply keeps_lift|]. intros h4 v _ [-> _].
      eapply keeps_bind; [now apply keeps_lift|]. intros h5 xs' _ [-> _].
      eapply keeps_weaken; [now apply keeps_store|].
      intros h6 _ ->. cbn. rewrite lookup_insert_ne by congruence. exact Hy.
    + intros h2 _ Hu2 Hy2. now apply IH.
Qed.

(** [map] writes to new objects only, and the lists of the table it returns
    and the rows they refer to are all new objects. *)
Lemma map_keeps h self func new_column_type new_column_name :
  keeps h (Column.map self func new_column_type new_column_name) h
    (fun h' t' =>
       h !! Table._data t' = None
       /\ h !! Table._column_types t' = None
       /\ h !! Table._column_names t' = None
       /\ exists rs', h' !! Table._data t' = Some (ORows rs')
                      /\ Forall (fun r' => h !! r' = None) rs').
Proof.
  unfold Column.map.
  eapply keeps_bind; [apply keeps_read_column, unchanged_refl|].
  intros h1 c _ [-> _].
  eapply keeps_bind; [apply keeps_deepcopy_data, unchanged_refl|].
  intros h2 y Hu2 (Hy0 & rs' & Hy2 & Hrs').
  eapply keeps_bind; [now apply keeps_deepcopy_types|].
  intros h3 ct Hu3 (Hct0 & Hct2 & ts0 & ->).
  eapply keeps_bind; [now apply keeps_deepcopy_names|].
  intros h4 cn Hu4 (Hcn0 & Hcn3 & ns0 & ->).
  assert (Hy4 : <[cn := ONames ns0]> (<[ct := OTypes ts0]> h2) !! y = Some (ORows rs')).
  { rewrite lookup_insert_ne.
    - rewrite lookup_insert_ne by congruence. exact Hy2.
    - intros ->. rewrite lookup_insert_ne in Hcn3 by congruence. congruence. }
  eapply keeps_bind; [now apply keeps_read_rows|]. intros h5 rs Hu5 [-> Hrs].
  rewrite Hy4 in Hrs. injection Hrs as <-.
  eapply keeps_bind; [apply keeps_map_loop; [exact Hu5|exact Hrs'|exact Hy4]|].
  intros h6 [] Hu6 Hy6.
  apply (keeps_bind _ _ _ _ (fun h _ => h !! y = Some (ORows rs'))).
  { destruct new_column_type as [ty|]; [|now apply keeps_ret].
    eapply keeps_bind; [now apply keeps_read_types|]. intros h7 ts _ [-> Hts].
    eapply keeps_bind; [now apply keeps_lift|]. intros h8 ts' _ [-> _].
    eapply keeps_weaken; [now apply keeps_store|].
    intros h9 _ ->. cbn. rewrite lookup_insert_ne by congruence. exact Hy6. }
  intros h7 [] Hu7 Hy7.
  apply (keeps_bind _ _ _ _ (fun h _ => h !! y = Some (ORows rs'))).
  { destruct new_column_name as [name|]; [|now apply keeps_ret].
    destruct (String.eqb name ""); [now apply keeps_ret|].
    eapply keeps_bind; [now apply keeps_read_names|]. intros h8 ns _ [-> Hns].
    eapply keeps_bind; [now apply keeps_lift|]. intros h9 ns' _ [-> _].
    eapply keeps_weaken; [now apply keeps_store|].
    intros h10 _ ->. cbn. rewrite lookup_insert_ne by congruence. exact Hy7. }
  intros h8 [] Hu8 Hy8.
  eapply keeps_weaken; [now apply keeps_fork|].
  intros h9 t' [-> ->]. cbn. repeat split; try assumption.
  now exists rs'.
Qed.

(* ===================================================================== *)
(** * Equality of cell values is an equivalence                           *)
(* ===================================================================== *)

Lemma pow10_Z k : 0 <= k -> Z.of_N (Decimal.pow10 k) = 10 ^ k.
Proof.
  intros Hk. unfold Decimal.pow10. rewrite N2Z.inj_pow, Z2N.id by exact Hk.
  reflexivity.
Qed.

Lemma scoeff_of_signed s e : Decimal.scoeff (Decimal.of_signed s e) = s.
Proof.
  unfold Decimal.scoeff, Decimal.of_signed. cbn.
  rewrite N2Z.inj_abs_N. destruct (Z.ltb_spec s 0); lia.
Qed.

Lemma mul_compare_pos a b p : 0 < p -> (a * p ?= b * p) = (a ?= b).
Proof.
  intros Hp. destruct (Z.compare_spec a b) as [->|H|H].
  - apply Z.compare_refl.
  - apply Z.compare_lt_iff. nia.
  - apply Z.compare_gt_iff. nia.
Qed.

(** Comparing two decimals is comparing their coefficients scaled to any
    common exponent below both. *)
Lemma compare_scaled x y m :
  m <= dexp x -> m <= dexp y ->
  Decimal.compare x y =
  Z.compare (Decimal.scoeff x * 10 ^ (dexp x - m))
            (Decimal.scoeff y * 10 ^ (dexp y - m)).
Proof.
  intros Hx Hy. unfold Decimal.compare.
  set (e := Z.min (dexp x) (dexp y)).
  assert (He : m <= e) by (unfold e; lia).
  rewrite !pow10_Z by (unfold e; lia).
  replace (dexp x - m) with ((dexp x - e) + (e - m)) by lia.
  replace (dexp y - m) with ((dexp y - e) + (e - m)) by lia.
  rewrite !Z.pow_add_r by (unfold e; lia).
  rewrite !Z.mul_assoc.
  symmetry. apply mul_compare_pos. apply Z.pow_pos_nonneg; lia.
Qed.

Lemma compare_refl x : Decimal.compare x x = Eq.
Proof. unfold Decimal.compare. apply Z.compare_refl. Qed.

Lemma compare_antisym x y :
  Decimal.compare y x = CompOpp (Decimal.compare x y).
Proof.
  unfold Decimal.compare. rewrite (Z.min_comm (dexp y) (dexp x)).
  apply Z.compare_antisym.
Qed.

Lemma compare_eq_trans x y z :
  Decimal.compare x y = Eq -> Decimal.compare y z = Eq ->
  Decimal.compare x z = Eq.
Proof.
  set (m := Z.min (dexp x) (Z.min (dexp y) (dexp z))).
  rewrite (compare_scaled x y m), (compare_scaled y z m), (compare_scaled x z m)
    by (unfold m; lia).
  rewrite !Z.compare_eq_iff. congruence.
Qed.

Lemma compare_of_int a b :
  Decimal.compare (Decimal.of_int a) (Decimal.of_int b) = Z.compare a b.
Proof.
  unfold Decimal.compare, Decimal.of_int. rewrite !scoeff_of_signed. cbn.
  now rewrite !Z.mul_1_r.
Qed.

(** Between numbers, [==] is the comparison of the decimal values. *)
Lemma py_eq_numbers a b x y :
  as_decimal a = Some x -> as_decimal b = Some y ->
  py_eq a b = match Decimal.compare x y with Eq => true | _ => false end.
Proof.
  destruct a, b; cbn; try discriminate; intros [= <-] [= <-]; try reflexivity.
  rewrite compare_of_int. now destruct (Z.eqb_spec n n0) as [->|H];
    [rewrite Z.compare_refl|destruct (Z.compare_spec n n0); try reflexivity; lia].
Qed.

Lemma py_eq_kind a b :
  py_eq a b = true ->
  (a = VNone /\ b = VNone)
  \/ (exists s, a = VStr s /\ b = VStr s)
  \/ (exists x y, as_decimal a = Some x /\ as_decimal b = Some y
                  /\ Decimal.compare x y = Eq).
Proof.
  intros H. destruct a, b; cbn in H; try discriminate.
  - now left.
  - right; right. exists (Decimal.of_int n), (Decimal.of_int n0).
    rewrite compare_of_int. apply Z.eqb_eq in H. subst.
    now rewrite Z.compare_refl.
  - right; right. eexists _, _. repeat split.
    now destruct (Decimal.compare _ _).
  - right; left. apply String.eqb_eq in H. subst. now exists s0.
  - right; right. eexists _, _. repeat split.
    now destruct (Decimal.compare _ _).
  - right; right. eexists _, _. repeat split.
    now destruct (Decimal.compare _ _).
Qed.

Lemma py_eq_refl a : py_eq a a = true.
Proof.
  destruct a; cbn; [reflexivity|apply Z.eqb_refl|apply String.eqb_refl|].
  now rewrite compare_refl.
Qed.

Lemma py_eq_sym a b : py_eq a b = py_eq b a.
Proof.
  destruct a, b; cbn; try reflexivity.
  - apply Z.eqb_sym.
  - rewrite (compare_antisym (Decimal.of_int n) d). now destruct (Decimal.compare _ _).
  - apply String.eqb_sym.
  - rewrite (compare_antisym d (Decimal.of_int n)). now destruct (Decimal.compare _ _).
  - rewrite (compare_antisym d d0). now destruct (Decimal.compare _ _).
Qed.

Lemma py_eq_trans a b c :
  py_eq a b = true -> py_eq b c = true -> py_eq a c = true.
Proof.
  intros Hab Hbc.
  destruct (py_eq_kind _ _ Hab) as [[-> ->]|[(s & -> & ->)|(x & y & Hx & Hy & Hxy)]];
    [exact Hbc|exact Hbc|].
  destruct (py_eq_kind _ _ Hbc) as [[-> ->]|[(s & -> & ->)|(y' & z & Hy' & Hz & Hyz)]];
    [discriminate|discriminate|].
  rewrite Hy in Hy'. injection Hy' as <-.
  rewrite (py_eq_numbers _ _ _ _ Hx Hz).
  now rewrite (compare_eq_trans _ _ _ Hxy Hyz).
Qed.

(** Two values equal to a third count the same occurrences. *)
Lemma py_eq_congr a b c : py_eq a b = true -> py_eq c a = py_eq c b.
Proof.
  intros Hab. destruct (py_eq c a) eqn:Hca.
  - symmetry. eapply py_eq_trans; eassumption.
  - destruct (py_eq c b) eqn:Hcb; [|reflexivity].
    rewrite py_eq_sym in Hab. now rewrite (py_eq_trans _ _ _ Hcb Hab) in Hca.
Qed.

(* ===================================================================== *)
(** * The counter behind [counts()] and [mode()]                          *)
(* ===================================================================== *)

Lemma filter_length_app {A} (f : A -> bool) l1 l2 :
  length (List.filter f (l1 ++ l2))
  = (length (List.filter f l1) + length (List.filter f l2))%nat.
Proof. now rewrite List.filter_app, length_app. Qed.

Lemma filter_none {A} (f : A -> bool) l :
  Forall (fun a => f a = false) l -> List.filter f l = [].
Proof.
  induction 1 as [|a l Ha _ IH]; [reflexivity|]. cbn. now rewrite Ha.
Qed.

Lemma filter_length_pos {A} (f : A -> bool) l a :
  In a l -> f a = true -> (1 <= length (List.filter f l))%nat.
Proof.
  induction l as [|b l IH]; [contradiction|]. intros [->|Hin] Ha; cbn.
  - rewrite Ha. cbn. lia.
  - destruct (f b); cbn; [lia|now apply IH].
Qed.

Lemma filter_length_perm {A} (f : A -> bool) l l' :
  Permutation l l' -> length (List.filter f l) = length (List.filter f l').
Proof.
  induction 1 as [|a l l' _ IH|a b l|l1 l2 l3 _ IH1 _ IH2]; cbn.
  - reflexivity.
  - destruct (f a); cbn; now rewrite IH.
  - destruct (f a), (f b); reflexivity.
  - now rewrite IH1.
Qed.

Lemma filter_length_ext {A} (f g : A -> bool) l :
  (forall a, f a = g a) -> length (List.filter f l) = length (List.filter g l).
Proof.
  intros H. induction l as [|a l IH]; [reflexivity|]. cbn.
  rewrite <- H. destruct (f a); cbn; now rewrite IH.
Qed.

Lemma filter_exists {A} (f : A -> bool) l :
  (1 <= length (List.filter f l))%nat -> exists a, In a l /\ f a = true.
Proof.
  destruct (List.filter f l) as [|a l'] eqn:E; cbn; [lia|]. intros _.
  exists a. apply List.filter_In. rewrite E. now left.
Qed.

(** [counts[d] += 1] either appends a new entry or bumps the first entry
    whose key equals [d]. *)
Lemma counter_incr_spec d (c : counter) :
  (Forall (fun p => py_eq (fst p) d = false) c
   /\ counter_incr d c = c ++ [(d, 1)])
  \/ (exists c1 k n c2,
        c = c1 ++ (k, n) :: c2 /\ py_eq k d = true
        /\ Forall (fun p => py_eq (fst p) d = false) c1
        /\ counter_incr d c = c1 ++ (k, n + 1) :: c2).
Proof.
  induction c as [|[k n] c IH]; cbn.
  - left. split; [constructor|reflexivity].
  - destruct (py_eq k d) eqn:Hk.
    + right. exists [], k, n, c. repeat split; [assumption|constructor].
    + destruct IH as [[Hall ->]|(c1 & k' & n' & c2 & -> & Hk' & Hall & ->)].
      * left. split; [now constructor|reflexivity].
      * right. exists ((k, n) :: c1), k', n', c2.
        repeat split; [assumption|now constructor].
Qed.

Lemma count_values_snoc l d :
  count_values (l ++ [d]) = counter_incr d (count_values l).
Proof. unfold count_values. now rewrite fold_left_app. Qed.

Lemma count_of_snoc l d v :
  count_of (l ++ [d]) v = count_of l v + (if py_eq d v then 1 else 0).
Proof.
  unfold count_of. rewrite fold_left_app. cbn. destruct (py_eq d v); lia.
Qed.

Lemma count_of_none l v :
  (forall d, In d l -> py_eq d v = false) -> count_of l v = 0.
Proof.
  induction l as [|d l IH] using rev_ind; [reflexivity|]. intros H.
  rewrite count_of_snoc, IH, (H d).
  - reflexivity.
  - apply in_or_app. right. now left.
  - intros d' Hd'. apply H, in_or_app. now left.
Qed.

(** After counting the values of [l]: every value of [l] has exactly one
    entry, and every entry pairs a value of [l] with its number of
    occurrences. *)
Lemma count_values_inv l :
  (forall d, In d l ->
     length (List.filter (fun p => py_eq (fst p) d) (count_values l)) = 1%nat)
  /\ (forall k n, In (k, n) (count_values l) -> In k l /\ n = count_of l k).
Proof.
  induction l as [|d l [I1 I2]] using rev_ind.
  - split; [contradiction|]. cbn. contradiction.
  - rewrite count_values_snoc. set (c := count_values l) in *.
    assert (Hfresh : Forall (fun p => py_eq (fst p) d = false) c ->
                     forall d', In d' l -> py_eq d' d = false).
    { intros Hall d' Hd'. destruct (py_eq d' d) eqn:E; [|reflexivity].
      destruct (filter_exists (fun p => py_eq (fst p) d') c) as ([k n] & Hin & Hk).
      { rewrite (I1 d' Hd'). lia. }
      cbn in Hk. rewrite Forall_forall in Hall.
      apply list_elem_of_In, Hall in Hin. cbn in Hin.
      now rewrite (py_eq_trans _ _ _ Hk E) in Hin. }
    destruct (counter_incr_spec d c)
      as [[Hall ->]|(c1 & k & n & c2 & Hc & Hk & Hall & ->)].
    + split.
      * intros d' Hd'. rewrite filter_length_app. cbn.
        apply in_app_or in Hd' as [Hd'|[<-|[]]].
        -- rewrite (I1 d' Hd'). rewrite py_eq_sym, (Hfresh Hall d' Hd'). reflexivity.
        -- rewrite (filter_none _ _ Hall), py_eq_refl. reflexivity.
      * intros k n Hin. apply in_app_or in Hin as [Hin|[[= <- <-]|[]]].
        -- destruct (I2 k n Hin) as [Hk ->]. split; [apply in_or_app; now left|].
           rewrite count_of_snoc. rewrite py_eq_sym, (Hfresh Hall k Hk). lia.
        -- split; [apply in_or_app; right; now left|].
           rewrite count_of_snoc, py_eq_refl, (count_of_none l d (Hfresh Hall)).
           reflexivity.
    + assert (Hkl : In k l /\ n = count_of l k).
      { apply I2. rewrite Hc. apply in_or_app. right. now left. }
      destruct Hkl as [Hkl Hn].
      assert (Hsame : forall f : value * Z -> bool,
                (forall a b b', f (a, b) = f (a, b')) ->
                length (List.filter f (c1 ++ (k, n + 1) :: c2))
                = length (List.filter f c)).
      { intros f Hf. rewrite Hc, !filter_length_app. cbn.
        rewrite (Hf k (n + 1) n). now destruct (f (k, n)). }
      split.
      * intros d' Hd'. rewrite Hsame by reflexivity.
        apply in_app_or in Hd' as [Hd'|[<-|[]]]; [now apply I1|].
        rewrite <- (I1 k Hkl). apply filter_length_ext.
        intros [k' n']. cbn. symmetry. now apply py_eq_congr.
      * intros k' n' Hin.
        assert (Hother : py_eq k' k = true ->
                         In (k', n') c1 \/ In (k', n') c2 -> False).
        { intros Hk'k Hpos. pose proof (I1 k Hkl) as H1.
          rewrite Hc, filter_length_app in H1. cbn in H1.
          rewrite py_eq_refl in H1. cbn in H1.
          destruct Hpos as [Hpos|Hpos];
            pose proof (filter_length_pos (fun p => py_eq (fst p) k) _ _ Hpos Hk'k);
            lia. }
        assert (Hrest : In (k', n') c1 \/ In (k', n') c2 ->
                        In k' (l ++ [d]) /\ n' = count_of (l ++ [d]) k').
        { intros Hpos. assert (Hin' : In (k', n') c).
          { rewrite Hc. apply in_or_app. destruct Hpos; [now left|right; now right]. }
          destruct (I2 k' n' Hin') as [Hk' ->]. split; [apply in_or_app; now left|].
          rewrite count_of_snoc. destruct (py_eq d k') eqn:E; [|lia].
          exfalso. apply Hother; [|exact Hpos].
          rewrite py_eq_sym in E. rewrite py_eq_sym in Hk.
          exact (py_eq_trans _ _ _ E Hk). }
        apply in_app_or in Hin as [Hin|[[= <- <-]|Hin]]; [now apply Hrest; left| |now apply Hrest; right].
        split; [apply in_or_app; now left|].
        rewrite count_of_snoc, py_eq_sym, Hk, Hn. reflexivity.
Qed.

(** ** Sorting by descending count *)

Lemma insert_desc_perm {A} (x : value * A) l :
  Permutation (insert_desc x l) (x :: l).
Proof.
  induction l as [|y l IH]; cbn; [reflexivity|].
  destruct (py_lt (fst x) (fst y)); [|reflexivity].
  rewrite IH. apply perm_swap.
Qed.

Lemma sorted_desc_perm {A} (l : list (value * A)) :
  Permutation (sorted_desc l) l.
Proof.
  induction l as [|x l IH]; cbn; [reflexivity|].
  fold (sorted_desc l). rewrite insert_desc_perm. now constructor.
Qed.

(** The sort looks at the keys only: it commutes with any change of what
    the keys are attached to. *)
Lemma insert_desc_map {A B} (f : A -> B) (x : value * A) l :
  insert_desc (fst x, f (snd x)) (List.map (fun p => (fst p, f (snd p))) l)
  = List.map (fun p => (fst p, f (snd p))) (insert_desc x l).
Proof.
  induction l as [|y l IH]; cbn; [reflexivity|].
  destruct (py_lt (fst x) (fst y)); cbn; [now rewrite <- IH|reflexivity].
Qed.

Lemma sorted_desc_map {A B} (f : A -> B) (l : list (value * A)) :
  sorted_desc (List.map (fun p => (fst p, f (snd p))) l)
  = List.map (fun p => (fst p, f (snd p))) (sorted_desc l).
Proof.
  induction l as [|x l IH]; cbn; [reflexivity|].
  fold (sorted_desc l).
  fold (sorted_desc (List.map (fun p => (fst p, f (snd p))) l)).
  rewrite IH. apply insert_desc_map.
Qed.

Lemma insert_desc_sorted (i : value * Z) (l : list (value * Z)) :
  StronglySorted (fun p q => snd q <= snd p) l ->
  exists l', insert_desc (VInt (snd i), i) (List.map (fun j => (VInt (snd j), j)) l)
             = List.map (fun j => (VInt (snd j), j)) l'
             /\ Permutation l' (i :: l)
             /\ StronglySorted (fun p q => snd q <= snd p) l'.
Proof.
  induction l as [|j l IH]; intros Hs; cbn.
  - exists [i]. repeat split; [reflexivity|]. repeat constructor.
  - apply StronglySorted_inv in Hs as [Hs Hj].
    destruct (Z.ltb_spec (snd i) (snd j)) as [Hlt|Hge].
    + destruct (IH Hs) as (l' & -> & Hp & Hs').
      exists (j :: l'). repeat split.
      * rewrite Hp. apply perm_swap.
      * constructor; [exact Hs'|].
        rewrite Forall_forall. intros q Hq.
        apply list_elem_of_In in Hq.
        apply (Permutation_in _ Hp) in Hq as [<-|Hq]; [lia|].
        rewrite Forall_forall in Hj. now apply Hj, list_elem_of_In.
    + exists (i :: j :: l). repeat split; [reflexivity|].
      constructor; [now constructor|].
      constructor; [exact Hge|].
      eapply Forall_impl; [exact Hj|]. cbn. intros q Hq. lia.
Qed.

(** The rows of [counts()] are the entries of the counter, rearranged by
    descending count. *)
Lemma counts_of_sorted ord data :
  order_ok ord ->
  Permutation (counts_of ord data) (count_values data)
  /\ StronglySorted (fun p q => snd q <= snd p) (counts_of ord data).
Proof.
  intros Hord. unfold counts_of.
  assert (H : forall l : list (value * Z),
             exists l', sorted_desc (List.map (fun j => (VInt (snd j), j)) l)
                        = List.map (fun j => (VInt (snd j), j)) l'
                        /\ Permutation l' l
                        /\ StronglySorted (fun p q => snd q <= snd p) l').
  { induction l as [|i l (l' & E & Hp & Hs)]; cbn.
    - exists []. repeat split; constructor.
    - fold (sorted_desc (List.map (fun j => (VInt (snd j), j)) l)). rewrite E.
      destruct (insert_desc_sorted i l' Hs) as (l'' & -> & Hp' & Hs').
      exists l''. repeat split; [|exact Hs'].
      rewrite Hp'. now constructor. }
  destruct (H (ord (count_values data))) as (l' & -> & Hp & Hs).
  rewrite List.map_map. cbn. rewrite List.map_id.
  split; [|exact Hs]. now rewrite Hp.
Qed.

(** What [counts()] tabulates: one row for each distinct value of the
    column, with the number of its occurrences. *)
Lemma counts_of_rows ord data :
  order_ok ord ->
  (forall d, In d data ->
     length (List.filter (fun p => py_eq (fst p) d) (counts_of ord data)) = 1%nat)
  /\ (forall k n, In (k, n) (counts_of ord data) ->
        In k data /\ n = count_of data k).
Proof.
  intros Hord. destruct (counts_of_sorted ord data Hord) as [Hp _].
  destruct (count_values_inv data) as [I1 I2]. split.
  - intros d Hd. rewrite (filter_length_perm _ _ _ Hp). now apply I1.
  - intros k n Hin. apply I2. now apply (Permutation_in _ Hp).
Qed.

(* ===================================================================== *)
(** * [counts()] on the store                                             *)
(* ===================================================================== *)

Lemma col_state_unchanged h h' self t idx rows data :
  col_state h self t idx rows data -> unchanged h h' ->
  col_state h' self t idx rows data.
Proof.
  intros [(c & Hc & Ht & Hi & Hd & Hn & Hs) (rs & Hrs & Hall) Hsl] Hu.
  assert (Hcache : forall o xs, cache_holds h o xs -> cache_holds h' o xs).
  { intros [l|] xs; cbn; [apply Hu|trivial]. }
  split; [| |exact Hsl].
  - exists c. repeat split; auto.
  - exists rs. split; [now apply Hu|].
    eapply Forall2_impl; [exact Hall|]. cbn. intros r xs. apply Hu.
Qed.

Lemma unchanged_trans h1 h2 h3 :
  unchanged h1 h2 -> unchanged h2 h3 -> unchanged h1 h3.
Proof. intros H12 H23 l o H. now apply H23, H12. Qed.

Lemma unchanged_alloc h o : unchanged h (<[fresh (dom h) := o]> h).
Proof.
  intros l o' Hl. rewrite lookup_insert_ne; [exact Hl|].
  intros <-. now rewrite fresh_lookup in Hl.
Qed.

(** Building a list of new objects. *)
Lemma traverse_alloc {A} (f : A -> obj) (items : list A) : forall h,
  exists h' locs,
    traverse (fun i => alloc (f i)) items h = (h', Ok locs)
    /\ Forall2 (fun l i => h' !! l = Some (f i)) locs items
    /\ unchanged h h'.
Proof.
  induction items as [|i items IH]; intros h; cbn [traverse].
  - exists h, []. repeat split; [constructor|apply unchanged_refl].
  - set (l := fresh (dom h)). set (h1 := <[l := f i]> h).
    destruct (IH h1) as (h' & locs & E & Hall & Hu).
    exists h', (l :: locs). split; [|split].
    + assert (E0 : alloc (f i) h = (h1, Ok l)) by reflexivity.
      now rewrite (bind_ok _ _ _ _ _ E0), (bind_ok _ _ _ _ _ E).
    + constructor; [|exact Hall]. apply Hu. apply lookup_insert_eq.
    + eapply unchanged_trans; [apply unchanged_alloc|exact Hu].
Qed.

Lemma table_rows_of h t rs rows :
  h !! Table._data t = Some (ORows rs) ->
  Forall2 (fun r xs => h !! r = Some (OValues xs)) rs rows ->
  table_rows h t = Some rows.
Proof.
  intros Hrs Hall. unfold table_rows. rewrite Hrs. clear Hrs.
  induction Hall as [|r xs rs rows Hr _ IH]; cbn; [reflexivity|].
  now rewrite Hr, IH.
Qed.

Lemma Forall2_read_values h rs rows :
  Forall2 (fun r xs => h !! r = Some (OValues xs)) rs rows ->
  traverse read_values rs h = (h, Ok rows).
Proof.
  intros H. apply traverse_pure. eapply Forall2_impl; [exact H|].
  cbn. intros r xs. apply read_values_ok.
Qed.

Lemma fork_ok h data ct cn rs rows types names :
  h !! data = Some (ORows rs) ->
  Forall2 (fun r xs => h !! r = Some (OValues xs)) rs rows ->
  h !! ct = Some (OTypes types) ->
  h !! cn = Some (ONames names) ->
  lengths_aligned rows types names = true ->
  _fork data ct cn h = (h, Ok (Table.Make data ct cn)).
Proof.
  intros Hd Hrows Ht Hn Hal. unfold _fork.
  rewrite (bind_ok _ _ _ _ _ (read_rows_ok _ _ _ Hd)).
  rewrite (bind_ok _ _ _ _ _ (Forall2_read_values _ _ _ Hrows)).
  rewrite (bind_ok _ _ _ _ _ (read_types_ok _ _ _ Ht)).
  rewrite (bind_ok _ _ _ _ _ (read_names_ok _ _ _ Hn)).
  now rewrite Hal.
Qed.

(** Reading back the rows just built, each with its count as key. *)
Lemma keyed_rows (h : heap) (locs : list loc) (items : list (value * Z)) :
  Forall2 (fun l i => h !! l = Some (OValues [fst i; VInt (snd i)])) locs items ->
  traverse (fun r => xs <- read_values r ;;
                     k <- lift (py_index xs 1) ;;
                     ret (k, r)) locs h
  = (h, Ok (List.map (fun p => (VInt (snd (snd p)), fst p)) (combine locs items))).
Proof.
  intros H. apply traverse_pure.
  induction H as [|l i locs items Hl _ IH]; cbn; constructor; [|exact IH].
  now rewrite (bind_ok _ _ _ _ _ (read_values_ok _ _ _ Hl)).
Qed.

Lemma Forall2_combine {A B} (P : A -> B -> Prop) l1 l2 :
  Forall2 P l1 l2 -> Forall (fun p => P (fst p) (snd p)) (combine l1 l2).
Proof. induction 1; cbn; constructor; assumption. Qed.

Lemma Forall2_map_both {A B C} (P : A -> B -> Prop) (f : C -> A) (g : C -> B) l :
  Forall (fun c => P (f c) (g c)) l -> Forall2 P (List.map f l) (List.map g l).
Proof. induction 1; cbn; constructor; assumption. Qed.

Lemma combine_map_snd {A B} (P : A -> B -> Prop) (l1 : list A) (l2 : list B) :
  Forall2 P l1 l2 -> List.map snd (combine l1 l2) = l2.
Proof. induction 1; cbn; congruence. Qed.

(** The rows handed to [_fork], in the order they are handed over, are the
    rows [counts_of] describes. *)
Lemma sorted_rows ord data (h : heap) (locs : list loc) :
  Forall2 (fun l i => h !! l = Some (OValues [fst i; VInt (snd i)]))
          locs (ord (count_values data)) ->
  Forall2 (fun l i => h !! l = Some (OValues [fst i; VInt (snd i)]))
    (List.map snd (sorted_desc
       (List.map (fun p => (VInt (snd (snd p)), fst p))
                 (combine locs (ord (count_values data))))))
    (counts_of ord data).
Proof.
  intros H. unfold counts_of.
  set (items := ord (count_values data)) in *.
  set (z := combine locs items).
  set (K := List.map (fun p : loc * (value * Z) => (VInt (snd (snd p)), p)) z).
  assert (E1 : List.map (fun p : loc * (value * Z) => (VInt (snd (snd p)), fst p)) z
               = List.map (fun q => (fst q, fst (snd q))) K).
  { unfold K. rewrite List.map_map. reflexivity. }
  assert (E2 : List.map (fun i : value * Z => (VInt (snd i), i)) items
               = List.map (fun q => (fst q, snd (snd q))) K).
  { unfold K. rewrite List.map_map. cbn.
    rewrite <- (combine_map_snd _ _ _ H) at 1. fold z.
    rewrite List.map_map. reflexivity. }
  rewrite E1, E2, !sorted_desc_map, !List.map_map. cbn.
  apply Forall2_map_both.
  assert (HK : Forall (fun q : value * (loc * (value * Z)) =>
                 h !! fst (snd q)
                 = Some (OValues [fst (snd (snd q)); VInt (snd (snd (snd q)))])) K).
  { unfold K. apply Forall_map. cbn. apply (Forall2_combine _ _ _ H). }
  rewrite Forall_forall in HK. rewrite Forall_forall. intros q Hq.
  apply HK. apply list_elem_of_In. apply list_elem_of_In in Hq.
  exact (Permutation_in _ (sorted_desc_perm K) Hq).
Qed.

(** [counts()] returns a new table: named after the column and "count",
    typed as the column and [IntColumn], with the rows of [counts_of]. *)
Lemma counts_spec ord h self t idx rows data names types name ty :
  col_state h self t idx rows data ->
  h !! Table._column_names t = Some (ONames names) ->
  h !! Table._column_types t = Some (OTypes types) ->
  py_index names idx = Ok name ->
  py_index types idx = Ok ty ->
  exists h' t',
    Column.counts ord self h = (h', Ok t')
    /\ h' !! Table._column_names t' = Some (ONames [name; "count"%string])
    /\ h' !! Table._column_types t' = Some (OTypes [ty; class_IntColumn])
    /\ table_rows h' t'
       = Some (List.map (fun p => [fst p; VInt (snd p)]) (counts_of ord data))
    /\ col_state h' self t idx rows data
    /\ frame self h h'.
Proof.
  intros Hcs Hnames Htypes Hname Hty.
  destruct (col_state_lookup _ _ _ _ _ _ Hcs) as [c0 Hc0].
  destruct (_data_spec _ _ _ _ _ _ Hcs) as (h1 & d & E1 & Hd1 & Hcs1 & Hf1).
  pose proof Hcs1 as [(c & Hc & Ht & Hi & _) _ _].
  assert (Hnames1 : h1 !! Table._column_names t = Some (ONames names)).
  { apply Hf1; [congruence|exact Hnames]. }
  assert (Htypes1 : h1 !! Table._column_types t = Some (OTypes types)).
  { apply Hf1; [congruence|exact Htypes]. }
  unfold Column.counts.
  rewrite (bind_ok _ _ _ _ _ E1).
  rewrite (bind_ok _ _ _ _ _ (read_values_ok _ _ _ Hd1)).
  rewrite (bind_ok _ _ _ _ _ (read_column_ok _ _ _ Hc)).
  rewrite Ht, Hi.
  rewrite (bind_ok _ _ _ _ _ (read_names_ok _ _ _ Hnames1)).
  unfold lift at 1. rewrite Hname. unfold bind at 1.
  set (cn := fresh (dom h1)). set (h2 := <[cn := ONames [name; "count"%string]]> h1).
  assert (Ecn : alloc (ONames [name; "count"%string]) h1 = (h2, Ok cn)) by reflexivity.
  rewrite (bind_ok _ _ _ _ _ Ecn).
  assert (Hu12 : unchanged h1 h2) by apply unchanged_alloc.
  rewrite (bind_ok _ _ _ _ _ (read_types_ok _ _ _ (Hu12 _ _ Htypes1))).
  unfold lift at 1. rewrite Hty. unfold bind at 1.
  set (ct := fresh (dom h2)). set (h3 := <[ct := OTypes [ty; class_IntColumn]]> h2).
  assert (Ect : alloc (OTypes [ty; class_IntColumn]) h2 = (h3, Ok ct)) by reflexivity.
  rewrite (bind_ok _ _ _ _ _ Ect).
  assert (Hu23 : unchanged h2 h3) by apply unchanged_alloc.
  destruct (traverse_alloc (fun i : value * Z => OValues [fst i; VInt (snd i)])
              (ord (count_values data)) h3) as (h4 & locs & E4 & Hlocs & Hu34).
  rewrite (bind_ok _ _ _ _ _ E4).
  rewrite (bind_ok _ _ _ _ _ (keyed_rows _ _ _ Hlocs)).
  set (srt := List.map snd (sorted_desc _)).
  set (rw := fresh (dom h4)). set (h5 := <[rw := ORows srt]> h4).
  assert (Erw : alloc (ORows srt) h4 = (h5, Ok rw)) by reflexivity.
  rewrite (bind_ok _ _ _ _ _ Erw).
  assert (Hu45 : unchanged h4 h5) by apply unchanged_alloc.
  assert (Hcn5 : h5 !! cn = Some (ONames [name; "count"%string])).
  { apply Hu45, Hu34, Hu23. apply lookup_insert_eq. }
  assert (Hct5 : h5 !! ct = Some (OTypes [ty; class_IntColumn])).
  { apply Hu45, Hu34. apply lookup_insert_eq. }
  assert (Hrw5 : h5 !! rw = Some (ORows srt)) by apply lookup_insert_eq.
  assert (Hrows5 : Forall2 (fun r xs => h5 !! r = Some (OValues xs)) srt
            (List.map (fun p => [fst p; VInt (snd p)]) (counts_of ord data))).
  { pose proof (sorted_rows ord data h4 locs Hlocs) as Hs. fold srt in Hs.
    apply Forall2_fmap_r. eapply Forall2_impl; [exact Hs|].
    cbn. intros l i Hl. now apply Hu45. }
  exists h5, (Table.Make rw ct cn). split.
  { eapply fork_ok; try eassumption. unfold lengths_aligned. cbn.
    apply forallb_forall. intros r Hr. apply in_map_iff in Hr as (p & <- & _).
    reflexivity. }
  split; [exact Hcn5|]. split; [exact Hct5|].
  split; [now apply (table_rows_of _ _ srt)|].
  assert (Hu15 : unchanged h1 h5).
  { repeat (eapply unchanged_trans; [eassumption|]). apply unchanged_refl. }
  split; [now apply (col_state_unchanged h1)|].
  eapply frame_trans; [exact Hf1|now apply unchanged_frame].
Qed.

(* ===================================================================== *)
(** * Statistics of a numeric column without nulls                        *)
(* ===================================================================== *)

Lemma fix_dneg d : dneg (Decimal.fix_ d) = dneg d.
Proof.
  unfold Decimal.fix_. destruct (dcoeff d =? 0)%N; [reflexivity|].
  destruct (_ <=? Decimal.prec); [reflexivity|].
  cbv zeta. now destruct (_ =? Decimal.pow10 Decimal.prec)%N.
Qed.

Lemma scoeff_nonneg d : dneg d = false -> 0 <= Decimal.scoeff d.
Proof. unfold Decimal.scoeff. intros ->. lia. Qed.

Lemma add_nonneg x y :
  dneg x = false -> dneg y = false -> dneg (Decimal.add x y) = false.
Proof.
  intros Hx Hy. unfold Decimal.add.
  pose proof (scoeff_nonneg x Hx). pose proof (scoeff_nonneg y Hy).
  set (s := _ + _).
  assert (0 <= s) by (unfold s; lia).
  destruct (Z.eqb_spec s 0).
  - cbn. rewrite Hx. now rewrite andb_false_r.
  - rewrite fix_dneg. cbn. apply Z.ltb_ge. lia.
Qed.

Lemma sqr_nonneg x : dneg (Decimal.sqr x) = false.
Proof.
  unfold Decimal.sqr. destruct (Decimal.is_zero x); [reflexivity|].
  now rewrite fix_dneg.
Qed.

Lemma of_int_nonneg n : 0 <= n -> dneg (Decimal.of_int n) = false.
Proof. intros H. cbn. apply Z.ltb_ge. lia. Qed.

Lemma of_int_not_zero n : n <> 0 -> Decimal.is_zero (Decimal.of_int n) = false.
Proof.
  intros H. unfold Decimal.is_zero. cbn. apply N.eqb_neq. lia.
Qed.

(** Dividing by a positive integer never fails and keeps the sign. *)
Lemma div_by_positive x n :
  0 < n ->
  exists d, Decimal.div x (Decimal.of_int n) = Ok d /\ dneg d = dneg x.
Proof.
  intros Hn. unfold Decimal.div.
  rewrite (of_int_not_zero n) by lia.
  assert (Hs : xorb (dneg x) (dneg (Decimal.of_int n)) = dneg x).
  { rewrite (of_int_nonneg n) by lia. apply xorb_false_r. }
  rewrite Hs. destruct (Decimal.is_zero x).
  - eexists. split; [reflexivity|]. now rewrite fix_dneg.
  - cbv zeta. destruct (negb _).
    + eexists. split; [reflexivity|]. now rewrite fix_dneg.
    + destruct (Decimal.strip_zeros _ _ _ _) as [c e].
      eexists. split; [reflexivity|]. now rewrite fix_dneg.
Qed.

Lemma sqrt_nonneg x :
  dneg x = false -> exists d, Decimal.sqrt x = Ok d.
Proof.
  intros Hx. unfold Decimal.sqrt. rewrite Hx.
  destruct (Decimal.is_zero x); [eauto|].
  cbv zeta. destruct (_ && _); eauto.
Qed.

Lemma number_as_decimal v :
  is_number v = true -> exists x, as_decimal v = Some x.
Proof. destruct v; cbn; try discriminate; eauto. Qed.

Lemma py_add_numbers a b :
  is_number a = true -> is_number b = true ->
  exists c, py_add a b = Ok c /\ is_number c = true.
Proof. destruct a, b; cbn; try discriminate; eauto. Qed.

Lemma py_sum_from_numbers l : forall acc,
  is_number acc = true -> Forall (fun v => is_number v = true) l ->
  exists s, py_sum_from acc l = Ok s /\ is_number s = true.
Proof.
  induction l as [|x l IH]; intros acc Hacc Hl; cbn; [eauto|].
  inversion Hl as [|? ? Hx Hl']; subst.
  destruct (py_add_numbers acc x Hacc Hx) as (c & -> & Hc). cbn.
  now apply IH.
Qed.

Lemma py_Decimal_number v :
  is_number v = true -> exists d, py_Decimal v = Ok d.
Proof. destruct v; cbn; try discriminate; eauto. Qed.

Lemma py_div_Decimal_positive x n :
  0 < n ->
  exists d, py_div (VDec x) (VInt n) = Ok (VDec d) /\ dneg d = dneg x.
Proof.
  intros Hn. cbn. destruct (div_by_positive x n Hn) as (d & -> & Hd).
  cbn. eauto.
Qed.

(** Without nulls, the slice with nulls removed is the slice. *)
Lemma without_nulls_id data :
  existsb is_none data = false -> without_nulls data = data.
Proof.
  unfold without_nulls. induction data as [|v data IH]; cbn; [reflexivity|].
  intros H. apply orb_false_elim in H as [Hv H]. rewrite Hv. cbn.
  now rewrite IH.
Qed.

Lemma numeric_no_nulls data :
  numeric data -> existsb is_none data = false ->
  Forall (fun v => is_number v = true) data.
Proof.
  unfold numeric. induction 1 as [|v data Hv _ IH]; cbn; [constructor|].
  intros H. apply orb_false_elim in H as [Hn H]. constructor; [|now apply IH].
  destruct Hv as [Hv| ->]; [exact Hv|discriminate].
Qed.

Lemma mean_of_numbers data :
  Forall (fun v => is_number v = true) data -> data <> [] ->
  existsb is_none data = false ->
  exists m, mean_of data = Ok (VDec m).
Proof.
  intros Hnum Hne Hnn. unfold mean_of, guard_nulls. rewrite Hnn.
  rewrite (without_nulls_id _ Hnn).
  destruct (py_sum_from_numbers data (VInt 0) eq_refl Hnum) as (s & Hs & Hsn).
  unfold py_sum. rewrite Hs. cbn [result_bind].
  destruct (py_Decimal_number s Hsn) as (d & ->). cbn [result_bind].
  destruct (py_div_Decimal_positive d (Z.of_nat (length data))) as (m & -> & _).
  - destruct data; [congruence|cbn; lia].
  - eauto.
Qed.

Lemma py_sub_number_Decimal n m :
  is_number n = true -> exists d, py_sub n (VDec m) = Ok (VDec d).
Proof. destruct n; cbn; try discriminate; eauto. Qed.

(** The sum of squared deviations is a non-negative [Decimal] as soon as it
    has one term. *)
Lemma ssd_of_numbers m l : forall acc,
  Forall (fun v => is_number v = true) l ->
  (acc = VInt 0 \/ exists a, acc = VDec a /\ dneg a = false) ->
  exists s, ssd_of (Ok (VDec m)) acc l = Ok s
            /\ (l = [] /\ s = acc \/ exists a, s = VDec a /\ dneg a = false).
Proof.
  induction l as [|n l IH]; intros acc Hl Hacc; cbn [ssd_of].
  - exists acc. split; [reflexivity|]. now left.
  - inversion Hl as [|? ? Hn Hl']; subst. cbn [result_bind].
    destruct (py_sub_number_Decimal n m Hn) as (dev & ->). cbn [result_bind py_square].
    assert (Hadd : exists a, py_add acc (VDec (Decimal.sqr dev)) = Ok (VDec a)
                             /\ dneg a = false).
    { destruct Hacc as [->|(a & -> & Ha)]; cbn; eexists; (split; [reflexivity|]);
        apply add_nonneg; auto using sqr_nonneg. }
    destruct Hadd as (a & -> & Ha). cbn [result_bind].
    destruct (IH (VDec a) Hl') as (s & -> & Hs); [right; eauto|].
    exists s. split; [reflexivity|]. right.
    destruct Hs as [[_ ->]|Hs]; eauto.
Qed.

Lemma variance_of_numbers data :
  Forall (fun v => is_number v = true) data -> data <> [] ->
  existsb is_none data = false ->
  exists v, variance_of data = Ok (VDec v) /\ dneg v = false.
Proof.
  intros Hnum Hne Hnn. unfold variance_of, guard_nulls. rewrite Hnn.
  destruct (mean_of_numbers data Hnum Hne Hnn) as (m & ->).
  destruct (ssd_of_numbers m data (VInt 0) Hnum (or_introl eq_refl))
    as (s & -> & [[-> _]|(a & -> & Ha)]); [congruence|].
  cbn [result_bind].
  destruct (py_div_Decimal_positive a (Z.of_nat (length data))) as (v & -> & Hv).
  - destruct data; [congruence|cbn; lia].
  - exists v. split; congruence.
Qed.

Lemma stdev_of_numbers data :
  Forall (fun v => is_number v = true) data -> data <> [] ->
  existsb is_none data = false ->
  exists v, stdev_of data = Ok (VDec v).
Proof.
  intros Hnum Hne Hnn. unfold stdev_of, guard_nulls. rewrite Hnn.
  destruct (variance_of_numbers data Hnum Hne Hnn) as (v & -> & Hv).
  cbn [result_bind]. destruct (sqrt_nonneg v Hv) as (d & ->). cbn. eauto.
Qed.

(** ** The order of numbers and [sorted] *)

Lemma py_lt_numbers a b x y :
  as_decimal a = Some x -> as_decimal b = Some y ->
  py_lt a b = match Decimal.compare x y with Lt => true | _ => false end.
Proof.
  destruct a, b; cbn; try discriminate; intros [= <-] [= <-]; try reflexivity.
  rewrite compare_of_int.
  destruct (Z.ltb_spec n n0), (Z.compare_spec n n0); try reflexivity; lia.
Qed.

Lemma py_lt_asym a b :
  is_number a = true -> is_number b = true ->
  py_lt a b = true -> py_lt b a = false.
Proof.
  intros Ha Hb.
  destruct (number_as_decimal a Ha) as [x Hx], (number_as_decimal b Hb) as [y Hy].
  rewrite (py_lt_numbers a b x y Hx Hy), (py_lt_numbers b a y x Hy Hx).
  rewrite (compare_antisym x y). now destruct (Decimal.compare x y).
Qed.

Lemma py_le_trans a b c :
  is_number a = true -> is_number b = true -> is_number c = true ->
  py_lt b a = false -> py_lt c b = false -> py_lt c a = false.
Proof.
  intros Ha Hb Hc.
  destruct (number_as_decimal a Ha) as [x Hx], (number_as_decimal b Hb) as [y Hy],
           (number_as_decimal c Hc) as [z Hz].
  rewrite (py_lt_numbers b a y x Hy Hx), (py_lt_numbers c b z y Hz Hy),
          (py_lt_numbers c a z x Hz Hx).
  set (m := Z.min (dexp x) (Z.min (dexp y) (dexp z))).
  rewrite (compare_scaled y x m), (compare_scaled z y m), (compare_scaled z x m)
    by (unfold m; lia).
  set (X := Decimal.scoeff x * _). set (Y := Decimal.scoeff y * _).
  set (W := Decimal.scoeff z * _).
  destruct (Z.compare_spec Y X), (Z.compare_spec W Y), (Z.compare_spec W X);
    try reflexivity; try discriminate; lia.
Qed.

Lemma insert_sorted_perm x l : Permutation (insert_sorted x l) (x :: l).
Proof.
  induction l as [|y l IH]; cbn; [reflexivity|].
  destruct (py_lt y x); [|reflexivity]. rewrite IH. apply perm_swap.
Qed.

Lemma py_sorted_perm l : Permutation (py_sorted l) l.
Proof.
  induction l as [|x l IH]; cbn; [reflexivity|].
  fold (py_sorted l). rewrite insert_sorted_perm. now constructor.
Qed.

Lemma py_sorted_length l : length (py_sorted l) = length l.
Proof. apply Permutation_length, py_sorted_perm. Qed.

Lemma py_sorted_numbers l :
  Forall (fun v => is_number v = true) l ->
  Forall (fun v => is_number v = true) (py_sorted l).
Proof.
  intros H. rewrite Forall_forall in *. intros v Hv. apply H.
  apply list_elem_of_In. apply list_elem_of_In in Hv.
  exact (Permutation_in _ (py_sorted_perm l) Hv).
Qed.

Lemma insert_sorted_sorted x l :
  is_number x = true -> Forall (fun v => is_number v = true) l ->
  StronglySorted (fun a b => py_lt b a = false) l ->
  StronglySorted (fun a b => py_lt b a = false) (insert_sorted x l).
Proof.
  intros Hx. induction l as [|y l IH]; intros Hl Hs; cbn.
  - repeat constructor.
  - inversion Hl as [|? ? Hy Hl']; subst.
    apply StronglySorted_inv in Hs as [Hs Hyl].
    destruct (py_lt y x) eqn:E.
    + constructor; [now apply IH|].
      rewrite Forall_forall. intros b Hb. apply list_elem_of_In in Hb.
      apply (Permutation_in _ (insert_sorted_perm x l)) in Hb as [<-|Hb].
      * now apply py_lt_asym.
      * rewrite Forall_forall in Hyl. now apply Hyl, list_elem_of_In.
    + constructor; [now constructor|].
      constructor; [exact E|].
      rewrite Forall_forall in Hyl, Hl'. rewrite Forall_forall. intros b Hb.
      apply (py_le_trans x y b); auto.
Qed.

(** [sorted] puts numbers in ascending order. *)
Lemma py_sorted_sorted l :
  Forall (fun v => is_number v = true) l ->
  StronglySorted (fun a b => py_lt b a = false) (py_sorted l).
Proof.
  induction 1 as [|x l Hx Hl IH]; cbn; [constructor|].
  fold (py_sorted l). apply insert_sorted_sorted; auto using py_sorted_numbers.
Qed.

Lemma py_index_in_range {A} (l : list A) j :
  0 <= j < Z.of_nat (length l) ->
  exists x, py_index l j = Ok x /\ l !! Z.to_nat j = Some x.
Proof.
  intros Hj. unfold py_index.
  destruct (Z.ltb_spec j 0); [lia|].
  destruct (Z.leb_spec 0 j); [|lia].
  destruct (Z.ltb_spec j (Z.of_nat (length l))); [|lia]. cbn.
  destruct (l !! Z.to_nat j) as [x|] eqn:E; [eauto|].
  apply lookup_ge_None in E. lia.
Qed.

Lemma lookup_number (l : list value) i x :
  Forall (fun v => is_number v = true) l -> l !! i = Some x ->
  is_number x = true.
Proof.
  intros H Hx. rewrite Forall_forall in H. apply H.
  apply list_elem_of_lookup. eauto.
Qed.

Lemma median_of_numbers data :
  Forall (fun v => is_number v = true) data -> data <> [] ->
  existsb is_none data = false ->
  exists v, median_of data = Ok v /\ is_number v = true.
Proof.
  intros Hnum Hne Hnn. unfold median_of, guard_nulls. rewrite Hnn. cbv zeta.
  pose proof (py_sorted_numbers data Hnum) as Hsn.
  assert (Hlen : 0 < Z.of_nat (length (py_sorted data))).
  { rewrite py_sorted_length. destruct data; [congruence|cbn; lia]. }
  set (n := Z.of_nat (length (py_sorted data))) in *.
  destruct (Z.eqb_spec (n mod 2) 1) as [Hodd|Heven].
  - destruct (py_index_in_range (py_sorted data) ((n + 1) / 2 - 1)) as (x & -> & Hx).
    + fold n. split; [|apply Z.lt_sub_lt_add_r];
        [apply Z.le_0_sub, Z.div_le_lower_bound; lia|apply Z.div_lt_upper_bound; lia].
    + exists x. split; [reflexivity|]. eapply lookup_number; eassumption.
  - assert (Hmod : n mod 2 = 0) by (pose proof (Z.mod_pos_bound n 2); lia).
    assert (Hn2 : n = 2 * (n / 2)) by (pose proof (Z.div_mod n 2); lia).
    destruct (py_index_in_range (py_sorted data) (n / 2 - 1)) as (a & -> & Ha);
      [fold n; lia|].
    destruct (py_index_in_range (py_sorted data) (n / 2)) as (b & -> & Hb);
      [fold n; lia|].
    cbn [result_bind].
    destruct (py_add_numbers a b) as (ab & -> & Hab);
      [eapply lookup_number; eassumption|eapply lookup_number; eassumption|].
    cbn [result_bind]. destruct (py_Decimal_number ab Hab) as (d & ->).
    cbn [result_bind].
    destruct (py_div_Decimal_positive d 2) as (m & -> & _); [lia|].
    exists (VDec m). split; reflexivity.
Qed.

Lemma counter_incr_nonempty d c : counter_incr d c <> [].
Proof. destruct c as [|[k n] c]; cbn; [discriminate|]. now destruct (py_eq k d). Qed.

Lemma count_values_nonempty data : data <> [] -> count_values data <> [].
Proof.
  intros H. destruct (exists_last H) as (l & d & ->).
  unfold count_values. rewrite fold_left_app. cbn. apply counter_incr_nonempty.
Qed.

Lemma mode_of_numbers ord data :
  order_ok ord -> data <> [] -> existsb is_none data = false ->
  exists v, mode_of ord data = Ok v.
Proof.
  intros Hord Hne Hnn. unfold mode_of, guard_nulls. rewrite Hnn. cbv zeta.
  pose proof (count_values_nonempty data Hne) as Hc.
  destruct (ord (count_values data)) as [|p l] eqn:E.
  - exfalso. apply Hc. apply Permutation_nil. rewrite <- E. apply Hord.
  - cbn. eauto.
Qed.

(* ===================================================================== *)
(** * When a [Decimal] quotient is exact                                  *)
(* ===================================================================== *)

Lemma ndigits_fuel_pos fuel n : 1 <= Decimal.ndigits_fuel fuel n.
Proof.
  revert n. induction fuel as [|fuel IH]; intros n; cbn; [lia|].
  destruct (n <? 10)%N; [lia|]. specialize (IH (n / 10)%N). lia.
Qed.

Lemma log2_div10 n : (10 <= n)%N -> (N.succ (N.log2 (n / 10)) <= N.log2 n)%N.
Proof.
  intros Hn.
  assert (Hq : (0 < n / 10)%N) by (apply N.div_str_pos; lia).
  rewrite <- N.log2_double by exact Hq.
  apply N.log2_le_mono.
  pose proof (N.Div0.mul_div_le n 10). lia.
Qed.

Lemma ndigits_fuel_spec fuel : forall n : N,
  (N.log2 n <= N.of_nat fuel)%N -> (0 < n)%N ->
  10 ^ (Decimal.ndigits_fuel fuel n - 1) <= Z.of_N n
  < 10 ^ Decimal.ndigits_fuel fuel n.
Proof.
  induction fuel as [|fuel IH]; intros n Hlog Hn.
  - cbn. assert (n = 1%N).
    { destruct (N.eq_dec n 1%N) as [|Hne]; [assumption|].
      assert (H2 : (2 <= n)%N) by lia.
      apply N.log2_le_mono in H2. cbn in H2. lia. }
    subst. cbn. lia.
  - cbn [Decimal.ndigits_fuel]. destruct (N.ltb_spec n 10%N) as [Hlt|Hge].
    + cbn. lia.
    + pose proof (log2_div10 n Hge) as Hl.
      assert (Hq : (0 < n / 10)%N) by (apply N.div_str_pos; lia).
      destruct (IH (n / 10)%N) as [Hlo Hhi]; [lia|exact Hq|].
      pose proof (ndigits_fuel_pos fuel (n / 10)%N) as Hd.
      set (d := Decimal.ndigits_fuel fuel (n / 10)%N) in *.
      replace (1 + d - 1) with (Z.succ (d - 1)) by lia.
      replace (1 + d) with (Z.succ d) by lia.
      rewrite !Z.pow_succ_r by lia.
      rewrite N2Z.inj_div in Hlo, Hhi. change (Z.of_N 10) with 10 in *.
      pose proof (Z.div_mod (Z.of_N n) 10 ltac:(lia)).
      pose proof (Z.mod_pos_bound (Z.of_N n) 10 ltac:(lia)).
      lia.
Qed.

(** [len(str(n))] is the number of decimal digits of [n]. *)
Lemma ndigits_spec n :
  (0 < n)%N ->
  10 ^ (Decimal.ndigits n - 1) <= Z.of_N n < 10 ^ Decimal.ndigits n.
Proof.
  intros Hn. apply ndigits_fuel_spec; [|exact Hn]. rewrite N2Nat.id. apply N.le_refl.
Qed.

Lemma ndigits_pos n : 1 <= Decimal.ndigits n.
Proof. apply ndigits_fuel_pos. Qed.

Lemma ndigits_le n k : Z.of_N n < 10 ^ k -> 1 <= k -> Decimal.ndigits n <= k.
Proof.
  intros Hn Hk. destruct (N.eq_dec n 0%N) as [->|Hne].
  - exact Hk.
  - destruct (ndigits_spec n) as [Hlo _]; [lia|].
    pose proof (ndigits_pos n).
    destruct (Z.le_gt_cases (Decimal.ndigits n) k) as [|Hgt]; [assumption|].
    assert (10 ^ k <= 10 ^ (Decimal.ndigits n - 1)) by (apply Z.pow_le_mono_r; lia).
    lia.
Qed.

(** A coefficient that fits the precision is left alone by [_fix]. *)
Lemma fix_small d :
  Z.of_N (dcoeff d) < 10 ^ Decimal.prec -> Decimal.fix_ d = d.
Proof.
  intros H. unfold Decimal.fix_. destruct (dcoeff d =? 0)%N; [reflexivity|].
  pose proof (ndigits_le (dcoeff d) Decimal.prec H ltac:(unfold Decimal.prec; lia)).
  destruct (Z.leb_spec (Decimal.ndigits (dcoeff d)) Decimal.prec); [reflexivity|lia].
Qed.

(** The loop that strips trailing zeros keeps the value, never passes the
    ideal exponent and never grows the coefficient. *)
Lemma strip_zeros_spec fuel : forall c e ideal,
  e <= ideal ->
  let '(c', e') := Decimal.strip_zeros fuel c e ideal in
  e <= e' <= ideal /\ Z.of_N c = Z.of_N c' * 10 ^ (e' - e).
Proof.
  induction fuel as [|fuel IH]; intros c e ideal He; cbn.
  - rewrite Z.sub_diag. cbn. lia.
  - destruct (Z.ltb_spec e ideal) as [Hlt|Hge]; cbn.
    + destruct (N.eqb_spec (c mod 10)%N 0%N) as [Hmod|Hmod].
      * specialize (IH (c / 10)%N (e + 1) ideal ltac:(lia)).
        destruct (Decimal.strip_zeros fuel (c / 10) (e + 1) ideal) as [c' e'].
        destruct IH as [He' Hv]. split; [lia|].
        replace (e' - e) with (Z.succ (e' - (e + 1))) by lia.
        rewrite Z.pow_succ_r by lia.
        rewrite N2Z.inj_div in Hv. change (Z.of_N 10) with 10 in Hv.
        assert (Hm : Z.of_N c mod 10 = 0).
        { change 10 with (Z.of_N 10). rewrite <- N2Z.inj_mod. now rewrite Hmod. }
        pose proof (Z.div_mod (Z.of_N c) 10 ltac:(lia)). lia.
      * rewrite Z.sub_diag. cbn. lia.
    + rewrite Z.sub_diag. cbn. lia.
Qed.

(** With enough fuel, [j] trailing zeros below the ideal exponent go. *)
Lemma strip_zeros_pow (j : nat) : forall fuel c e ideal,
  e + Z.of_nat j <= ideal ->
  Decimal.strip_zeros (j + fuel) (c * 10 ^ N.of_nat j)%N e ideal
  = Decimal.strip_zeros fuel c (e + Z.of_nat j) ideal.
Proof.
  induction j as [|j IH]; intros fuel c e ideal He.
  - cbn [Nat.add]. change (N.of_nat 0) with 0%N. rewrite N.pow_0_r, N.mul_1_r.
    now rewrite Z.add_0_r.
  - cbn [Nat.add Decimal.strip_zeros].
    assert (Hc : (c * 10 ^ N.of_nat (S j) = (c * 10 ^ N.of_nat j) * 10)%N).
    { rewrite Nat2N.inj_succ, N.pow_succ_r'. lia. }
    rewrite Hc.
    destruct (Z.ltb_spec e ideal) as [_|]; [|lia].
    rewrite N.Div0.mod_mul. cbn [andb N.eqb].
    rewrite N.div_mul by lia.
    rewrite IH by lia. f_equal. lia.
Qed.

Lemma pow10_split j k :
  0 <= j -> 0 <= k ->
  Decimal.pow10 (j + k) = (10 ^ N.of_nat (Z.to_nat j) * Decimal.pow10 k)%N.
Proof.
  intros Hj Hk. unfold Decimal.pow10. rewrite <- N.pow_add_r. f_equal. lia.
Qed.

(** An integer quotient with a terminating expansion of at most 28 digits
    is computed exactly: [s / n = q / 10^k] with [|q| < 10^28]. *)
Lemma div_exact s n q k :
  0 < n -> 0 <= k -> s * 10 ^ k = q * n -> Z.abs q < 10 ^ Decimal.prec ->
  exists r, Decimal.div (Decimal.of_int s) (Decimal.of_int n) = Ok r
            /\ exact_quotient r s n.
Proof.
  intros Hn Hk Hq Hq28. unfold Decimal.div.
  rewrite (of_int_not_zero n) by lia.
  assert (Hsign : xorb (dneg (Decimal.of_int s)) (dneg (Decimal.of_int n))
                  = (s <? 0)).
  { rewrite (of_int_nonneg n) by lia. apply xorb_false_r. }
  rewrite Hsign. clear Hsign.
  destruct (Z.eq_dec s 0) as [->|Hs].
  { exists (Dec false 0 0). split; [reflexivity|]. unfold exact_quotient. cbn. lia. }
  assert (Hnz : Decimal.is_zero (Decimal.of_int s) = false)
    by now apply of_int_not_zero.
  rewrite Hnz. cbn [dexp dcoeff Decimal.of_int Decimal.of_signed].
  set (a := Z.abs_N s). set (b := Z.abs_N n).
  assert (Ha : Z.of_N a = Z.abs s) by apply N2Z.inj_abs_N.
  assert (Hb : Z.of_N b = n) by (unfold b; rewrite N2Z.inj_abs_N; lia).
  pose proof (Z.pow_pos_nonneg 10 k ltac:(lia) Hk) as H10k.
  assert (Habs : Z.abs s * 10 ^ k = Z.abs q * n).
  { assert (H : Z.abs (s * 10 ^ k) = Z.abs (q * n)) by congruence.
    rewrite !Z.abs_mul in H.
    rewrite (Z.abs_eq (10 ^ k)), (Z.abs_eq n) in H by lia. exact H. }
  destruct (ndigits_spec a) as [Hla _]; [lia|].
  destruct (ndigits_spec b) as [_ Hlb]; [lia|].
  pose proof (ndigits_pos a) as Hpa. pose proof (ndigits_pos b) as Hpb.
  set (La := Decimal.ndigits a) in *. set (Lb := Decimal.ndigits b) in *.
  set (shift := Lb - La + Decimal.prec + 1).
  assert (Hshift : k < shift).
  { assert (H1 : 10 ^ (La - 1) * 10 ^ k < 10 ^ Decimal.prec * 10 ^ Lb).
    { assert (Z.abs s * 10 ^ k < 10 ^ Decimal.prec * 10 ^ Lb) by nia. nia. }
    rewrite <- !Z.pow_add_r in H1 by (unfold Decimal.prec; lia).
    apply (Z.pow_lt_mono_r_iff 10) in H1; [|lia|unfold Decimal.prec; lia].
    unfold shift. lia. }
  replace (0 - 0 - shift) with (- shift) by lia.
  replace (0 - 0 - - shift) with shift by lia.
  destruct (Z.leb_spec 0 shift) as [_|]; [|lia].
  set (Q := Z.abs_N q).
  assert (HQ : Z.of_N Q = Z.abs q) by apply N2Z.inj_abs_N.
  set (j := shift - k).
  assert (Hnum : (a * Decimal.pow10 shift
                  = (Q * 10 ^ N.of_nat (Z.to_nat j)) * b)%N).
  { replace shift with (j + k) by (unfold j; lia).
    rewrite pow10_split by (unfold j; lia).
    assert (HN : (a * Decimal.pow10 k = Q * b)%N).
    { apply N2Z.inj. rewrite !N2Z.inj_mul, pow10_Z, Ha, Hb, HQ by lia.
      exact Habs. }
    transitivity (10 ^ N.of_nat (Z.to_nat j) * (a * Decimal.pow10 k))%N;
      [ring|rewrite HN; ring]. }
  rewrite Hnum.
  rewrite N.div_mul by lia. rewrite N.Div0.mod_mul. cbn [N.eqb negb].
  replace (Z.to_nat shift) with (Z.to_nat j + Z.to_nat k)%nat by (unfold j; lia).
  rewrite strip_zeros_pow by (unfold j; lia).
  replace (- shift + Z.of_nat (Z.to_nat j)) with (- k) by (unfold j; lia).
  change (0 - 0) with 0.
  pose proof (strip_zeros_spec (Z.to_nat k) Q (- k) 0 ltac:(lia)) as Hstrip.
  destruct (Decimal.strip_zeros (Z.to_nat k) Q (- k) 0) as [c' e'].
  destruct Hstrip as [He' Hv].
  pose proof (Z.pow_pos_nonneg 10 (e' - - k) ltac:(lia) ltac:(lia)) as Hp.
  assert (Hc' : Z.of_N c' < 10 ^ Decimal.prec) by nia.
  cbv beta iota. rewrite fix_small by exact Hc'.
  eexists. split; [reflexivity|].
  unfold exact_quotient, Decimal.scoeff. cbn [dneg dcoeff dexp].
  rewrite Z.max_l, Z.max_r by lia. rewrite Z.pow_0_r, Z.mul_1_r.
  assert (Hk' : 10 ^ k = 10 ^ (- e') * 10 ^ (e' - - k)).
  { rewrite <- Z.pow_add_r by lia. f_equal. lia. }
  assert (Hmain : Z.abs s * 10 ^ (- e') = Z.of_N c' * n).
  { apply (Z.mul_reg_r _ _ (10 ^ (e' - - k))); [lia|].
    rewrite <- Z.mul_assoc, <- Hk', Habs, <- HQ, Hv. ring. }
  destruct (Z.ltb_spec s 0); lia.
Qed.

(* ===================================================================== *)
(** * No call on a column breaks its invariant                            *)
(* ===================================================================== *)

Section Preservation.
Context (self : loc) (t : Table.t) (idx : Z)
        (rows : list (list value)) (data : list value).

Lemma returns_preserves {A} (m : M A) h r :
  returns m h r self t idx rows data ->
  col_state (fst (m h)) self t idx rows data.
Proof. intros (h' & E & Hcs & _). now rewrite E. Qed.

Lemma traverse_lift_store {A B} (f : A -> result B) xs (h : heap) :
  fst (traverse (fun d => lift (f d)) xs h) = h.
Proof.
  induction xs as [|x xs IH]; cbn [traverse]; [reflexivity|].
  unfold bind, lift at 1. destruct (f x) as [b|e]; [|reflexivity].
  destruct (traverse _ xs h) as [h' [bs|e]] eqn:E; cbn in *; exact IH.
Qed.

Lemma forM_check_store {A} (bad : A -> bool) (e : A -> exn) xs (h : heap) :
  fst (forM_ xs (fun d => if bad d then raise (e d) else ret tt) h) = h.
Proof.
  induction xs as [|x xs IH]; cbn [forM_]; [reflexivity|].
  unfold bind. destruct (bad x); cbn; [reflexivity|exact IH].
Qed.

(** A method that reads the slice and then computes without writing. *)
Lemma data_then_preserves {A} (k : list value -> M A) h :
  (forall xs h0, fst (k xs h0) = h0) ->
  col_state h self t idx rows data ->
  col_state (fst ((d <- Column._data self ;; xs <- read_values d ;; k xs) h))
            self t idx rows data.
Proof.
  intros Hk Hcs.
  destruct (_data_spec _ _ _ _ _ _ Hcs) as (h1 & d & E1 & Hd1 & Hcs1 & _).
  rewrite (bind_ok _ _ _ _ _ E1).
  rewrite (bind_ok _ _ _ _ _ (read_values_ok _ _ _ Hd1)).
  now rewrite Hk.
Qed.

Lemma keeps_traverse {A B} h0 (f : A -> M B) l : forall h1,
  (forall a h2, unchanged h0 h2 -> keeps h0 (f a) h2 (fun _ _ => True)) ->
  unchanged h0 h1 ->
  keeps h0 (traverse f l) h1 (fun _ _ => True).
Proof.
  induction l as [|a l IH]; intros h1 Hf Hu; cbn [traverse].
  - now apply keeps_ret.
  - eapply keeps_bind; [now apply Hf|]. intros h2 b Hu2 _.
    eapply keeps_bind; [now apply IH|]. intros h3 bs Hu3 _.
    now apply keeps_ret.
Qed.

Lemma keeps_trivial {A} h0 (m : M A) h1 Q :
  keeps h0 m h1 Q -> keeps h0 m h1 (fun _ _ => True).
Proof. intros H. eapply keeps_weaken; [exact H|]. trivial. Qed.

(** Once the slice is read, [counts()] only creates objects. *)
Lemma counts_preserves ord h :
  col_state h self t idx rows data ->
  col_state (fst (Column.counts ord self h)) self t idx rows data.
Proof.
  intros Hcs. unfold Column.counts.
  destruct (_data_spec _ _ _ _ _ _ Hcs) as (h1 & d & E1 & Hd1 & Hcs1 & _).
  rewrite (bind_ok _ _ _ _ _ E1).
  rewrite (bind_ok _ _ _ _ _ (read_values_ok _ _ _ Hd1)).
  apply (col_state_unchanged h1); [exact Hcs1|].
  match goal with |- unchanged h1 (fst (?m h1)) =>
    assert (Hk : keeps h1 m h1 (fun _ _ => True)); [|exact (proj1 Hk)] end.
  pose proof (unchanged_refl h1) as Hu.
  eapply keeps_bind; [now apply keeps_read_column|]. intros h2 c _ [-> _].
  eapply keeps_bind; [now apply keeps_read_names|]. intros h3 ns _ [-> _].
  eapply keeps_bind; [now apply keeps_lift|]. intros h4 name _ [-> _].
  eapply keeps_bind; [now apply keeps_alloc|]. intros h5 cn Hu5 _.
  eapply keeps_bind; [now apply keeps_read_types|]. intros h6 ts _ [-> _].
  eapply keeps_bind; [now apply keeps_lift|]. intros h7 ty _ [-> _].
  eapply keeps_bind; [now apply keeps_alloc|]. intros h8 ct Hu8 _.
  eapply keeps_bind.
  { apply keeps_traverse; [|exact Hu8]. intros a h9 Hu9.
    eapply keeps_trivial. now apply keeps_alloc. }
  intros h9 locs Hu9 _.
  eapply keeps_bind.
  { apply keeps_traverse; [|exact Hu9]. intros r h10 Hu10.
    eapply keeps_bind; [now apply keeps_read_values|]. intros h11 xs _ [-> _].
    eapply keeps_bind; [now apply keeps_lift|]. intros h12 k _ [-> _].
    now apply keeps_ret. }
  intros h10 keyed Hu10 _.
  eapply keeps_bind; [now apply keeps_alloc|]. intros h11 rw Hu11 _.
  eapply keeps_trivial. now apply keeps_fork.
Qed.

Lemma map_preserves func ty name h :
  col_state h self t idx rows data ->
  col_state (fst (Column.map self func ty name h)) self t idx rows data.
Proof.
  intros Hcs. apply (col_state_unchanged h); [exact Hcs|].
  exact (proj1 (map_keeps h self func ty name)).
Qed.

Lemma validate_preserves cls h :
  col_state h self t idx rows data ->
  col_state (fst (validate_of_class cls self h)) self t idx rows data.
Proof.
  intros Hcs. destruct cls; cbn [validate_of_class]; try exact Hcs;
    apply data_then_preserves; try exact Hcs; intros xs h0;
    apply (forM_check_store _ (fun d => ColumnValidationError d self)).
Qed.

Lemma cast_preserves cls h :
  col_state h self t idx rows data ->
  col_state (fst (cast_of_class cls self h)) self t idx rows data.
Proof.
  intros Hcs. destruct cls; cbn [cast_of_class]; try exact Hcs;
    apply data_then_preserves; try exact Hcs; intros xs h0;
    [reflexivity|apply traverse_lift_store..].
Qed.

Lemma ne_preserves other h :
  col_state h self t idx rows data ->
  col_state (fst (Column.__ne__ self other h)) self t idx rows data.
Proof.
  intros Hcs. destruct (eq_returns _ _ _ _ _ _ other Hcs) as (h' & E & Hcs' & _).
  unfold Column.__ne__. now rewrite (bind_ok _ _ _ _ _ E).
Qed.

Lemma any_preserves func h :
  col_state h self t idx rows data ->
  col_state (fst (Column.any self func h)) self t idx rows data.
Proof.
  apply data_then_preserves. intros xs h0. unfold bind.
  pose proof (traverse_lift_store func xs h0) as H.
  now destruct (traverse _ xs h0) as [h' [bs|e]].
Qed.

Lemma all_preserves func h :
  col_state h self t idx rows data ->
  col_state (fst (Column.all self func h)) self t idx rows data.
Proof.
  apply data_then_preserves. intros xs h0. unfold bind.
  pose proof (traverse_lift_store func xs h0) as H.
  now destruct (traverse _ xs h0) as [h' [bs|e]].
Qed.

Lemma view_preserves (view : loc -> M loc) (xs : list value) h :
  (exists h' l, view self h = (h', Ok l) /\ h' !! l = Some (OValues xs)
     /\ col_state h' self t idx rows data /\ frame self h h') ->
  col_state (fst (view self h)) self t idx rows data.
Proof. intros (h' & l & E & _ & Hcs & _). now rewrite E. Qed.

(** Whatever is called on the column, and whatever it returns or raises,
    the column still satisfies its invariant. *)
Lemma run_call_preserves ord c h :
  col_state h self t idx rows data ->
  col_state (run_call ord self c h) self t idx rows data.
Proof.
  intros Hcs. destruct c; cbn [run_call].
  - eapply view_preserves, _data_spec, Hcs.
  - eapply view_preserves, _data_without_nulls_spec, Hcs.
  - eapply view_preserves, _data_sorted_spec, Hcs.
  - eapply returns_preserves, getitem_returns, Hcs.
  - eapply returns_preserves, len_returns, Hcs.
  - eapply returns_preserves, eq_returns, Hcs.
  - now apply ne_preserves.
  - eapply returns_preserves, has_nulls_returns, Hcs.
  - now apply any_preserves.
  - now apply all_preserves.
  - now apply map_preserves.
  - eapply returns_preserves, count_returns, Hcs.
  - now apply counts_preserves.
  - now apply validate_preserves.
  - now apply cast_preserves.
  - eapply returns_preserves, sum_returns, Hcs.
  - eapply returns_preserves, min_returns, Hcs.
  - eapply returns_preserves, max_returns, Hcs.
  - eapply returns_preserves, mean_returns, Hcs.
  - eapply returns_preserves, median_returns, Hcs.
  - eapply returns_preserves, mode_returns, Hcs.
  - eapply returns_preserves, variance_returns, Hcs.
  - eapply returns_preserves, stdev_returns, Hcs.
Qed.

Lemma run_calls_preserves ord cs : forall h,
  col_state h self t idx rows data ->
  col_state (run_calls ord self cs h) self t idx rows data.
Proof.
  induction cs as [|c cs IH]; intros h Hcs; [exact Hcs|].
  apply IH. now apply run_call_preserves.
Qed.

End Preservation.

(** A new column satisfies the invariant: its caches are unset. *)
Lemma init_col_state h t idx rows data :
  rows_at h t rows -> is_slice rows idx data ->
  exists h' self, Column.__init__ t idx h = (h', Ok self)
    /\ col_state h' self t idx rows data
    /\ unchanged h h'.
Proof.
  intros (rs & Hrs & Hall) Hsl. eexists _, _. split; [reflexivity|].
  pose proof (unchanged_alloc h (OColumn (MkColumn t idx None None None))) as Hu.
  split; [|exact Hu]. split; [| |exact Hsl].
  - eexists. split; [apply lookup_insert_eq|]. cbn. auto.
  - exists rs. split; [now apply Hu|].
    eapply Forall2_impl; [exact Hall|]. cbn. intros r xs. apply Hu.
Qed.

(** What the invariant says about the table: the slice is its cells. *)
Lemma col_state_cell h self t idx rows data j v :
  col_state h self t idx rows data ->
  data !! j = Some v -> table_cell h t j idx = Some v.
Proof.
  intros [_ (rs & Hrs & Hall) Hsl] Hj. unfold table_cell. rewrite Hrs.
  destruct (Forall2_lookup_r _ _ _ _ _ Hsl Hj) as (xs & Hxs & Hv).
  destruct (Forall2_lookup_r _ _ _ _ _ Hall Hxs) as (r & Hr & Hrx).
  now rewrite Hr, Hrx, Hv.
Qed.

(* ===================================================================== *)
(** * What [map] returns                                                  *)
(* ===================================================================== *)

(** Copying distinct rows: as many new rows, distinct, with the same
    contents. *)
Lemma deepcopy_rows_distinct rs : forall rows memo (h1 : heap),
  List.NoDup rs ->
  Forall2 (fun r xs => h1 !! r = Some (OValues xs)) rs rows ->
  Forall (fun p : loc * loc => ~ In (fst p) rs) memo ->
  exists h2 rs',
    deepcopy_rows memo rs h1 = (h2, Ok rs')
    /\ Forall2 (fun r' xs => h2 !! r' = Some (OValues xs)) rs' rows
    /\ List.NoDup rs'
    /\ Forall (fun r' => h1 !! r' = None) rs'
    /\ unchanged h1 h2.
Proof.
  induction rs as [|r rs IH]; intros rows memo h1 Hnd Hall Hmemo.
  - inversion Hall; subst. exists h1, []. cbn.
    repeat split; constructor || apply unchanged_refl.
  - inversion Hall as [|? xs ? rows' Hr Hall']; subst.
    apply List.NoDup_cons_iff in Hnd as [Hnotin Hnd].
    cbn [deepcopy_rows].
    destruct (List.find (fun p => Nat.eqb (fst p) r) memo) as [p|] eqn:Hfind.
    { exfalso. apply find_some in Hfind as [Hin Heq]. apply Nat.eqb_eq in Heq.
      rewrite Forall_forall in Hmemo. apply list_elem_of_In, Hmemo in Hin.
      apply Hin. left. symmetry. exact Heq. }
    rewrite (bind_ok _ _ _ _ _ (read_values_ok _ _ _ Hr)).
    set (r' := fresh (dom h1)). set (h1' := <[r' := OValues xs]> h1).
    assert (E0 : alloc (OValues xs) h1 = (h1', Ok r')) by reflexivity.
    rewrite (bind_ok _ _ _ _ _ E0).
    pose proof (unchanged_alloc h1 (OValues xs)) as Hu. fold r' h1' in Hu.
    destruct (IH rows' ((r, r') :: memo) h1') as (h2 & rs' & E & Hc & Hnd' & Hfr & Hu2).
    + exact Hnd.
    + eapply Forall2_impl; [exact Hall'|]. cbn. intros r0 ys. apply Hu.
    + constructor; [exact Hnotin|].
      eapply Forall_impl; [exact Hmemo|]. cbn. intros p Hp Hin. apply Hp. now right.
    + rewrite (bind_ok _ _ _ _ _ E).
      exists h2, (r' :: rs'). split; [reflexivity|].
      assert (Hr'2 : h2 !! r' = Some (OValues xs))
        by (apply Hu2; apply lookup_insert_eq).
      split; [constructor; assumption|].
      split.
      { constructor; [|exact Hnd']. intros Hin.
        rewrite Forall_forall in Hfr. apply list_elem_of_In, Hfr in Hin.
        unfold h1' in Hin. now rewrite lookup_insert_eq in Hin. }
      split.
      { constructor; [apply fresh_lookup|].
        eapply Forall_impl; [exact Hfr|]. cbn. intros l Hl.
        destruct (h1 !! l) as [o|] eqn:El; [|reflexivity].
        apply Hu in El. congruence. }
      eapply unchanged_trans; eassumption.
Qed.

(** The loop of [map] over distinct rows replaces the slot in each. *)
Lemma map_loop_spec (func : value -> result value) idx rs : forall rows rows' (h : heap),
  List.NoDup rs ->
  Forall2 (fun r xs => h !! r = Some (OValues xs)) rs rows ->
  Forall2 (fun xs xs' => exists x y, py_index xs idx = Ok x /\ func x = Ok y
                                     /\ py_setitem xs idx y = Ok xs') rows rows' ->
  exists h',
    forM_ rs (fun row =>
       xs <- read_values row ;;
       x <- lift (py_index xs idx) ;;
       y <- lift (func x) ;;
       xs' <- lift (py_setitem xs idx y) ;;
       store row (OValues xs')) h = (h', Ok tt)
    /\ Forall2 (fun r xs' => h' !! r = Some (OValues xs')) rs rows'
    /\ (forall l, ~ In l rs -> h' !! l = h !! l).
Proof.
  induction rs as [|r rs IH]; intros rows rows' h Hnd Hall Hstep.
  - inversion Hall; subst. inversion Hstep; subst.
    exists h. repeat split; constructor.
  - inversion Hall as [|? xs ? rows0 Hr Hall']; subst.
    inversion Hstep as [|? xs' ? rows0' (x & y & Hx & Hy & Hset) Hstep']; subst.
    apply List.NoDup_cons_iff in Hnd as [Hnotin Hnd].
    cbn [forM_].
    set (h1 := <[r := OValues xs']> h).
    assert (E1 : (xs <- read_values r ;;
                  x <- lift (py_index xs idx) ;;
                  y <- lift (func x) ;;
                  xs' <- lift (py_setitem xs idx y) ;;
                  store r (OValues xs')) h = (h1, Ok tt)).
    { rewrite (bind_ok _ _ _ _ _ (read_values_ok _ _ _ Hr)).
      unfold bind, lift. now rewrite Hx, Hy, Hset. }
    rewrite (bind_ok _ _ _ _ _ E1).
    destruct (IH rows0 rows0' h1 Hnd) as (h' & E & Hc & Hrest).
    + rewrite Forall2_lookup in Hall'. apply Forall2_lookup. intros i.
      specialize (Hall' i). destruct (rs !! i) as [r0|] eqn:Ei;
        inversion Hall'; subst; constructor.
      unfold h1. rewrite lookup_insert_ne; [assumption|].
      intros <-. apply Hnotin. apply list_elem_of_In.
      apply list_elem_of_lookup. eauto.
    + exact Hstep'.
    + exists h'. split; [exact E|]. split.
      * constructor; [|exact Hc]. rewrite Hrest by exact Hnotin.
        apply lookup_insert_eq.
      * intros l Hl. rewrite Hrest by (intros Hin; apply Hl; now right).
        unfold h1. apply lookup_insert_ne. intros <-. apply Hl. now left.
Qed.

Lemma lookup_fresh_ne (h : heap) l o : h !! l = Some o -> l <> fresh (dom h).
Proof. intros H ->. now rewrite fresh_lookup in H. Qed.

(** [map] on a table with distinct rows: the table returned has the rows of
    the original with the slot of the column replaced by the image of its
    value, the types and names of the original with those of the slot
    replaced when new ones are given. *)
Lemma map_returns h self c func new_column_type new_column_name
    rs rows rows' types names types' names' :
  h !! self = Some (OColumn c) ->
  h !! Table._data (_table c) = Some (ORows rs) ->
  List.NoDup rs ->
  Forall2 (fun r xs => h !! r = Some (OValues xs)) rs rows ->
  h !! Table._column_types (_table c) = Some (OTypes types) ->
  h !! Table._column_names (_table c) = Some (ONames names) ->
  Forall2 (fun xs xs' => exists x y, py_index xs (_index c) = Ok x /\ func x = Ok y
                                     /\ py_setitem xs (_index c) y = Ok xs')
          rows rows' ->
  match new_column_type with
  | Some ty => py_setitem types (_index c) ty
  | None => Ok types
  end = Ok types' ->
  match new_column_name with
  | Some name => if String.eqb name "" then Ok names
                 else py_setitem names (_index c) name
  | None => Ok names
  end = Ok names' ->
  lengths_aligned rows' types' names' = true ->
  exists h' t',
    Column.map self func new_column_type new_column_name h = (h', Ok t')
    /\ table_rows h' t' = Some rows'
    /\ h' !! Table._column_types t' = Some (OTypes types')
    /\ h' !! Table._column_names t' = Some (ONames names').
Proof.
  intros Hself Hdata Hnd Hrows Htypes Hnames Hstep Hty Hname Haligned.
  unfold Column.map.
  rewrite (bind_ok _ _ _ _ _ (read_column_ok _ _ _ Hself)).
  (* the copy of the rows *)
  set (y := fresh (dom h)). set (h1 := <[y := ORows []]> h).
  pose proof (unchanged_alloc h (ORows [])) as Hu1. fold y h1 in Hu1.
  destruct (deepcopy_rows_distinct rs rows [] h1 Hnd) as
    (h2 & rs' & Ecopy & Hc2 & Hnd' & Hfr & Hu2).
  { eapply Forall2_impl; [exact Hrows|]. cbn. intros r xs. apply Hu1. }
  { constructor. }
  assert (Hy1 : h1 !! y = Some (ORows [])) by apply lookup_insert_eq.
  assert (Hy_notin : ~ In y rs').
  { intros Hin. rewrite Forall_forall in Hfr.
    apply list_elem_of_In, Hfr in Hin. congruence. }
  set (h3 := <[y := ORows rs']> h2).
  assert (Edata : deepcopy_data (Table._data (_table c)) h = (h3, Ok y)).
  { unfold deepcopy_data.
    rewrite (bind_ok _ _ _ _ _ (read_rows_ok _ _ _ Hdata)).
    assert (E0 : alloc (ORows []) h = (h1, Ok y)) by reflexivity.
    rewrite (bind_ok _ _ _ _ _ E0), (bind_ok _ _ _ _ _ Ecopy). reflexivity. }
  rewrite (bind_ok _ _ _ _ _ Edata).
  assert (Hother3 : forall l o, h !! l = Some o -> h3 !! l = Some o).
  { intros l o Hl. unfold h3. rewrite lookup_insert_ne.
    - now apply Hu2, Hu1.
    - intros <-. unfold y in Hl. now rewrite fresh_lookup in Hl. }
  (* the copies of the types and of the names *)
  set (ct := fresh (dom h3)). set (h4 := <[ct := OTypes types]> h3).
  assert (Etypes : deepcopy_types (Table._column_types (_table c)) h3 = (h4, Ok ct)).
  { unfold deepcopy_types.
    now rewrite (bind_ok _ _ _ _ _ (read_types_ok _ _ _ (Hother3 _ _ Htypes))). }
  rewrite (bind_ok _ _ _ _ _ Etypes).
  pose proof (unchanged_alloc h3 (OTypes types)) as Hu4. fold ct h4 in Hu4.
  set (cn := fresh (dom h4)). set (h5 := <[cn := ONames names]> h4).
  assert (Enames : deepcopy_names (Table._column_names (_table c)) h4 = (h5, Ok cn)).
  { unfold deepcopy_names.
    now rewrite (bind_ok _ _ _ _ _ (read_names_ok _ _ _ (Hu4 _ _ (Hother3 _ _ Hnames)))). }
  rewrite (bind_ok _ _ _ _ _ Enames).
  pose proof (unchanged_alloc h4 (ONames names)) as Hu5. fold cn h5 in Hu5.
  assert (Hy5 : h5 !! y = Some (ORows rs')).
  { apply Hu5, Hu4. apply lookup_insert_eq. }
  assert (Hct5 : h5 !! ct = Some (OTypes types)).
  { apply Hu5. apply lookup_insert_eq. }
  assert (Hcn5 : h5 !! cn = Some (ONames names)) by apply lookup_insert_eq.
  assert (Hc5 : Forall2 (fun r' xs => h5 !! r' = Some (OValues xs)) rs' rows).
  { eapply Forall2_impl; [exact Hc2|]. cbn. intros r' xs Hr'.
    apply Hu5, Hu4. unfold h3. rewrite lookup_insert_ne; [exact Hr'|].
    intros <-. apply Hu2 in Hy1. congruence. }
  rewrite (bind_ok _ _ _ _ _ (read_rows_ok _ _ _ Hy5)).
  (* the loop *)
  destruct (map_loop_spec func (_index c) rs' rows rows' h5 Hnd' Hc5 Hstep)
    as (h6 & Eloop & Hc6 & Hrest6).
  rewrite (bind_ok _ _ _ _ _ Eloop).
  assert (Hnotin : forall l o, h5 !! l = Some o ->
                    (forall xs, o <> OValues xs) -> ~ In l rs').
  { intros l o Hl Ho Hin. apply list_elem_of_In in Hin.
    apply list_elem_of_lookup in Hin as [i Hi].
    destruct (Forall2_lookup_l _ _ _ _ _ Hc5 Hi) as (xs & _ & Hxs).
    rewrite Hl in Hxs. injection Hxs as ->. now apply (Ho xs). }
  assert (Hy6 : h6 !! y = Some (ORows rs')).
  { rewrite Hrest6; [exact Hy5|]. now apply (Hnotin _ _ Hy5). }
  assert (Hct6 : h6 !! ct = Some (OTypes types)).
  { rewrite Hrest6; [exact Hct5|]. now apply (Hnotin _ _ Hct5). }
  assert (Hcn6 : h6 !! cn = Some (ONames names)).
  { rewrite Hrest6; [exact Hcn5|]. now apply (Hnotin _ _ Hcn5). }
  (* the new type *)
  set (h7 := match new_column_type with
             | Some _ => <[ct := OTypes types']> h6
             | None => h6
             end).
  assert (Ety : match new_column_type with
                | Some ty =>
                    ts <- read_types ct ;;
                    ts' <- lift (py_setitem ts (_index c) ty) ;;
                    store ct (OTypes ts')
                | None => ret tt
                end h6 = (h7, Ok tt)).
  { unfold h7. destruct new_column_type as [ty|]; [|reflexivity].
    rewrite (bind_ok _ _ _ _ _ (read_types_ok _ _ _ Hct6)).
    unfold bind, lift. now rewrite Hty. }
  rewrite (bind_ok _ _ _ _ _ Ety).
  assert (Hct7 : h7 !! ct = Some (OTypes types')).
  { unfold h7. destruct new_column_type; [apply lookup_insert_eq|].
    injection Hty as <-. exact Hct6. }
  assert (Hkeep7 : forall l o, l <> ct -> h6 !! l = Some o -> h7 !! l = Some o).
  { intros l o Hl Ho. unfold h7. destruct new_column_type; [|exact Ho].
    now rewrite lookup_insert_ne. }
  assert (Hcn_ct : cn <> ct).
  { intros E. rewrite E in Hcn5. congruence. }
  assert (Hcn7 : h7 !! cn = Some (ONames names)) by now apply Hkeep7.
  (* the new name *)
  set (renamed := match new_column_name with
                  | Some name => negb (String.eqb name "")
                  | None => false
                  end).
  set (h8 := if renamed then <[cn := ONames names']> h7 else h7).
  assert (Enm : match new_column_name with
                | Some name =>
                    if String.eqb name "" then ret tt
                    else
                      ns <- read_names cn ;;
                      ns' <- lift (py_setitem ns (_index c) name) ;;
                      store cn (ONames ns')
                | None => ret tt
                end h7 = (h8, Ok tt)).
  { unfold h8, renamed. destruct new_column_name as [name|]; [|reflexivity].
    destruct (String.eqb name ""); [reflexivity|]. cbn [negb].
    rewrite (bind_ok _ _ _ _ _ (read_names_ok _ _ _ Hcn7)).
    unfold bind, lift. now rewrite Hname. }
  rewrite (bind_ok _ _ _ _ _ Enm).
  assert (Hcn8 : h8 !! cn = Some (ONames names')).
  { unfold h8, renamed. destruct new_column_name as [name|].
    - destruct (String.eqb name ""); cbn [negb]; [|apply lookup_insert_eq].
      injection Hname as <-. exact Hcn7.
    - injection Hname as <-. exact Hcn7. }
  assert (Hkeep8 : forall l o, l <> cn -> h7 !! l = Some o -> h8 !! l = Some o).
  { intros l o Hl Ho. unfold h8. destruct renamed; [|exact Ho].
    now rewrite lookup_insert_ne. }
  assert (Hkeep : forall l o, l <> ct -> l <> cn -> h6 !! l = Some o ->
                              h8 !! l = Some o).
  { intros l o H1 H2 Ho. now apply Hkeep8, Hkeep7. }
  assert (Hy8 : h8 !! y = Some (ORows rs')).
  { apply Hkeep; [| |exact Hy6]; intros E; rewrite E in Hy5; congruence. }
  assert (Hct8 : h8 !! ct = Some (OTypes types')) by now apply Hkeep8.
  assert (Hc8 : Forall2 (fun r' xs' => h8 !! r' = Some (OValues xs')) rs' rows').
  { apply Forall2_lookup. intros i.
    pose proof (proj1 (Forall2_lookup _ _ _) Hc6 i) as H6.
    pose proof (proj1 (Forall2_lookup _ _ _) Hc5 i) as H5.
    destruct (rs' !! i) as [r'|]; inversion H6; inversion H5; subst; constructor.
    apply Hkeep; [| |assumption]; intros E; subst r'; congruence. }
  exists h8, (Table.Make y ct cn). split.
  { eapply fork_ok; eassumption. }
  split; [now apply (table_rows_of _ _ rs')|]. split; assumption.
Qed.

(* ===================================================================== *)
(** * The properties of the specification                                 *)
(* ===================================================================== *)

(** The invariant of a column of an example table, by evaluation. *)
Ltac example_state :=
  split;
  [ eexists; split; [vm_compute; reflexivity|cbn; repeat split]
  | eexists; split; [vm_compute; reflexivity|repeat constructor]
  | repeat constructor ].

Lemma cell_of_slice h t idx rows data j v :
  rows_at h t rows -> is_slice rows idx data ->
  data !! j = Some v -> table_cell h t j idx = Some v.
Proof.
  intros (rs & Hrs & Hall) Hsl Hj. unfold table_cell. rewrite Hrs.
  destruct (Forall2_lookup_r _ _ _ _ _ Hsl Hj) as (xs & Hxs & Hv).
  destruct (Forall2_lookup_r _ _ _ _ _ Hall Hxs) as (r & Hr & Hrx).
  now rewrite Hr, Hrx, Hv.
Qed.

(** C1. View consistency: for a column created over a table whose rows all
    have the slot, and after any sequence of calls on that column, [at(j)]
    for a valid row position [j] returns the cell [T.rows[j][slot]] -- the
    cell the table held when the column was created and still holds. *)
Theorem C1_view_consistency ord h t idx rows data h0 self cs j :
  rows_at h t rows -> is_slice rows idx data ->
  Column.__init__ t idx h = (h0, Ok self) ->
  0 <= j < Z.of_nat (length rows) ->
  let h1 := run_calls ord self cs h0 in
  exists h2 v,
    Column.__getitem__ self j h1 = (h2, Ok v)
    /\ table_cell h t (Z.to_nat j) idx = Some v
    /\ table_cell h1 t (Z.to_nat j) idx = Some v
    /\ table_cell h2 t (Z.to_nat j) idx = Some v.
Proof.
  intros Hrows Hsl Hinit Hj h1.
  destruct (init_col_state h t idx rows data Hrows Hsl)
    as (h0' & self' & E & Hcs0 & _).
  rewrite Hinit in E. injection E as <- <-.
  pose proof (run_calls_preserves self t idx rows data ord cs h0 Hcs0) as Hcs1.
  fold h1 in Hcs1.
  destruct (getitem_returns _ _ _ _ _ _ j Hcs1) as (h2 & E2 & Hcs2 & _).
  assert (Hlen : length rows = length data) by exact (Forall2_length _ _ _ Hsl).
  destruct (py_index_in_range data j) as (v & Hv & Hlook); [lia|].
  exists h2, v. rewrite E2, Hv. split; [reflexivity|].
  split; [now apply (cell_of_slice h t idx rows data)|].
  split; eapply col_state_cell; eassumption.
Qed.

Lemma C1_view_consistency_witness :
  let col := [VInt 7; VNone; VInt 9] in
  let h := fst (example_table col) in
  let t := snd (example_table col) in
  let h0 := fst (example_column col) in
  let self := snd (example_column col) in
  let h1 := run_calls id self
              [Call_sum; Call_map (fun v => py_add v (VInt 1)) None None;
               Call_counts; Call_median] h0 in
  exists h2 v,
    Column.__getitem__ self 2 h1 = (h2, Ok v)
    /\ table_cell h t 2 1 = Some v
    /\ table_cell h1 t 2 1 = Some v
    /\ table_cell h2 t 2 1 = Some v.
Proof.
  intros col h t h0 self h1.
  apply (C1_view_consistency id h t 1
           [[VStr "r"; VInt 7]; [VStr "r"; VNone]; [VStr "r"; VInt 9]]
           col h0 self _ 2).
  - eexists. split; [vm_compute; reflexivity|repeat constructor].
  - repeat constructor.
  - reflexivity.
  - cbn. lia.
Defined.

(** C2. [map] never writes to an object that existed before the call --
    the rows of the original table, its list of column types, its list of
    column names, the column object and its cached slices are all unchanged,
    whether [map] returns or raises -- and the table it returns is made of
    new objects only: new lists of rows, types and names, and new rows.  On a
    table of distinct rows these new objects are the copy of the original
    state with the slot of the column replaced, in every row, by the image
    of its value, and with the type and the name of the slot replaced when
    new ones are given. *)
Theorem C2_map_leaves_original_unchanged h self func new_column_type new_column_name :
  let res := Column.map self func new_column_type new_column_name h in
  unchanged h (fst res)
  /\ (forall t', snd res = Ok t' ->
       h !! Table._data t' = None
       /\ h !! Table._column_types t' = None
       /\ h !! Table._column_names t' = None
       /\ exists rs', fst res !! Table._data t' = Some (ORows rs')
                      /\ Forall (fun r' => h !! r' = None) rs')
  /\ (forall c rs rows rows' types names types' names',
       h !! self = Some (OColumn c) ->
       h !! Table._data (_table c) = Some (ORows rs) ->
       List.NoDup rs ->
       Forall2 (fun r xs => h !! r = Some (OValues xs)) rs rows ->
       h !! Table._column_types (_table c) = Some (OTypes types) ->
       h !! Table._column_names (_table c) = Some (ONames names) ->
       Forall2 (fun xs xs' =>
                  exists x y, py_index xs (_index c) = Ok x /\ func x = Ok y
                              /\ py_setitem xs (_index c) y = Ok xs')
               rows rows' ->
       match new_column_type with
       | Some ty => py_setitem types (_index c) ty
       | None => Ok types
       end = Ok types' ->
       match new_column_name with
       | Some name => if String.eqb name "" then Ok names
                      else py_setitem names (_index c) name
       | None => Ok names
       end = Ok names' ->
       lengths_aligned rows' types' names' = true ->
       exists t', snd res = Ok t'
         /\ table_rows (fst res) t' = Some rows'
         /\ fst res !! Table._column_types t' = Some (OTypes types')
         /\ fst res !! Table._column_names t' = Some (ONames names')).
Proof.
  intros res. pose proof (map_keeps h self func new_column_type new_column_name)
    as [Hu Hnew].
  split; [exact Hu|]. split; [exact Hnew|].
  intros c rs rows rows' types names types' names' H1 H2 H3 H4 H5 H6 H7 H8 H9 H10.
  destruct (map_returns h self c func new_column_type new_column_name
              rs rows rows' types names types' names' H1 H2 H3 H4 H5 H6 H7 H8 H9 H10)
    as (h' & t' & E & Hr & Ht & Hn).
  exists t'. unfold res. rewrite E. auto.
Qed.

Lemma C2_map_leaves_original_unchanged_witness :
  let col := [VInt 1; VInt 2] in
  let h := fst (example_column col) in
  let self := snd (example_column col) in
  let func := fun v => py_add v (VInt 10) in
  let res := Column.map self func (Some class_DecimalColumn) (Some "z"%string) h in
  unchanged h (fst res)
  /\ exists t', snd res = Ok t'
       /\ table_rows (fst res) t'
          = Some [[VStr "r"; VInt 11]; [VStr "r"; VInt 12]]
       /\ fst res !! Table._column_types t'
          = Some (OTypes [class_TextColumn; class_DecimalColumn])
       /\ fst res !! Table._column_names t'
          = Some (ONames ["name"%string; "z"%string])
       /\ table_rows (fst res) (snd (example_table col))
          = Some [[VStr "r"; VInt 1]; [VStr "r"; VInt 2]].
Proof.
  intros col h self func res.
  destruct (C2_map_leaves_original_unchanged h self func
              (Some class_DecimalColumn) (Some "z"%string)) as (Hu & _ & Hret).
  split; [exact Hu|].
  destruct (Hret (MkColumn (snd (example_table col)) 1 None None None)
              [3%nat; 4%nat]
              [[VStr "r"; VInt 1]; [VStr "r"; VInt 2]]
              [[VStr "r"; VInt 11]; [VStr "r"; VInt 12]]
              [class_TextColumn; class_IntColumn] ["name"%string; "n"%string]
              [class_TextColumn; class_DecimalColumn] ["name"%string; "z"%string])
    as (t' & E & Hr & Ht & Hn).
  - vm_compute; reflexivity.
  - vm_compute; reflexivity.
  - repeat constructor; cbn; intros H;
      repeat (destruct H as [H|H]; [discriminate|]); exact H.
  - repeat constructor.
  - vm_compute; reflexivity.
  - vm_compute; reflexivity.
  - repeat constructor; eexists _, _; repeat split; reflexivity.
  - reflexivity.
  - reflexivity.
  - reflexivity.
  - exists t'. split; [exact E|]. split; [exact Hr|]. split; [exact Ht|].
    split; [exact Hn|]. vm_compute; reflexivity.
Defined.

Lemma forallb_none_without_nulls data :
  forallb is_none data = true -> without_nulls data = [].
Proof.
  unfold without_nulls. induction data as [|v data IH]; cbn; [reflexivity|].
  intros H. apply andb_true_iff in H as [Hv H]. rewrite Hv. cbn. now apply IH.
Qed.

(** C4 (as amended). On a column whose values are all null, [min()] and
    [max()] fail with the [ValueError] of the reduction of an empty
    sequence, while [sum()] returns 0, the sum of no numbers. *)
Theorem C4_aggregates_of_all_null_column h self t idx rows data :
  col_state h self t idx rows data ->
  forallb is_none data = true ->
  snd (NumberColumn.sum self h) = Ok (VInt 0)
  /\ snd (NumberColumn.min self h) = Raise ValueError
  /\ snd (NumberColumn.max self h) = Raise ValueError.
Proof.
  intros Hcs Hnull.
  destruct (sum_returns _ _ _ _ _ _ Hcs) as (h1 & E1 & _).
  destruct (min_returns _ _ _ _ _ _ Hcs) as (h2 & E2 & _).
  destruct (max_returns _ _ _ _ _ _ Hcs) as (h3 & E3 & _).
  rewrite E1, E2, E3, (forallb_none_without_nulls _ Hnull). now cbn.
Qed.

Lemma C4_aggregates_of_all_null_column_witness :
  let col := [VNone; VNone] in
  let h := fst (example_column col) in
  let self := snd (example_column col) in
  snd (NumberColumn.sum self h) = Ok (VInt 0)
  /\ snd (NumberColumn.min self h) = Raise ValueError
  /\ snd (NumberColumn.max self h) = Raise ValueError.
Proof.
  intros col h self.
  apply (C4_aggregates_of_all_null_column h self (snd (example_table col)) 1
           [[VStr "r"; VNone]; [VStr "r"; VNone]] col).
  - example_state.
  - reflexivity.
Defined.

(** Counterexample to C4 as stated: the column holds nothing but nulls and
    [sum()] returns 0 instead of failing. *)
Lemma C4_counterexample :
  let col := [VNone; VNone] in
  forallb is_none col = true
  /\ snd (NumberColumn.sum (snd (example_column col)) (fst (example_column col)))
     = Ok (VInt 0).
Proof. split; vm_compute; reflexivity. Qed.

(** C5 (as amended). [at(j)] fails with [IndexError] when [j] is outside
    [-length(), length())]; for [j] in [0, length())] it returns the element
    [j] of the slice, and for [j] in [-length(), 0)] the element
    [length() + j], counting from the end. *)
Theorem C5_positional_access h self t idx rows data j :
  col_state h self t idx rows data ->
  let n := Z.of_nat (length data) in
  (j < - n \/ n <= j -> snd (Column.__getitem__ self j h) = Raise IndexError)
  /\ (0 <= j < n ->
      exists v, data !! Z.to_nat j = Some v
                /\ snd (Column.__getitem__ self j h) = Ok v)
  /\ (- n <= j < 0 ->
      exists v, data !! Z.to_nat (n + j) = Some v
                /\ snd (Column.__getitem__ self j h) = Ok v).
Proof.
  intros Hcs n. destruct (getitem_returns _ _ _ _ _ _ j Hcs) as (h1 & E & _).
  rewrite E. cbn [snd]. split; [|split].
  - intros Hj. unfold py_index. fold n.
    destruct (Z.ltb_spec j 0).
    + destruct (Z.leb_spec 0 (j + n)); [|reflexivity].
      destruct (Z.ltb_spec (j + n) n); [lia|reflexivity].
    + destruct (Z.leb_spec 0 j); [|reflexivity].
      destruct (Z.ltb_spec j n); [lia|reflexivity].
  - intros Hj. destruct (py_index_in_range data j Hj) as (v & -> & Hv). eauto.
  - intros Hj. destruct (py_index_in_range data (n + j)) as (v & Hi & Hv); [lia|].
    exists v. split; [exact Hv|]. rewrite <- Hi. unfold py_index. fold n.
    destruct (Z.ltb_spec j 0); [|lia].
    destruct (Z.ltb_spec (n + j) 0); [lia|].
    now rewrite (Z.add_comm j n).
Qed.

Lemma C5_positional_access_witness :
  let col := [VInt 1; VInt 2; VInt 3] in
  let h := fst (example_column col) in
  let self := snd (example_column col) in
  (snd (Column.__getitem__ self 3 h) = Raise IndexError)
  /\ (exists v, col !! Z.to_nat 1 = Some v
                /\ snd (Column.__getitem__ self 1 h) = Ok v)
  /\ (exists v, col !! Z.to_nat (3 + -1) = Some v
                /\ snd (Column.__getitem__ self (-1) h) = Ok v).
Proof.
  intros col h self.
  assert (Hcs : col_state h self (snd (example_table col)) 1
                  [[VStr "r"; VInt 1]; [VStr "r"; VInt 2]; [VStr "r"; VInt 3]] col)
    by example_state.
  split; [|split].
  - apply (proj1 (C5_positional_access h self _ 1 _ col 3 Hcs)). cbn. lia.
  - apply (proj1 (proj2 (C5_positional_access h self _ 1 _ col 1 Hcs))). cbn. lia.
  - apply (proj2 (proj2 (C5_positional_access h self _ 1 _ col (-1) Hcs))). cbn. lia.
Defined.

(** Counterexample to C5 as stated: [-1] is outside [0, length())] and
    [at(-1)] returns the last element instead of failing. *)
Lemma C5_counterexample :
  let col := [VInt 1; VInt 2; VInt 3] in
  ~ (0 <= -1 < Z.of_nat (length col))
  /\ snd (Column.__getitem__ (snd (example_column col)) (-1)
            (fst (example_column col))) = Ok (VInt 3).
Proof. split; [cbn; lia|vm_compute; reflexivity]. Qed.

(** One null-sensitive statistic: the guard, then the computation. *)
Lemma null_guard_stat (body : loc -> M value) (stat_of : list value -> result value)
    h self t idx rows data :
  col_state h self t idx rows data ->
  returns (no_null_computations body self) h (stat_of data) self t idx rows data ->
  (existsb is_none data = false -> data <> [] -> exists v, stat_of data = Ok v) ->
  (data = [] -> stat_of data <> Raise NullComputationError) ->
  (existsb is_none data = true ->
     no_null_computations body self h
     = (fst (Column.has_nulls self h), Raise NullComputationError))
  /\ (existsb is_none data = false -> data <> [] ->
      exists v, snd (no_null_computations body self h) = Ok v
                /\ stat_of data = Ok v)
  /\ (snd (no_null_computations body self h) = Raise NullComputationError
      <-> existsb is_none data = true).
Proof.
  intros Hcs (h' & E & _) Hok Hempty.
  destruct (has_nulls_returns _ _ _ _ _ _ Hcs) as (h1 & E1 & _).
  assert (H1 : existsb is_none data = true ->
               no_null_computations body self h
               = (fst (Column.has_nulls self h), Raise NullComputationError)).
  { intros Hn. unfold no_null_computations.
    rewrite (bind_ok _ _ _ _ _ E1), E1, Hn. reflexivity. }
  split; [exact H1|]. split.
  - intros Hn Hne. destruct (Hok Hn Hne) as [v Hv]. exists v.
    rewrite E. split; [exact Hv|exact Hv].
  - split.
    + intros Hr. rewrite E in Hr. cbn in Hr.
      destruct (existsb is_none data) eqn:Hn; [reflexivity|].
      destruct data as [|d data].
      * now destruct (Hempty eq_refl).
      * destruct (Hok eq_refl) as [v Hv]; [discriminate|congruence].
    + intros Hn. now rewrite (H1 Hn).
Qed.

(** C3 (as amended). On a numeric column each of [mean], [median], [mode],
    [variance] and [stdev] raises [NullComputationError] if and only if the
    column contains a null; it is raised right after the look for nulls,
    before the statistic is computed; and on a column without nulls that has
    at least one value each returns the value of the statistic. *)
Theorem C3_null_sensitive_statistics ord h self t idx rows data :
  order_ok ord ->
  col_state h self t idx rows data ->
  numeric data ->
  Forall (fun p : (loc -> M value) * (list value -> result value) =>
     (existsb is_none data = true ->
        fst p self h = (fst (Column.has_nulls self h), Raise NullComputationError))
     /\ (existsb is_none data = false -> data <> [] ->
         exists v, snd (fst p self h) = Ok v /\ snd p data = Ok v)
     /\ (snd (fst p self h) = Raise NullComputationError
         <-> existsb is_none data = true))
    [ (NumberColumn.mean, mean_of);
      (NumberColumn.median, median_of);
      (NumberColumn.mode ord, mode_of ord);
      (NumberColumn.variance, variance_of);
      (NumberColumn.stdev, stdev_of) ].
Proof.
  intros Hord Hcs Hnum.
  assert (Hnumbers : existsb is_none data = false ->
                     Forall (fun v => is_number v = true) data)
    by now apply numeric_no_nulls.
  repeat (apply List.Forall_cons; [cbn [fst snd]|]); [| | | | |apply List.Forall_nil].
  - apply (null_guard_stat NumberColumn.mean_body mean_of _ _ _ _ _ _ Hcs).
    + now apply mean_returns.
    + intros Hn Hne. destruct (mean_of_numbers data (Hnumbers Hn) Hne Hn). eauto.
    + now intros ->.
  - apply (null_guard_stat NumberColumn.median_body median_of _ _ _ _ _ _ Hcs).
    + now apply median_returns.
    + intros Hn Hne.
      destruct (median_of_numbers data (Hnumbers Hn) Hne Hn) as (v & Hv & _). eauto.
    + now intros ->.
  - apply (null_guard_stat (NumberColumn.mode_body ord) (mode_of ord)
             _ _ _ _ _ _ Hcs).
    + now apply mode_returns.
    + intros Hn Hne. now apply mode_of_numbers.
    + intros ->. unfold mode_of, guard_nulls. cbn.
      now destruct (List.map fst (ord [])).
  - apply (null_guard_stat NumberColumn.variance_body variance_of _ _ _ _ _ _ Hcs).
    + now apply variance_returns.
    + intros Hn Hne.
      destruct (variance_of_numbers data (Hnumbers Hn) Hne Hn) as (v & Hv & _). eauto.
    + now intros ->.
  - apply (null_guard_stat NumberColumn.stdev_body stdev_of _ _ _ _ _ _ Hcs).
    + now apply stdev_returns.
    + intros Hn Hne. destruct (stdev_of_numbers data (Hnumbers Hn) Hne Hn). eauto.
    + now intros ->.
Qed.

Lemma order_ok_id : order_ok id.
Proof. intros c. reflexivity. Qed.

Lemma C3_null_sensitive_statistics_witness :
  let col := [VInt 4; VNone; VInt 6] in
  let h := fst (example_column col) in
  let self := snd (example_column col) in
  Forall (fun p : (loc -> M value) * (list value -> result value) =>
     (existsb is_none col = true ->
        fst p self h = (fst (Column.has_nulls self h), Raise NullComputationError))
     /\ (existsb is_none col = false -> col <> [] ->
         exists v, snd (fst p self h) = Ok v /\ snd p col = Ok v)
     /\ (snd (fst p self h) = Raise NullComputationError
         <-> existsb is_none col = true))
    [ (NumberColumn.mean, mean_of);
      (NumberColumn.median, median_of);
      (NumberColumn.mode id, mode_of id);
      (NumberColumn.variance, variance_of);
      (NumberColumn.stdev, stdev_of) ].
Proof.
  intros col h self.
  apply (C3_null_sensitive_statistics id h self (snd (example_table col)) 1
           [[VStr "r"; VInt 4]; [VStr "r"; VNone]; [VStr "r"; VInt 6]] col).
  - exact order_ok_id.
  - example_state.
  - repeat (apply List.Forall_cons; [first [left; reflexivity|right; reflexivity]|]).
    apply List.Forall_nil.
Defined.

(** Counterexample to C3 as stated: a column without rows contains no null,
    and none of the five statistics returns a value. *)
Lemma C3_counterexample :
  let h := fst (example_column []) in
  let self := snd (example_column []) in
  snd (Column.has_nulls self h) = Ok false
  /\ snd (NumberColumn.mean self h) = Raise InvalidOperation
  /\ snd (NumberColumn.median self h) = Raise IndexError
  /\ snd (NumberColumn.mode id self h) = Raise ValueError
  /\ snd (NumberColumn.variance self h) = Raise ZeroDivisionError
  /\ snd (NumberColumn.stdev self h) = Raise ZeroDivisionError.
Proof. repeat split; vm_compute; reflexivity. Qed.

(** The rows of [counts()] on [1,1,2,3,3,3], whatever the order in which the
    interpreter traverses the dictionary. *)
Lemma counts_of_example ord :
  order_ok ord ->
  counts_of ord [VInt 1; VInt 1; VInt 2; VInt 3; VInt 3; VInt 3]
  = [(VInt 3, 3); (VInt 1, 2); (VInt 2, 1)].
Proof.
  intros Hord. unfold counts_of.
  change (count_values [VInt 1; VInt 1; VInt 2; VInt 3; VInt 3; VInt 3])
    with [(VInt 1, 2); (VInt 2, 1); (VInt 3, 3)].
  specialize (Hord [(VInt 1, 2); (VInt 2, 1); (VInt 3, 3)]).
  set (c := [(VInt 1, 2); (VInt 2, 1); (VInt 3, 3)]) in *.
  pose proof (Permutation_length Hord) as Hlen.
  assert (Hnd : List.NoDup (ord c)).
  { apply (Permutation_NoDup (Permutation_sym Hord)).
    unfold c. repeat constructor; cbn; intros H;
      repeat (destruct H as [H|H]; [discriminate|]); exact H. }
  destruct (ord c) as [|x [|y [|z [|? ?]]]]; try discriminate.
  assert (Hin : forall p, In p [x; y; z] -> In p c).
  { intros p Hp. exact (Permutation_in _ Hord Hp). }
  pose proof (Hin x ltac:(cbn; auto)) as Hx.
  pose proof (Hin y ltac:(cbn; auto)) as Hy.
  pose proof (Hin z ltac:(cbn; auto)) as Hz.
  apply List.NoDup_cons_iff in Hnd as [Hxy Hnd].
  apply List.NoDup_cons_iff in Hnd as [Hyz _].
  cbn in Hx, Hy, Hz, Hxy, Hyz.
  destruct Hx as [<-|[<-|[<-|[]]]], Hy as [<-|[<-|[<-|[]]]],
           Hz as [<-|[<-|[<-|[]]]];
    try reflexivity; exfalso; tauto.
Qed.

(** C6. [counts()] returns a new table with the columns (name of the
    column, "count") of types (type of the column, [IntColumn]); its rows
    pair each distinct value of the column -- a null counts as a value --
    with the number of its occurrences, exactly one row for each value, by
    descending count; on [1,1,2,3,3,3] the rows are (3,3), (1,2), (2,1). *)
Theorem C6_counts ord h self t idx rows data names types name ty :
  order_ok ord ->
  col_state h self t idx rows data ->
  h !! Table._column_names t = Some (ONames names) ->
  h !! Table._column_types t = Some (OTypes types) ->
  py_index names idx = Ok name ->
  py_index types idx = Ok ty ->
  (exists h' t',
     Column.counts ord self h = (h', Ok t')
     /\ h' !! Table._column_names t' = Some (ONames [name; "count"%string])
     /\ h' !! Table._column_types t' = Some (OTypes [ty; class_IntColumn])
     /\ table_rows h' t'
        = Some (List.map (fun p => [fst p; VInt (snd p)]) (counts_of ord data)))
  /\ (forall d, In d data ->
        length (List.filter (fun p => py_eq (fst p) d) (counts_of ord data)) = 1%nat)
  /\ (forall k n, In (k, n) (counts_of ord data) ->
        In k data /\ n = count_of data k)
  /\ StronglySorted (fun p q => snd q <= snd p) (counts_of ord data)
  /\ counts_of ord [VInt 1; VInt 1; VInt 2; VInt 3; VInt 3; VInt 3]
     = [(VInt 3, 3); (VInt 1, 2); (VInt 2, 1)].
Proof.
  intros Hord Hcs Hnames Htypes Hname Hty.
  destruct (counts_spec ord _ _ _ _ _ _ _ _ _ _ Hcs Hnames Htypes Hname Hty)
    as (h' & t' & E & Hn & Ht & Hr & _).
  destruct (counts_of_rows ord data Hord) as [H1 H2].
  destruct (counts_of_sorted ord data Hord) as [_ Hs].
  split; [exists h', t'; auto|].
  split; [exact H1|]. split; [exact H2|]. split; [exact Hs|].
  now apply counts_of_example.
Qed.

Lemma C6_counts_witness :
  let col := [VInt 1; VInt 1; VInt 2; VInt 3; VInt 3; VInt 3] in
  let h := fst (example_column col) in
  let self := snd (example_column col) in
  (exists h' t',
     Column.counts id self h = (h', Ok t')
     /\ h' !! Table._column_names t' = Some (ONames ["n"%string; "count"%string])
     /\ h' !! Table._column_types t' = Some (OTypes [class_IntColumn; class_IntColumn])
     /\ table_rows h' t'
        = Some (List.map (fun p => [fst p; VInt (snd p)]) (counts_of id col)))
  /\ (forall d, In d col ->
        length (List.filter (fun p => py_eq (fst p) d) (counts_of id col)) = 1%nat)
  /\ (forall k n, In (k, n) (counts_of id col) -> In k col /\ n = count_of col k)
  /\ StronglySorted (fun p q => snd q <= snd p) (counts_of id col)
  /\ counts_of id [VInt 1; VInt 1; VInt 2; VInt 3; VInt 3; VInt 3]
     = [(VInt 3, 3); (VInt 1, 2); (VInt 2, 1)].
Proof.
  intros col h self.
  apply (C6_counts id h self (snd (example_table col)) 1
           (List.map (fun v => [VStr "r"; v]) col) col
           ["name"%string; "n"%string] [class_TextColumn; class_IntColumn]).
  - exact order_ok_id.
  - example_state.
  - vm_compute; reflexivity.
  - vm_compute; reflexivity.
  - reflexivity.
  - reflexivity.
Defined.

Lemma py_eq_empty_text d : py_eq d (VStr "") = true <-> d = VStr "".
Proof.
  destruct d; cbn; try (split; [discriminate|intros [=]]).
  rewrite String.eqb_eq. split; [now intros ->|now intros [= ->]].
Qed.

(** C10. [TextColumn._cast] maps a value to null only if it is the empty
    string; every other value is converted with [unicode()], and so a null
    becomes the text "None". *)
Theorem C10_text_cast_of_null h self t idx rows data :
  col_state h self t idx rows data ->
  snd (TextColumn._cast self h) = Ok (List.map TextColumn.cast_value data)
  /\ (forall i, data !! i = Some VNone ->
        List.map TextColumn.cast_value data !! i = Some (VStr "None"))
  /\ (forall d, TextColumn.cast_value d = VNone <-> d = VStr "")
  /\ (forall d, d <> VStr "" -> TextColumn.cast_value d = VStr (py_unicode d))
  /\ TextColumn.cast_value VNone = VStr "None".
Proof.
  intros Hcs. split; [|split; [|split; [|split]]].
  - destruct (data_then (fun xs => Ok (List.map TextColumn.cast_value xs))
                _ _ _ _ _ _ Hcs) as (h' & E & _).
    unfold TextColumn._cast. change (@ret (list value)) with (fun a => @lift (list value) (Ok a)).
    cbv beta. now rewrite E.
  - intros i Hi. change (List.map TextColumn.cast_value data) with
      (TextColumn.cast_value <$> data).
    now rewrite list_lookup_fmap, Hi.
  - intros d. unfold TextColumn.cast_value.
    destruct (py_eq d (VStr "")) eqn:E.
    + apply py_eq_empty_text in E. now split.
    + split; [discriminate|]. intros ->. now rewrite py_eq_refl in E.
  - intros d Hd. unfold TextColumn.cast_value.
    destruct (py_eq d (VStr "")) eqn:E; [|reflexivity].
    now apply py_eq_empty_text in E.
  - reflexivity.
Qed.

Lemma C10_text_cast_of_null_witness :
  let col := [VStr "a"; VNone; VStr ""] in
  let h := fst (example_column col) in
  let self := snd (example_column col) in
  snd (TextColumn._cast self h) = Ok (List.map TextColumn.cast_value col)
  /\ (forall i, col !! i = Some VNone ->
        List.map TextColumn.cast_value col !! i = Some (VStr "None"))
  /\ (forall d, TextColumn.cast_value d = VNone <-> d = VStr "")
  /\ (forall d, d <> VStr "" -> TextColumn.cast_value d = VStr (py_unicode d))
  /\ TextColumn.cast_value VNone = VStr "None".
Proof.
  intros col h self.
  apply (C10_text_cast_of_null h self (snd (example_table col)) 1
           (List.map (fun v => [VStr "r"; v]) col) col).
  example_state.
Defined.

(** ** What the casts do to text before parsing it *)

Lemma remove_char_not_in c s :
  ~ In c (list_ascii_of_string (Str.remove_char c s)).
Proof.
  induction s as [|a s IH]; cbn; [tauto|].
  destruct (Ascii.eqb_spec a c) as [->|Hne]; [exact IH|].
  cbn. intros [->|H]; [congruence|now apply IH].
Qed.

Lemma lstrip_subset a s :
  In a (list_ascii_of_string (Str.lstrip s)) -> In a (list_ascii_of_string s).
Proof.
  induction s as [|b s IH]; cbn; [tauto|].
  destruct (Str.is_space b); cbn; auto.
Qed.

Lemma rstrip_subset a s :
  In a (list_ascii_of_string (Str.rstrip s)) -> In a (list_ascii_of_string s).
Proof.
  induction s as [|b s IH]; cbn; [tauto|].
  destruct (Str.rstrip s) as [|b' s'].
  - destruct (Str.is_space b); cbn; tauto.
  - cbn in *. intros [H|H]; auto.
Qed.

Lemma lstrip_head s a r : Str.lstrip s = String a r -> Str.is_space a = false.
Proof.
  induction s as [|b s IH]; cbn; [discriminate|].
  destruct (Str.is_space b) eqn:E; [exact IH|]. now intros [= <- _].
Qed.

Lemma rstrip_idem s : Str.rstrip (Str.rstrip s) = Str.rstrip s.
Proof.
  induction s as [|a s IH]; cbn; [reflexivity|].
  destruct (Str.rstrip s) as [|b r] eqn:E.
  - destruct (Str.is_space a) eqn:Ha; cbn [Str.rstrip]; [reflexivity|now rewrite Ha].
  - remember (String b r) as u eqn:Hu. cbn [Str.rstrip]. rewrite IH.
    now subst u.
Qed.

Lemma lstrip_strip s : Str.lstrip (Str.strip s) = Str.strip s.
Proof.
  unfold Str.strip. destruct (Str.lstrip s) as [|a r] eqn:E; [reflexivity|].
  pose proof (lstrip_head _ _ _ E) as Ha. cbn [Str.rstrip].
  destruct (Str.rstrip r); [rewrite Ha|]; cbn [Str.lstrip]; now rewrite Ha.
Qed.

Lemma traverse_lift_ok {A B} (f : A -> result B) xs out (h : heap) :
  Forall2 (fun d v => f d = Ok v) xs out ->
  traverse (fun d => lift (f d)) xs h = (h, Ok out).
Proof.
  intros H. apply traverse_pure. eapply Forall2_impl; [exact H|].
  cbn. intros d v Hd. unfold lift. now rewrite Hd.
Qed.

(** C8. The casts of [IntColumn] and [DecimalColumn] remove every comma and
    the surrounding blanks from a text input, map what is then the empty
    text, and null, to null, and parse everything else with [int()], resp.
    [Decimal()]; "1,000" becomes the integer 1000, "" becomes null, "3.14"
    becomes the decimal 314 * 10^-2, which is 3.14 exactly. *)
Theorem C8_numeric_casts h self t idx rows data out_int out_dec :
  col_state h self t idx rows data ->
  Forall2 (fun d v => IntColumn.cast_value d = Ok v) data out_int ->
  Forall2 (fun d v => DecimalColumn.cast_value d = Ok v) data out_dec ->
  snd (IntColumn._cast self h) = Ok out_int
  /\ snd (DecimalColumn._cast self h) = Ok out_dec
  /\ (forall s,
        let s' := Str.strip (Str.remove_char "," s) in
        ~ In ","%char (list_ascii_of_string s')
        /\ Str.lstrip s' = s' /\ Str.rstrip s' = s'
        /\ IntColumn.cast_value (VStr s)
           = (if String.eqb s' "" then Ok VNone
              else result_bind (int_of_string s') (fun n => Ok (VInt n)))
        /\ DecimalColumn.cast_value (VStr s)
           = (if String.eqb s' "" then Ok VNone
              else result_bind (decimal_of_string s') (fun x => Ok (VDec x))))
  /\ IntColumn.cast_value VNone = Ok VNone
  /\ DecimalColumn.cast_value VNone = Ok VNone
  /\ IntColumn.cast_value (VStr "1,000") = Ok (VInt 1000)
  /\ IntColumn.cast_value (VStr "") = Ok VNone
  /\ DecimalColumn.cast_value (VStr "") = Ok VNone
  /\ DecimalColumn.cast_value (VStr "3.14") = Ok (VDec (Dec false 314 (-2)))
  /\ exact_quotient (Dec false 314 (-2)) 314 100.
Proof.
  intros Hcs Hint Hdec.
  destruct (_data_spec _ _ _ _ _ _ Hcs) as (h1 & d & E1 & Hd1 & _).
  split; [|split].
  - unfold IntColumn._cast. rewrite (bind_ok _ _ _ _ _ E1).
    rewrite (bind_ok _ _ _ _ _ (read_values_ok _ _ _ Hd1)).
    now rewrite (traverse_lift_ok _ _ _ _ Hint).
  - unfold DecimalColumn._cast. rewrite (bind_ok _ _ _ _ _ E1).
    rewrite (bind_ok _ _ _ _ _ (read_values_ok _ _ _ Hd1)).
    now rewrite (traverse_lift_ok _ _ _ _ Hdec).
  - split.
    + intros s s'. split; [|split; [|split; [|split]]].
      * intros Hin. apply rstrip_subset, lstrip_subset in Hin.
        exact (remove_char_not_in _ _ Hin).
      * apply lstrip_strip.
      * apply rstrip_idem.
      * unfold IntColumn.cast_value. cbn. fold s'. now rewrite orb_false_r.
      * unfold DecimalColumn.cast_value. cbn. fold s'. now rewrite orb_false_r.
    + repeat split; vm_compute; reflexivity.
Qed.

Lemma C8_numeric_casts_witness :
  let col := [VStr "1,000"; VStr ""; VNone; VStr " 3 "] in
  let h := fst (example_column col) in
  let self := snd (example_column col) in
  snd (IntColumn._cast self h) = Ok [VInt 1000; VNone; VNone; VInt 3]
  /\ snd (DecimalColumn._cast self h)
     = Ok [VDec (Dec false 1000 0); VNone; VNone; VDec (Dec false 3 0)].
Proof.
  intros col h self.
  destruct (C8_numeric_casts h self (snd (example_table col)) 1
              (List.map (fun v => [VStr "r"; v]) col) col
              [VInt 1000; VNone; VNone; VInt 3]
              [VDec (Dec false 1000 0); VNone; VNone; VDec (Dec false 3 0)])
    as (Hi & Hd & _).
  - example_state.
  - repeat constructor.
  - repeat constructor.
  - split; [exact Hi|exact Hd].
Defined.

(** Half of an integer sum of at most 27 digits is computed exactly. *)
Lemma half_exact s :
  Z.abs s < 10 ^ 27 ->
  exists r, py_div (VDec (Decimal.of_int s)) (VInt 2) = Ok (VDec r)
            /\ exact_quotient r s 2.
Proof.
  intros Hs. destruct (div_exact s 2 (5 * s) 1) as (r & Hr & Hex); [lia|lia|lia| |].
  - unfold Decimal.prec. rewrite Z.abs_mul.
    change (10 ^ 28) with (10 * 10 ^ 27). cbn [Z.abs]. lia.
  - exists r. split; [|exact Hex]. cbn [py_div as_decimal]. now rewrite Hr.
Qed.

(** C7 (as amended). On a non-empty numeric column without nulls [median()]
    sorts the values in ascending order and returns the middle element when
    their number is odd; when it is even it returns [Decimal(a + b) / 2] for
    the two middle elements [a] and [b], computed in decimal arithmetic of 28
    significant digits: the exact average when [a] and [b] are integers whose
    sum has at most 27 digits.  [1,3,5] gives 3 and [1,2,3,4] gives 2.5. *)
Theorem C7_median h self t idx rows data :
  col_state h self t idx rows data ->
  numeric data -> existsb is_none data = false -> data <> [] ->
  let sorted := py_sorted data in
  let n := Z.of_nat (length data) in
  snd (NumberColumn.median self h) = median_of data
  /\ Permutation sorted data
  /\ StronglySorted (fun a b => py_lt b a = false) sorted
  /\ (n mod 2 = 1 ->
      exists x, sorted !! Z.to_nat ((n - 1) / 2) = Some x
                /\ median_of data = Ok x)
  /\ (n mod 2 = 0 ->
      exists a b,
        sorted !! Z.to_nat (n / 2 - 1) = Some a
        /\ sorted !! Z.to_nat (n / 2) = Some b
        /\ median_of data
           = result_bind (py_add a b) (fun ab =>
             result_bind (py_Decimal ab) (fun d => py_div (VDec d) (VInt 2)))
        /\ forall x y, a = VInt x -> b = VInt y -> Z.abs (x + y) < 10 ^ 27 ->
             exists r, median_of data = Ok (VDec r)
                       /\ exact_quotient r (x + y) 2)
  /\ median_of [VInt 1; VInt 3; VInt 5] = Ok (VInt 3)
  /\ median_of [VInt 1; VInt 2; VInt 3; VInt 4] = Ok (VDec (Dec false 25 (-1))).
Proof.
  intros Hcs Hnum Hnn Hne sorted n.
  pose proof (numeric_no_nulls data Hnum Hnn) as Hnumbers.
  destruct (median_returns _ _ _ _ _ h Hcs) as (h' & E & _).
  assert (Hlen : Z.of_nat (length sorted) = n)
    by (unfold sorted; now rewrite py_sorted_length).
  assert (Hpos : 0 < n) by (unfold n; destruct data; [congruence|cbn; lia]).
  split; [now rewrite E|]. split; [apply py_sorted_perm|].
  split; [now apply py_sorted_sorted|].
  assert (Hmed : median_of data
            = if n mod 2 =? 1 then py_index sorted ((n + 1) / 2 - 1)
              else result_bind (py_index sorted (n / 2 - 1)) (fun a =>
                   result_bind (py_index sorted (n / 2)) (fun b =>
                   result_bind (py_add a b) (fun ab =>
                   result_bind (py_Decimal ab) (fun dab =>
                   py_div (VDec dab) (VInt 2)))))).
  { unfold median_of, guard_nulls. rewrite Hnn. cbv zeta. fold sorted.
    now rewrite Hlen. }
  pose proof (Z.div_mod n 2 ltac:(lia)) as Hdm.
  split; [|split; [|split; [reflexivity|reflexivity]]].
  - intros Hodd. rewrite Hmed, Hodd. cbn [Z.eqb Pos.eqb].
    assert (Hidx : (n + 1) / 2 - 1 = (n - 1) / 2).
    { replace (n + 1) with (1 * 2 + (n - 1)) by lia.
      rewrite Z.div_add_l by lia. lia. }
    rewrite Hidx.
    assert (Hq : n - 1 = 2 * (n / 2)) by lia.
    assert (Hq' : (n - 1) / 2 = n / 2).
    { rewrite Hq, Z.mul_comm, Z.div_mul by lia. reflexivity. }
    destruct (py_index_in_range sorted ((n - 1) / 2)) as (x & Hx & Hlook);
      [rewrite Hlen; lia|].
    exists x. now split.
  - intros Heven. rewrite Hmed, Heven. cbn [Z.eqb].
    destruct (py_index_in_range sorted (n / 2 - 1)) as (a & Ha & Hla);
      [rewrite Hlen; lia|].
    destruct (py_index_in_range sorted (n / 2)) as (b & Hb & Hlb);
      [rewrite Hlen; lia|].
    exists a, b. rewrite Ha, Hb. cbn [result_bind].
    split; [exact Hla|]. split; [exact Hlb|]. split; [reflexivity|].
    intros x y -> -> Hxy. cbn [py_add py_Decimal result_bind].
    exact (half_exact (x + y) Hxy).
Qed.

Lemma C7_median_witness :
  let col := [VInt 4; VInt 1; VInt 3; VInt 2] in
  let h := fst (example_column col) in
  let self := snd (example_column col) in
  snd (NumberColumn.median self h) = median_of col
  /\ Permutation (py_sorted col) col.
Proof.
  intros col h self.
  destruct (C7_median h self (snd (example_table col)) 1
              (List.map (fun v => [VStr "r"; v]) col) col) as (H1 & H2 & _).
  - example_state.
  - repeat (apply List.Forall_cons; [left; reflexivity|]). apply List.Forall_nil.
  - reflexivity.
  - discriminate.
  - split; [exact H1|exact H2].
Defined.

(** Counterexample to C7 as stated: the two middle elements are 0 and
    10^28 + 1; their average is not what [median()] returns. *)
Lemma C7_counterexample :
  let col := [VInt 0; VInt (10 ^ 28 + 1)] in
  let r := Dec false 5000000000000000000000000000 0 in
  snd (NumberColumn.median (snd (example_column col)) (fst (example_column col)))
  = Ok (VDec r)
  /\ ~ exact_quotient r (0 + (10 ^ 28 + 1)) 2.
Proof.
  split; [vm_compute; reflexivity|]. unfold exact_quotient. vm_compute. discriminate.
Qed.

Lemma py_sum_from_ints zs : forall acc,
  py_sum_from (VInt acc) (List.map VInt zs) = Ok (VInt (acc + fold_right Z.add 0 zs)).
Proof.
  induction zs as [|z zs IH]; intros acc; cbn.
  - now rewrite Z.add_0_r.
  - rewrite IH. do 2 f_equal. lia.
Qed.

(** The loop of [variance] adds up the squared deviations. *)
Lemma ssd_of_squares m l : forall acc s,
  ssd_of (Ok (VDec m)) acc l = Ok s ->
  exists sqs,
    Forall2 (fun n sq => result_bind (py_sub n (VDec m)) py_square = Ok sq) l sqs
    /\ py_sum_from acc sqs = Ok s.
Proof.
  induction l as [|n l IH]; intros acc s; cbn [ssd_of result_bind].
  - intros [= <-]. exists []. split; [constructor|reflexivity].
  - destruct (py_sub n (VDec m)) as [dev|] eqn:Hdev; cbn [result_bind]; [|discriminate].
    destruct (py_square dev) as [sq|] eqn:Hsq; cbn [result_bind]; [|discriminate].
    destruct (py_add acc sq) as [acc'|] eqn:Hacc; cbn [result_bind]; [|discriminate].
    intros H. destruct (IH acc' s H) as (sqs & Hall & Hsum).
    exists (sq :: sqs). split.
    + constructor; [|exact Hall]. rewrite Hdev. exact Hsq.
    + cbn. now rewrite Hacc.
Qed.

(** C9 (as amended). On a non-empty numeric column without nulls
    [variance()] is the sum of the squared deviations of the values from
    [mean()] divided by the number of values -- not by that number minus
    one -- and [mean()] is [Decimal(sum) / count]; both are computed in
    decimal arithmetic of 28 significant digits, so the mean of integers is
    exact whenever it can be written with at most 28 digits, and need not be
    otherwise.  [1,2,3,4] has variance 1.25. *)
Theorem C9_variance_and_mean h self t idx rows data :
  col_state h self t idx rows data ->
  numeric data -> existsb is_none data = false -> data <> [] ->
  let count := Z.of_nat (length data) in
  (exists m total d sqs s,
     snd (NumberColumn.mean self h) = Ok (VDec m)
     /\ py_sum data = Ok total /\ py_Decimal total = Ok d
     /\ py_div (VDec d) (VInt count) = Ok (VDec m)
     /\ Forall2 (fun n sq => result_bind (py_sub n (VDec m)) py_square = Ok sq)
                data sqs
     /\ py_sum sqs = Ok s
     /\ snd (NumberColumn.variance self h) = py_div s (VInt count)
     /\ forall zs q k,
          data = List.map VInt zs -> 0 <= k ->
          fold_right Z.add 0 zs * 10 ^ k = q * count ->
          Z.abs q < 10 ^ 28 ->
          exact_quotient m (fold_right Z.add 0 zs) count)
  /\ variance_of [VInt 1; VInt 2; VInt 3; VInt 4] = Ok (VDec (Dec false 125 (-2))).
Proof.
  intros Hcs Hnum Hnn Hne count. split; [|reflexivity].
  pose proof (numeric_no_nulls data Hnum Hnn) as Hnumbers.
  assert (Hcount : 0 < count) by (unfold count; destruct data; [congruence|cbn; lia]).
  destruct (mean_returns _ _ _ _ _ h Hcs) as (h1 & E1 & _).
  destruct (variance_returns _ _ _ _ _ h Hcs) as (h2 & E2 & _).
  destruct (mean_of_numbers data Hnumbers Hne Hnn) as (m & Hm).
  destruct (variance_of_numbers data Hnumbers Hne Hnn) as (v & Hv & _).
  pose proof Hm as Hm'. unfold mean_of, guard_nulls in Hm'.
  rewrite Hnn, (without_nulls_id _ Hnn) in Hm'.
  destruct (py_sum data) as [total|] eqn:Htotal; cbn [result_bind] in Hm'; [|discriminate].
  destruct (py_Decimal total) as [d|] eqn:Hd; cbn [result_bind] in Hm'; [|discriminate].
  pose proof Hv as Hv'. unfold variance_of, guard_nulls in Hv'.
  rewrite Hnn, Hm in Hv'.
  destruct (ssd_of (Ok (VDec m)) (VInt 0) data) as [s|] eqn:Hs;
    cbn [result_bind] in Hv'; [|discriminate].
  destruct (ssd_of_squares m data (VInt 0) s Hs) as (sqs & Hsqs & Hsum).
  exists m, total, d, sqs, s.
  split; [now rewrite E1|]. split; [reflexivity|]. split; [exact Hd|].
  split; [exact Hm'|]. split; [exact Hsqs|]. split; [exact Hsum|].
  split.
  { rewrite E2. cbn [snd]. unfold variance_of, guard_nulls.
    rewrite Hnn, Hm, Hs. reflexivity. }
  intros zs q k -> Hk Hq Hq28.
  unfold py_sum in Htotal. rewrite py_sum_from_ints in Htotal.
  injection Htotal as <-. cbn in Hd. injection Hd as <-.
  destruct (div_exact (fold_right Z.add 0 zs) count q k Hcount Hk Hq Hq28)
    as (r & Hr & Hex).
  cbn [py_div as_decimal] in Hm'. rewrite Z.add_0_l in Hm'.
  change (Z.of_nat (length (List.map VInt zs))) with count in Hm'.
  rewrite Hr in Hm'. cbn in Hm'. now injection Hm' as <-.
Qed.

Lemma C9_variance_and_mean_witness :
  let col := [VInt 1; VInt 2; VInt 3; VInt 4] in
  let h := fst (example_column col) in
  let self := snd (example_column col) in
  exists m s,
    snd (NumberColumn.mean self h) = Ok (VDec m)
    /\ snd (NumberColumn.variance self h) = py_div s (VInt 4)
    /\ exact_quotient m 10 4.
Proof.
  intros col h self.
  destruct (C9_variance_and_mean h self (snd (example_table col)) 1
              (List.map (fun v => [VStr "r"; v]) col) col)
    as [(m & total & d & sqs & s & Hmean & _ & _ & _ & _ & _ & Hvar & Hex) _].
  - example_state.
  - repeat (apply List.Forall_cons; [left; reflexivity|]). apply List.Forall_nil.
  - reflexivity.
  - discriminate.
  - exists m, s. split; [exact Hmean|]. split; [exact Hvar|].
    apply (Hex [1; 2; 3; 4] 25 1); [reflexivity|lia|reflexivity|reflexivity].
Defined.

(** Counterexample to C9 as stated: the mean of 0, 0 and 1 is computed as
    0.3333333333333333333333333333, which is not 1/3. *)
Lemma C9_counterexample :
  let col := [VInt 0; VInt 0; VInt 1] in
  let r := Dec false 3333333333333333333333333333 (-28) in
  snd (NumberColumn.mean (snd (example_column col)) (fst (example_column col)))
  = Ok (VDec r)
  /\ ~ exact_quotient r (0 + 0 + 1) 3.
Proof.
  split; [vm_compute; reflexivity|]. unfold exact_quotient. vm_compute. discriminate.
Qed.

(* ===================================================================== *)
(** * Further properties of the column classes                            *)
(* ===================================================================== *)

(** ** Inversion of computations *)

Lemma bind_inv {A B} (m : M A) (k : A -> M B) (h h' : heap) (b : B) :
  bind m k h = (h', Ok b) ->
  exists h1 a, m h = (h1, Ok a) /\ k a h1 = (h', Ok b).
Proof.
  unfold bind. destruct (m h) as [h1 [a|e]]; [eauto|discriminate].
Qed.

Lemma read_column_inv (h h' : heap) l c :
  read_column l h = (h', Ok c) -> h' = h /\ h !! l = Some (OColumn c).
Proof.
  unfold read_column. destruct (h !! l) as [[]|]; try discriminate.
  now intros [= <- <-].
Qed.

Lemma cached_view (view : loc -> M loc) (get : column -> option loc)
    (compute : column -> loc -> M loc) :
  (forall self h, view self h
     = (c <- read_column self ;;
        match get c with None => compute c self | Some l => ret l end) h) ->
  (forall c0 self h h1 l, compute c0 self h = (h1, Ok l) ->
     exists c, h1 !! self = Some (OColumn c) /\ get c = Some l) ->
  forall self (h h1 : heap) l,
    view self h = (h1, Ok l) ->
    forall h2 : heap, h2 !! self = h1 !! self -> view self h2 = (h2, Ok l).
Proof.
  intros Hview Hcompute self h h1 l E h2 Hsame.
  assert (Hc : exists c, h1 !! self = Some (OColumn c) /\ get c = Some l).
  { rewrite Hview in E. apply bind_inv in E as (h0 & c & Er & E).
    apply read_column_inv in Er as [-> Hc].
    destruct (get c) as [l0|] eqn:Hg.
    - injection E as <- <-. eauto.
    - eauto. }
  destruct Hc as (c & Hc & Hg). rewrite Hview.
  rewrite Hc in Hsame.
  rewrite (bind_ok _ _ _ _ _ (read_column_ok _ _ _ Hsame)). now rewrite Hg.
Qed.

Lemma fill_inv (setter : loc -> loc -> M unit) (get : column -> option loc)
    (o : obj) self (h h1 : heap) l :
  (forall l0 h0 h0', setter self l0 h0 = (h0', Ok tt) ->
     exists c, h0' !! self = Some (OColumn c) /\ get c = Some l0) ->
  (l0 <- alloc o ;; setter self l0 ;;; ret l0) h = (h1, Ok l) ->
  exists c, h1 !! self = Some (OColumn c) /\ get c = Some l.
Proof.
  intros Hset E. apply bind_inv in E as (ha & l0 & _ & E).
  apply bind_inv in E as (hb & [] & Es & E). injection E as <- <-.
  eauto.
Qed.

Lemma set_cached_data_inv self l (h h' : heap) :
  Column.set_cached_data self l h = (h', Ok tt) ->
  exists c, h' !! self = Some (OColumn c) /\ _cached_data c = Some l.
Proof.
  intros E. apply bind_inv in E as (h0 & c & Er & E).
  injection E as <-. eexists. split; [apply lookup_insert_eq|reflexivity].
Qed.

Lemma set_cached_data_without_nulls_inv self l (h h' : heap) :
  Column.set_cached_data_without_nulls self l h = (h', Ok tt) ->
  exists c, h' !! self = Some (OColumn c)
            /\ _cached_data_without_nulls c = Some l.
Proof.
  intros E. apply bind_inv in E as (h0 & c & Er & E).
  injection E as <-. eexists. split; [apply lookup_insert_eq|reflexivity].
Qed.

Lemma set_cached_data_sorted_inv self l (h h' : heap) :
  Column.set_cached_data_sorted self l h = (h', Ok tt) ->
  exists c, h' !! self = Some (OColumn c) /\ _cached_data_sorted c = Some l.
Proof.
  intros E. apply bind_inv in E as (h0 & c & Er & E).
  injection E as <-. eexists. split; [apply lookup_insert_eq|reflexivity].
Qed.

Lemma data_cached self (h h1 : heap) l :
  Column._data self h = (h1, Ok l) ->
  forall h2 : heap, h2 !! self = h1 !! self -> Column._data self h2 = (h2, Ok l).
Proof.
  apply (cached_view Column._data _cached_data
           (fun c self => xs <- Column.slice (_table c) (_index c) ;;
                          l <- alloc (OValues xs) ;;
                          Column.set_cached_data self l ;;; ret l)).
  - reflexivity.
  - intros c0 s h0 h0' l0 E. apply bind_inv in E as (hb & xs & _ & E).
    eapply fill_inv; [|exact E]. intros l1 h3 h4. apply set_cached_data_inv.
Qed.

Lemma data_without_nulls_cached self (h h1 : heap) l :
  Column._data_without_nulls self h = (h1, Ok l) ->
  forall h2 : heap, h2 !! self = h1 !! self ->
    Column._data_without_nulls self h2 = (h2, Ok l).
Proof.
  apply (cached_view Column._data_without_nulls _cached_data_without_nulls
           (fun c self => d <- Column._data self ;;
                          xs <- read_values d ;;
                          l <- alloc (OValues (List.filter (fun d => negb (is_none d)) xs)) ;;
                          Column.set_cached_data_without_nulls self l ;;; ret l)).
  - reflexivity.
  - intros c0 s h0 h0' l0 E. apply bind_inv in E as (ha & d & _ & E).
    apply bind_inv in E as (hb & xs & _ & E).
    eapply fill_inv; [|exact E]. intros l1 h3 h4.
    apply set_cached_data_without_nulls_inv.
Qed.

Lemma data_sorted_cached self (h h1 : heap) l :
  Column._data_sorted self h = (h1, Ok l) ->
  forall h2 : heap, h2 !! self = h1 !! self ->
    Column._data_sorted self h2 = (h2, Ok l).
Proof.
  apply (cached_view Column._data_sorted _cached_data_sorted
           (fun c self => d <- Column._data self ;;
                          xs <- read_values d ;;
                          l <- alloc (OValues (py_sorted xs)) ;;
                          Column.set_cached_data_sorted self l ;;; ret l)).
  - reflexivity.
  - intros c0 s h0 h0' l0 E. apply bind_inv in E as (ha & d & _ & E).
    apply bind_inv in E as (hb & xs & _ & E).
    eapply fill_inv; [|exact E]. intros l1 h3 h4.
    apply set_cached_data_sorted_inv.
Qed.

(** X1. Each of the three caches is computed at most once.  Once [_data],
    [_data_without_nulls] or [_data_sorted] has returned a list, every later
    call, in any store in which the column object is as that call left it,
    returns the same list object and changes nothing: the rows of the table
    are not read again, whatever has become of them. *)
Theorem X1_views_are_computed_once (view : loc -> M loc) self (h h1 : heap) l :
  In view [Column._data; Column._data_without_nulls; Column._data_sorted] ->
  view self h = (h1, Ok l) ->
  forall h2 : heap, h2 !! self = h1 !! self -> view self h2 = (h2, Ok l).
Proof.
  intros [<-|[<-|[<-|[]]]].
  - apply data_cached.
  - apply data_without_nulls_cached.
  - apply data_sorted_cached.
Qed.

Lemma X1_views_are_computed_once_witness :
  let col := [VInt 3; VNone; VInt 1] in
  let h := fst (example_column col) in
  let self := snd (example_column col) in
  let h1 := fst (Column._data_sorted self h) in
  let h2 : heap := <[0%nat := ORows []]> h1 in
  Column._data_sorted self h2 = (h2, Ok 8%nat).
Proof.
  intros col h self h1 h2.
  apply (X1_views_are_computed_once Column._data_sorted self h h1 8%nat).
  - right. right. left. reflexivity.
  - vm_compute. reflexivity.
  - reflexivity.
Defined.

(** ** Equality with lists *)

Lemma py_list_eq_spec l : forall other,
  py_list_eq l other = true <-> Forall2 (fun a b => py_eq a b = true) l other.
Proof.
  induction l as [|a l IH]; intros [|b other]; cbn.
  - split; [constructor|reflexivity].
  - split; [discriminate|]. intros H. inversion H.
  - split; [discriminate|]. intros H. inversion H.
  - rewrite andb_true_iff, IH. split.
    + intros [Hab H]. now constructor.
    + intros H. inversion H; subst. now split.
Qed.

Lemma py_list_eq_refl l : py_list_eq l l = true.
Proof.
  apply py_list_eq_spec. induction l; constructor; [apply py_eq_refl|assumption].
Qed.

(** X2. [==] and [!=] between a column and a list: a column equals the list
    of its own values; it equals a list exactly when both have the same
    length and their elements are pairwise equal ([==] of Python, so that
    [1 == Decimal(1)]); and [!=] always answers the opposite of [==]. *)
Theorem X2_equality_with_lists h self t idx rows data other :
  col_state h self t idx rows data ->
  snd (Column.__eq__ self data h) = Ok true
  /\ (snd (Column.__eq__ self other h) = Ok true
      <-> Forall2 (fun a b => py_eq a b = true) data other)
  /\ exists b, snd (Column.__eq__ self other h) = Ok b
               /\ snd (Column.__ne__ self other h) = Ok (negb b).
Proof.
  intros Hcs.
  destruct (eq_returns _ _ _ _ _ _ data Hcs) as (h1 & E1 & _).
  destruct (eq_returns _ _ _ _ _ _ other Hcs) as (h2 & E2 & _).
  split; [|split].
  - rewrite E1. cbn. now rewrite py_list_eq_refl.
  - rewrite E2. cbn. rewrite <- py_list_eq_spec. split; congruence.
  - exists (py_list_eq data other). rewrite E2. split; [reflexivity|].
    unfold Column.__ne__. now rewrite (bind_ok _ _ _ _ _ E2).
Qed.

Lemma X2_equality_with_lists_witness :
  let col := [VInt 1; VNone; VStr "a"] in
  let h := fst (example_column col) in
  let self := snd (example_column col) in
  let other := [VDec (Dec false 10 (-1)); VNone; VStr "a"] in
  snd (Column.__eq__ self col h) = Ok true
  /\ (snd (Column.__eq__ self other h) = Ok true
      <-> Forall2 (fun a b => py_eq a b = true) col other)
  /\ exists b, snd (Column.__eq__ self other h) = Ok b
               /\ snd (Column.__ne__ self other h) = Ok (negb b).
Proof.
  intros col h self other.
  apply (X2_equality_with_lists h self (snd (example_table col)) 1
           [[VStr "r"; VInt 1]; [VStr "r"; VNone]; [VStr "r"; VStr "a"]] col other).
  example_state.
Defined.

(** ** Counting *)

Lemma count_of_filter v l :
  count_of l v = Z.of_nat (length (List.filter (fun d => py_eq d v) l)).
Proof.
  induction l as [|d l IH] using rev_ind; [reflexivity|].
  rewrite count_of_snoc, IH, List.filter_app, length_app. cbn.
  destruct (py_eq d v); cbn; lia.
Qed.

Lemma filter_length_le {A} (f : A -> bool) l :
  (length (List.filter f l) <= length l)%nat.
Proof. induction l as [|a l IH]; cbn; [lia|]. destruct (f a); cbn; lia. Qed.

Lemma filter_length_split {A} (f : A -> bool) l :
  (length (List.filter f l) + length (List.filter (fun a => negb (f a)) l)
   = length l)%nat.
Proof. induction l as [|a l IH]; cbn; [lia|]. destruct (f a); cbn; lia. Qed.

Lemma filter_nil_iff {A} (f : A -> bool) l :
  length (List.filter f l) = 0%nat <-> Forall (fun a => f a = false) l.
Proof.
  induction l as [|a l IH]; cbn.
  - split; [constructor|reflexivity].
  - destruct (f a) eqn:E; cbn.
    + split; [discriminate|]. intros H. inversion H; congruence.
    + rewrite IH. split; [now constructor|]. intros H. now inversion H.
Qed.

Lemma count_of_congr l v w : py_eq v w = true -> count_of l v = count_of l w.
Proof.
  intros H. rewrite !count_of_filter. f_equal. f_equal.
  apply List.filter_ext. intros d. now apply py_eq_congr.
Qed.

(** X7. [count(value)] is the number of cells equal to [value]: it lies
    between 0 and the length of the column, it is 0 exactly when no cell
    equals [value], and two values that are equal ([1] and [Decimal(1)])
    have the same count. *)
Theorem X7_count h self t idx rows data v :
  col_state h self t idx rows data ->
  exists n, snd (Column.count self v h) = Ok n
    /\ n = Z.of_nat (length (List.filter (fun d => py_eq d v) data))
    /\ 0 <= n <= Z.of_nat (length data)
    /\ (n = 0 <-> Forall (fun d => py_eq d v = false) data)
    /\ forall w, py_eq v w = true -> snd (Column.count self w h) = Ok n.
Proof.
  intros Hcs. destruct (count_returns _ _ _ _ _ _ v Hcs) as (h1 & E1 & _).
  exists (count_of data v). rewrite E1. split; [reflexivity|].
  split; [apply count_of_filter|]. rewrite count_of_filter.
  pose proof (filter_length_le (fun d => py_eq d v) data).
  split; [lia|]. split.
  - rewrite <- filter_nil_iff. lia.
  - intros w Hw. destruct (count_returns _ _ _ _ _ _ w Hcs) as (h2 & E2 & _).
    rewrite E2. cbn. f_equal. rewrite <- count_of_filter.
    symmetry. now apply count_of_congr.
Qed.

Lemma X7_count_witness :
  let col := [VInt 1; VDec (Dec false 10 (-1)); VNone; VInt 2] in
  let h := fst (example_column col) in
  let self := snd (example_column col) in
  exists n, snd (Column.count self (VInt 1) h) = Ok n
    /\ n = Z.of_nat (length (List.filter (fun d => py_eq d (VInt 1)) col))
    /\ 0 <= n <= Z.of_nat (length col)
    /\ (n = 0 <-> Forall (fun d => py_eq d (VInt 1) = false) col)
    /\ forall w, py_eq (VInt 1) w = true -> snd (Column.count self w h) = Ok n.
Proof.
  intros col h self.
  apply (X7_count h self (snd (example_table col)) 1
           [[VStr "r"; VInt 1]; [VStr "r"; VDec (Dec false 10 (-1))];
            [VStr "r"; VNone]; [VStr "r"; VInt 2]] col (VInt 1)).
  example_state.
Defined.

(** ** Nulls *)

Lemma py_eq_none d : py_eq d VNone = is_none d.
Proof. now destruct d. Qed.

Lemma existsb_filter_length {A} (f : A -> bool) l :
  existsb f l = (0 <? Z.of_nat (length (List.filter f l))).
Proof.
  induction l as [|a l IH]; cbn; [reflexivity|].
  destruct (f a); cbn; [|exact IH].
  symmetry. apply Z.ltb_lt. lia.
Qed.

Lemma filter_sublist {A} (f : A -> bool) (l : list A) :
  sublist (List.filter f l) l.
Proof.
  induction l as [|a l IH]; cbn; [constructor|].
  destruct (f a); now constructor.
Qed.

Lemma without_nulls_not_none data : Forall (fun v => v <> VNone) (without_nulls data).
Proof.
  unfold without_nulls. rewrite Forall_forall. intros v Hv.
  apply list_elem_of_In, List.filter_In in Hv as [_ Hv]. now destruct v.
Qed.

(** X3. The nulls of a column.  [count(None)] is the number of null cells;
    [has_nulls()] is true exactly when it is positive; the list
    [_data_without_nulls()] holds the other cells, none of them null, in
    their order in the column, so that its length and [count(None)] add up
    to [len()], and it is the whole slice when there is no null. *)
Theorem X3_nulls_accounting h self t idx rows data :
  col_state h self t idx rows data ->
  exists h1 l xs n,
    Column._data_without_nulls self h = (h1, Ok l)
    /\ h1 !! l = Some (OValues xs)
    /\ Forall (fun v => v <> VNone) xs
    /\ sublist xs data
    /\ snd (Column.count self VNone h) = Ok n
    /\ snd (Column.__len__ self h) = Ok (Z.of_nat (length xs) + n)
    /\ snd (Column.has_nulls self h) = Ok (0 <? n)
    /\ (n = 0 -> xs = data).
Proof.
  intros Hcs.
  destruct (_data_without_nulls_spec _ _ _ _ _ _ Hcs) as (h1 & l & E1 & Hl & _).
  destruct (count_returns _ _ _ _ _ _ VNone Hcs) as (h2 & E2 & _).
  destruct (len_returns _ _ _ _ _ _ Hcs) as (h3 & E3 & _).
  destruct (has_nulls_returns _ _ _ _ _ _ Hcs) as (h4 & E4 & _).
  exists h1, l, (without_nulls data), (count_of data VNone).
  rewrite E2, E3, E4. cbn [snd].
  assert (Hc : count_of data VNone
               = Z.of_nat (length (List.filter is_none data))).
  { rewrite count_of_filter.
    rewrite (List.filter_ext _ is_none py_eq_none). reflexivity. }
  split; [exact E1|]. split; [exact Hl|].
  split; [apply without_nulls_not_none|].
  split; [apply filter_sublist|]. split; [reflexivity|].
  pose proof (filter_length_split is_none data) as Hsplit.
  split; [|split].
  - f_equal. rewrite Hc. unfold without_nulls. lia.
  - f_equal. rewrite Hc. apply existsb_filter_length.
  - intros Hn. apply without_nulls_id. rewrite existsb_filter_length.
    apply Z.ltb_ge. lia.
Qed.

Lemma X3_nulls_accounting_witness :
  let col := [VInt 4; VNone; VInt 6; VNone] in
  let h := fst (example_column col) in
  let self := snd (example_column col) in
  exists h1 l xs n,
    Column._data_without_nulls self h = (h1, Ok l)
    /\ h1 !! l = Some (OValues xs)
    /\ Forall (fun v => v <> VNone) xs
    /\ sublist xs col
    /\ snd (Column.count self VNone h) = Ok n
    /\ snd (Column.__len__ self h) = Ok (Z.of_nat (length xs) + n)
    /\ snd (Column.has_nulls self h) = Ok (0 <? n)
    /\ (n = 0 -> xs = col).
Proof.
  intros col h self.
  apply (X3_nulls_accounting h self (snd (example_table col)) 1
           [[VStr "r"; VInt 4]; [VStr "r"; VNone];
            [VStr "r"; VInt 6]; [VStr "r"; VNone]] col).
  example_state.
Defined.

(** ** [any] and [all] *)

Lemma traverse_lift_raise {A B} (f : A -> result B) pre d post e (h : heap) :
  Forall (fun x => exists b, f x = Ok b) pre ->
  f d = Raise e ->
  traverse (fun d => lift (f d)) (pre ++ d :: post) h = (h, Raise e).
Proof.
  intros Hpre Hd. induction Hpre as [|x pre [b Hx] _ IH]; cbn [app traverse].
  - unfold bind, lift. now rewrite Hd.
  - assert (E : lift (f x) h = (h, Ok b)) by (unfold lift; now rewrite Hx).
    rewrite (bind_ok _ _ _ _ _ E). now rewrite (bind_raise _ _ _ _ _ IH).
Qed.

Lemma existsb_id_true bs (func : value -> result bool) data :
  Forall2 (fun d b => func d = Ok b) data bs ->
  existsb id bs = true <-> Exists (fun d => func d = Ok true) data.
Proof.
  induction 1 as [|d b data bs Hd _ IH]; cbn.
  - split; [discriminate|]. intros H. inversion H.
  - rewrite orb_true_iff, IH. split.
    + intros [Hb|H]; [left; unfold id in Hb; congruence|now right].
    + intros H. inversion H; subst; [left; unfold id; congruence|now right].
Qed.

Lemma forallb_id_true bs (func : value -> result bool) data :
  Forall2 (fun d b => func d = Ok b) data bs ->
  forallb id bs = true <-> Forall (fun d => func d = Ok true) data.
Proof.
  induction 1 as [|d b data bs Hd _ IH]; cbn.
  - split; [constructor|reflexivity].
  - rewrite andb_true_iff, IH. split.
    + intros [Hb H]. constructor; [unfold id in Hb; congruence|assumption].
    + intros H. inversion H; subst. split; [unfold id; congruence|assumption].
Qed.

Lemma any_run h self t idx rows data func :
  col_state h self t idx rows data ->
  exists h1, Column.any self func h
    = (bs <- traverse (fun d => lift (func d)) data ;; ret (existsb id bs)) h1.
Proof.
  intros Hcs. destruct (_data_spec _ _ _ _ _ _ Hcs) as (h1 & l & E & Hl & _).
  exists h1. unfold Column.any.
  rewrite (bind_ok _ _ _ _ _ E).
  now rewrite (bind_ok _ _ _ _ _ (read_values_ok _ _ _ Hl)).
Qed.

Lemma all_run h self t idx rows data func :
  col_state h self t idx rows data ->
  exists h1, Column.all self func h
    = (bs <- traverse (fun d => lift (func d)) data ;; ret (forallb id bs)) h1.
Proof.
  intros Hcs. destruct (_data_spec _ _ _ _ _ _ Hcs) as (h1 & l & E & Hl & _).
  exists h1. unfold Column.all.
  rewrite (bind_ok _ _ _ _ _ E).
  now rewrite (bind_ok _ _ _ _ _ (read_values_ok _ _ _ Hl)).
Qed.

(** X4. [any(func)] and [all(func)] for a test that returns on every cell:
    [any] is true exactly when some cell passes, [all] exactly when every
    cell passes (so, on a column without rows, [any] is false and [all] is
    true), and [all] of the negated test is the negation of [any]. *)
Theorem X4_any_all h self t idx rows data func bs :
  col_state h self t idx rows data ->
  Forall2 (fun d b => func d = Ok b) data bs ->
  exists b_any b_all,
    snd (Column.any self func h) = Ok b_any
    /\ snd (Column.all self func h) = Ok b_all
    /\ (b_any = true <-> Exists (fun d => func d = Ok true) data)
    /\ (b_all = true <-> Forall (fun d => func d = Ok true) data)
    /\ snd (Column.all self
              (fun d => result_bind (func d) (fun b => Ok (negb b))) h)
       = Ok (negb b_any).
Proof.
  intros Hcs Hbs.
  destruct (any_run _ _ _ _ _ _ func Hcs) as (h1 & E1).
  destruct (all_run _ _ _ _ _ _ func Hcs) as (h2 & E2).
  destruct (all_run _ _ _ _ _ _
              (fun d => result_bind (func d) (fun b => Ok (negb b))) Hcs)
    as (h3 & E3).
  exists (existsb id bs), (forallb id bs). rewrite E1, E2, E3.
  rewrite (bind_ok _ _ _ _ _ (traverse_lift_ok func data bs h1 Hbs)).
  rewrite (bind_ok _ _ _ _ _ (traverse_lift_ok func data bs h2 Hbs)).
  assert (Hneg : Forall2 (fun d b => result_bind (func d) (fun b => Ok (negb b)) = Ok b)
                   data (List.map negb bs)).
  { clear -Hbs. induction Hbs as [|d b data bs Hd _ IH]; cbn; constructor;
      [now rewrite Hd|assumption]. }
  rewrite (bind_ok _ _ _ _ _ (traverse_lift_ok _ data _ h3 Hneg)).
  cbn [snd ret]. repeat split; try reflexivity.
  - now apply existsb_id_true.
  - now apply existsb_id_true.
  - now apply forallb_id_true.
  - now apply forallb_id_true.
  - f_equal. clear. induction bs as [|b bs IH]; cbn; [reflexivity|].
    rewrite IH. unfold id. now destruct b.
Qed.

Lemma X4_any_all_witness :
  let col := [VInt 4; VNone; VInt 6] in
  let h := fst (example_column col) in
  let self := snd (example_column col) in
  let func := fun d => Ok (is_none d) in
  exists b_any b_all,
    snd (Column.any self func h) = Ok b_any
    /\ snd (Column.all self func h) = Ok b_all
    /\ (b_any = true <-> Exists (fun d => func d = Ok true) col)
    /\ (b_all = true <-> Forall (fun d => func d = Ok true) col)
    /\ snd (Column.all self
              (fun d => result_bind (func d) (fun b => Ok (negb b))) h)
       = Ok (negb b_any).
Proof.
  intros col h self func.
  apply (X4_any_all h self (snd (example_table col)) 1
           [[VStr "r"; VInt 4]; [VStr "r"; VNone]; [VStr "r"; VInt 6]] col
           func [false; true; false]).
  - example_state.
  - repeat constructor.
Defined.

(** X5. [any] and [all] apply the test to every cell before they reduce:
    when the test raises on a cell, both raise that error -- that of the
    first such cell -- even if an earlier cell has already settled the
    answer. *)
Theorem X5_any_all_apply_the_test_to_every_cell
    h self t idx rows data func pre d post e :
  col_state h self t idx rows data ->
  data = pre ++ d :: post ->
  Forall (fun x => exists b, func x = Ok b) pre ->
  func d = Raise e ->
  snd (Column.any self func h) = Raise e
  /\ snd (Column.all self func h) = Raise e.
Proof.
  intros Hcs -> Hpre Hd.
  destruct (any_run _ _ _ _ _ _ func Hcs) as (h1 & E1).
  destruct (all_run _ _ _ _ _ _ func Hcs) as (h2 & E2).
  rewrite E1, E2.
  rewrite (bind_raise _ _ _ _ _ (traverse_lift_raise func pre d post e h1 Hpre Hd)).
  rewrite (bind_raise _ _ _ _ _ (traverse_lift_raise func pre d post e h2 Hpre Hd)).
  now split.
Qed.

Lemma X5_any_all_apply_the_test_to_every_cell_witness :
  let col := [VInt 4; VInt 0; VNone; VInt 6] in
  let h := fst (example_column col) in
  let self := snd (example_column col) in
  let func := fun d => match d with
                       | VInt n => Ok (0 <? n)
                       | _ => Raise TypeError
                       end in
  snd (Column.any self func h) = Raise TypeError
  /\ snd (Column.all self func h) = Raise TypeError.
Proof.
  intros col h self func.
  apply (X5_any_all_apply_the_test_to_every_cell h self (snd (example_table col)) 1
           [[VStr "r"; VInt 4]; [VStr "r"; VInt 0]; [VStr "r"; VNone]; [VStr "r"; VInt 6]]
           col func [VInt 4; VInt 0] VNone [VInt 6] TypeError).
  - example_state.
  - reflexivity.
  - repeat constructor; eexists; reflexivity.
  - reflexivity.
Defined.

(** ** The order of all values *)

Lemma string_compare_lt_trans a : forall b c,
  String.compare a b = Lt -> String.compare b c = Lt -> String.compare a c = Lt.
Proof.
  induction a as [|x a IH]; intros [|y b] [|z c]; cbn;
    try discriminate; try reflexivity.
  unfold Ascii.compare.
  destruct (N.compare_spec (N_of_ascii x) (N_of_ascii y)),
           (N.compare_spec (N_of_ascii y) (N_of_ascii z)),
           (N.compare_spec (N_of_ascii x) (N_of_ascii z));
    try discriminate; try reflexivity; try lia; eauto.
Qed.

Lemma string_ltb_asym x y : String.ltb x y = true -> String.ltb y x = false.
Proof.
  unfold String.ltb. rewrite (String.compare_antisym y x).
  now destruct (String.compare x y).
Qed.

Lemma string_le_trans x y z :
  String.ltb y x = false -> String.ltb z y = false -> String.ltb z x = false.
Proof.
  unfold String.ltb.
  rewrite (String.compare_antisym y x), (String.compare_antisym z y),
          (String.compare_antisym z x).
  destruct (String.compare x y) eqn:Hxy; cbn; try discriminate; intros _.
  - apply String.compare_eq_iff in Hxy as ->.
    now destruct (String.compare y z).
  - destruct (String.compare y z) eqn:Hyz; cbn; try discriminate; intros _.
    + apply String.compare_eq_iff in Hyz as ->. now rewrite Hxy.
    + now rewrite (string_compare_lt_trans x y z Hxy Hyz).
Qed.

Lemma py_lt_asym_all a b : py_lt a b = true -> py_lt b a = false.
Proof.
  destruct a as [|x|s|x], b as [|y|s'|y];
    try (apply py_lt_asym; reflexivity);
    try (cbn; congruence).
  cbn. apply string_ltb_asym.
Qed.

Lemma py_le_trans_all a b c :
  py_lt b a = false -> py_lt c b = false -> py_lt c a = false.
Proof.
  destruct a as [|x|s|x], b as [|y|s'|y], c as [|z|s''|z];
    try (apply py_le_trans; reflexivity);
    try (cbn; congruence).
  cbn. apply string_le_trans.
Qed.

Lemma insert_sorted_ordered x l :
  StronglySorted (fun a b => py_lt b a = false) l ->
  StronglySorted (fun a b => py_lt b a = false) (insert_sorted x l).
Proof.
  induction l as [|y l IH]; intros Hs; cbn.
  - repeat constructor.
  - apply StronglySorted_inv in Hs as [Hs Hyl].
    destruct (py_lt y x) eqn:E.
    + constructor; [now apply IH|].
      rewrite Forall_forall. intros b Hb. apply list_elem_of_In in Hb.
      apply (Permutation_in _ (insert_sorted_perm x l)) in Hb as [<-|Hb].
      * now apply py_lt_asym_all.
      * rewrite Forall_forall in Hyl. now apply Hyl, list_elem_of_In.
    + constructor; [now constructor|].
      constructor; [exact E|].
      rewrite Forall_forall in Hyl. rewrite Forall_forall. intros b Hb.
      apply (py_le_trans_all x y b); auto.
Qed.

Lemma py_sorted_ordered l :
  StronglySorted (fun a b => py_lt b a = false) (py_sorted l).
Proof.
  induction l as [|x l IH]; cbn; [constructor|].
  fold (py_sorted l). now apply insert_sorted_ordered.
Qed.

(** X8. The sorted view.  [_data_sorted()] returns a list that holds the
    cells of the column, each as often as the column does, in ascending
    order (the order of Python 2: [None] first, then the numbers by value,
    then text): no cell is smaller than a cell before it.  It is a list of
    its own: the slice [_data()] keeps the order of the rows. *)
Theorem X8_sorted_view h self t idx rows data :
  col_state h self t idx rows data ->
  exists h1 l xs,
    Column._data_sorted self h = (h1, Ok l)
    /\ h1 !! l = Some (OValues xs)
    /\ Permutation xs data
    /\ StronglySorted (fun a b => py_lt b a = false) xs
    /\ exists h2 d, Column._data self h1 = (h2, Ok d)
                    /\ h2 !! d = Some (OValues data)
                    /\ h2 !! l = Some (OValues xs).
Proof.
  intros Hcs.
  destruct (_data_sorted_spec _ _ _ _ _ _ Hcs) as (h1 & l & E1 & Hl & Hcs1 & _).
  destruct (_data_spec _ _ _ _ _ _ Hcs1) as (h2 & d & E2 & Hd & Hcs2 & Hfr).
  exists h1, l, (py_sorted data). split; [exact E1|]. split; [exact Hl|].
  split; [apply py_sorted_perm|]. split; [apply py_sorted_ordered|].
  exists h2, d. split; [exact E2|]. split; [exact Hd|].
  apply Hfr; [|exact Hl].
  destruct (col_state_lookup _ _ _ _ _ _ Hcs1) as (c & Hc). congruence.
Qed.

Lemma X8_sorted_view_witness :
  let col := [VStr "b"; VInt 3; VNone; VDec (Dec false 25 (-1)); VStr "a"] in
  let h := fst (example_column col) in
  let self := snd (example_column col) in
  exists h1 l xs,
    Column._data_sorted self h = (h1, Ok l)
    /\ h1 !! l = Some (OValues xs)
    /\ Permutation xs col
    /\ StronglySorted (fun a b => py_lt b a = false) xs
    /\ exists h2 d, Column._data self h1 = (h2, Ok d)
                    /\ h2 !! d = Some (OValues col)
                    /\ h2 !! l = Some (OValues xs).
Proof.
  intros col h self.
  apply (X8_sorted_view h self (snd (example_table col)) 1
           [[VStr "r"; VStr "b"]; [VStr "r"; VInt 3]; [VStr "r"; VNone];
            [VStr "r"; VDec (Dec false 25 (-1))]; [VStr "r"; VStr "a"]] col).
  example_state.
Defined.

(** ** [min] and [max] *)

Lemma fold_min_spec l : forall x,
  let m := fold_left (fun m y => if py_lt y m then y else m) l x in
  In m (x :: l) /\ Forall (fun y => py_lt y m = false) (x :: l).
Proof.
  induction l as [|y l IH]; intros x; cbn.
  - split; [now left|]. constructor; [|constructor].
    destruct (py_lt x x) eqn:E; [|reflexivity].
    now rewrite (py_lt_asym_all x x E) in E.
  - specialize (IH (if py_lt y x then y else x)). cbn in IH.
    set (m := fold_left _ l _) in *. destruct IH as [Hin Hall].
    apply Forall_cons in Hall as [Hacc Hall]. split.
    + destruct Hin as [Hin|Hin]; [|now right; right].
      destruct (py_lt y x); [right; left|left]; exact Hin.
    + destruct (py_lt y x) eqn:E.
      * constructor; [|now constructor].
        apply (py_le_trans_all m y x); [exact Hacc|now apply py_lt_asym_all].
      * constructor; [exact Hacc|]. constructor; [|exact Hall].
        now apply (py_le_trans_all m x y).
Qed.

Lemma fold_max_spec l : forall x,
  let m := fold_left (fun m y => if py_lt m y then y else m) l x in
  In m (x :: l) /\ Forall (fun y => py_lt m y = false) (x :: l).
Proof.
  induction l as [|y l IH]; intros x; cbn.
  - split; [now left|]. constructor; [|constructor].
    destruct (py_lt x x) eqn:E; [|reflexivity].
    now rewrite (py_lt_asym_all x x E) in E.
  - specialize (IH (if py_lt x y then y else x)). cbn in IH.
    set (m := fold_left _ l _) in *. destruct IH as [Hin Hall].
    apply Forall_cons in Hall as [Hacc Hall]. split.
    + destruct Hin as [Hin|Hin]; [|now right; right].
      destruct (py_lt x y); [right; left|left]; exact Hin.
    + destruct (py_lt x y) eqn:E.
      * constructor; [|now constructor].
        apply (py_le_trans_all x y m); [now apply py_lt_asym_all|exact Hacc].
      * constructor; [exact Hacc|]. constructor; [|exact Hall].
        now apply (py_le_trans_all y x m).
Qed.

Lemma forallb_none_false data :
  forallb is_none data = false -> without_nulls data <> [].
Proof.
  unfold without_nulls. induction data as [|v data IH]; cbn; [discriminate|].
  destruct (is_none v); cbn; [exact IH|discriminate].
Qed.

(** X9. [min()] and [max()] of a column that has a cell that is not null:
    both return a cell of the column that is not null; no such cell is
    smaller than the minimum and none is larger than the maximum, the null
    cells being left out of the comparison. *)
Theorem X9_min_max h self t idx rows data :
  col_state h self t idx rows data ->
  forallb is_none data = false ->
  exists lo hi,
    snd (NumberColumn.min self h) = Ok lo
    /\ snd (NumberColumn.max self h) = Ok hi
    /\ In lo data /\ lo <> VNone
    /\ In hi data /\ hi <> VNone
    /\ forall v, In v data -> v <> VNone ->
         py_lt v lo = false /\ py_lt hi v = false.
Proof.
  intros Hcs Hnn.
  destruct (min_returns _ _ _ _ _ _ Hcs) as (h1 & E1 & _).
  destruct (max_returns _ _ _ _ _ _ Hcs) as (h2 & E2 & _).
  rewrite E1, E2. cbn [snd].
  pose proof (forallb_none_false data Hnn) as Hne.
  assert (Hsub : forall v, In v (without_nulls data) <-> In v data /\ v <> VNone).
  { intros v. unfold without_nulls. rewrite List.filter_In.
    split; intros [H1 H2]; (split; [exact H1|]); now destruct v. }
  destruct (without_nulls data) as [|x l] eqn:Hw; [congruence|].
  cbn [py_min py_max].
  destruct (fold_min_spec l x) as [Hin_lo Hlo].
  destruct (fold_max_spec l x) as [Hin_hi Hhi].
  eexists _, _. split; [reflexivity|]. split; [reflexivity|].
  apply Hsub in Hin_lo as [? ?]. apply Hsub in Hin_hi as [? ?].
  repeat (split; [assumption|]).
  intros v Hv Hvn. rewrite Forall_forall in Hlo, Hhi.
  assert (Hvw : In v (x :: l)) by now apply Hsub.
  apply list_elem_of_In in Hvw. split; [now apply Hlo|now apply Hhi].
Qed.

Lemma X9_min_max_witness :
  let col := [VInt 4; VNone; VDec (Dec false 25 (-1)); VInt 6] in
  let h := fst (example_column col) in
  let self := snd (example_column col) in
  exists lo hi,
    snd (NumberColumn.min self h) = Ok lo
    /\ snd (NumberColumn.max self h) = Ok hi
    /\ In lo col /\ lo <> VNone
    /\ In hi col /\ hi <> VNone
    /\ forall v, In v col -> v <> VNone ->
         py_lt v lo = false /\ py_lt hi v = false.
Proof.
  intros col h self.
  apply (X9_min_max h self (snd (example_table col)) 1
           [[VStr "r"; VInt 4]; [VStr "r"; VNone];
            [VStr "r"; VDec (Dec false 25 (-1))]; [VStr "r"; VInt 6]] col).
  - example_state.
  - reflexivity.
Defined.

(** ** The counts add up *)

Lemma counter_incr_total d (c : counter) :
  fold_right Z.add 0 (List.map snd (counter_incr d c))
  = fold_right Z.add 0 (List.map snd c) + 1.
Proof.
  induction c as [|[k n] c IH]; cbn; [reflexivity|].
  destruct (py_eq k d); cbn; lia.
Qed.

Lemma counter_incr_positive d (c : counter) :
  List.Forall (fun p => 1 <= snd p) c ->
  List.Forall (fun p => 1 <= snd p) (counter_incr d c).
Proof.
  induction 1 as [|[k n] c Hn Hc IH]; cbn.
  - repeat constructor. cbn. lia.
  - destruct (py_eq k d); constructor; cbn in *; try assumption; lia.
Qed.

Lemma count_values_total l :
  fold_right Z.add 0 (List.map snd (count_values l)) = Z.of_nat (length l)
  /\ List.Forall (fun p => 1 <= snd p) (count_values l).
Proof.
  induction l as [|d l [IH1 IH2]] using rev_ind; [split; [reflexivity|constructor]|].
  rewrite count_values_snoc, counter_incr_total, IH1, length_app. cbn.
  split; [lia|now apply counter_incr_positive].
Qed.

Lemma total_perm (c c' : list (value * Z)) :
  Permutation c c' ->
  fold_right Z.add 0 (List.map snd c) = fold_right Z.add 0 (List.map snd c').
Proof. induction 1; cbn; lia. Qed.

Lemma total_length (c : list (value * Z)) :
  List.Forall (fun p => 1 <= snd p) c ->
  Z.of_nat (length c) <= fold_right Z.add 0 (List.map snd c).
Proof. induction 1 as [|p c Hp _ IH]; cbn [length List.map fold_right]; lia. Qed.

(** X6. The counts of [counts()] add up: every row of the table it returns
    pairs a value with a count of at least 1, the counts sum to the length
    of the column, and so there are at most as many rows as the column has
    cells. *)
Theorem X6_counts_add_up ord h self t idx rows data names types name ty :
  order_ok ord ->
  col_state h self t idx rows data ->
  h !! Table._column_names t = Some (ONames names) ->
  h !! Table._column_types t = Some (OTypes types) ->
  py_index names idx = Ok name ->
  py_index types idx = Ok ty ->
  exists h' t' cs,
    Column.counts ord self h = (h', Ok t')
    /\ table_rows h' t' = Some (List.map (fun p => [fst p; VInt (snd p)]) cs)
    /\ List.Forall (fun p => 1 <= snd p) cs
    /\ fold_right Z.add 0 (List.map snd cs) = Z.of_nat (length data)
    /\ (length cs <= length data)%nat.
Proof.
  intros Hord Hcs Hnames Htypes Hname Hty.
  destruct (counts_spec ord _ _ _ _ _ _ _ _ _ _ Hcs Hnames Htypes Hname Hty)
    as (h' & t' & E & _ & _ & Hrows & _).
  destruct (counts_of_sorted ord data Hord) as [Hperm _].
  destruct (count_values_total data) as [Htot Hpos].
  assert (Hpos' : List.Forall (fun p => 1 <= snd p) (counts_of ord data)).
  { apply (Permutation_Forall (Permutation_sym Hperm)). exact Hpos. }
  assert (Htot' : fold_right Z.add 0 (List.map snd (counts_of ord data))
                  = Z.of_nat (length data)).
  { rewrite (total_perm _ _ Hperm). exact Htot. }
  exists h', t', (counts_of ord data).
  split; [exact E|]. split; [exact Hrows|]. split; [exact Hpos'|].
  split; [exact Htot'|]. pose proof (total_length _ Hpos'). lia.
Qed.

Lemma X6_counts_add_up_witness :
  let col := [VInt 1; VNone; VInt 1; VStr "a"; VNone; VInt 1] in
  let h := fst (example_column col) in
  let self := snd (example_column col) in
  exists h' t' cs,
    Column.counts id self h = (h', Ok t')
    /\ table_rows h' t' = Some (List.map (fun p => [fst p; VInt (snd p)]) cs)
    /\ List.Forall (fun p => 1 <= snd p) cs
    /\ fold_right Z.add 0 (List.map snd cs) = Z.of_nat (length col)
    /\ (length cs <= length col)%nat.
Proof.
  intros col h self.
  apply (X6_counts_add_up id h self (snd (example_table col)) 1
           [[VStr "r"; VInt 1]; [VStr "r"; VNone]; [VStr "r"; VInt 1];
            [VStr "r"; VStr "a"]; [VStr "r"; VNone]; [VStr "r"; VInt 1]] col
           ["name"%string; "n"%string] [class_TextColumn; class_IntColumn]
           "n"%string class_IntColumn).
  - exact order_ok_id.
  - example_state.
  - vm_compute. reflexivity.
  - vm_compute. reflexivity.
  - reflexivity.
  - reflexivity.
Defined.

(** ** The sum of integers *)

Lemma without_nulls_ints data :
  List.Forall (fun v => is_int v = true \/ v = VNone) data ->
  exists zs, without_nulls data = List.map VInt zs
    /\ fold_right Z.add 0 zs
       = fold_right (fun v acc => match v with VInt z => z + acc | _ => acc end)
           0 data.
Proof.
  induction 1 as [|v data Hv _ (zs & IH1 & IH2)]; [now exists []|].
  destruct Hv as [Hv| ->].
  - destruct v as [|z| |]; try discriminate. exists (z :: zs). cbn.
    fold (without_nulls data). rewrite IH1, IH2. now split.
  - exists zs. cbn. fold (without_nulls data). now split.
Qed.

(** X10. [sum()] of a column of integers and nulls is the integer sum of the
    cells that are not null: integers are added exactly, whatever their
    size, and nulls are skipped. *)
Theorem X10_sum_of_integers h self t idx rows data :
  col_state h self t idx rows data ->
  List.Forall (fun v => is_int v = true \/ v = VNone) data ->
  snd (NumberColumn.sum self h)
  = Ok (VInt (fold_right
                (fun v acc => match v with VInt z => z + acc | _ => acc end)
                0 data)).
Proof.
  intros Hcs Hint. destruct (sum_returns _ _ _ _ _ _ Hcs) as (h1 & E & _).
  rewrite E. cbn [snd].
  destruct (without_nulls_ints data Hint) as (zs & -> & <-).
  unfold py_sum. now rewrite py_sum_from_ints.
Qed.

Lemma X10_sum_of_integers_witness :
  let col := [VInt 4; VNone; VInt (-6); VInt (10 ^ 30)] in
  let h := fst (example_column col) in
  let self := snd (example_column col) in
  snd (NumberColumn.sum self h)
  = Ok (VInt (fold_right
                (fun v acc => match v with VInt z => z + acc | _ => acc end)
                0 col)).
Proof.
  intros col h self.
  apply (X10_sum_of_integers h self (snd (example_table col)) 1
           [[VStr "r"; VInt 4]; [VStr "r"; VNone]; [VStr "r"; VInt (-6)];
            [VStr "r"; VInt (10 ^ 30)]] col).
  - example_state.
  - repeat (apply List.Forall_cons; [first [left; reflexivity|right; reflexivity]|]).
    apply List.Forall_nil.
Defined.

(** ** [mode] *)

Lemma fold_max_by_spec (f : value -> Z) l : forall x,
  let m := fold_left (fun m y => if f m <? f y then y else m) l x in
  In m (x :: l) /\ forall y, In y (x :: l) -> f y <= f m.
Proof.
  induction l as [|y l IH]; intros x; cbn.
  - split; [now left|]. intros y [<-|[]]. lia.
  - specialize (IH (if f x <? f y then y else x)). cbn in IH.
    set (m := fold_left _ l _) in *. destruct IH as [Hin Hall]. split.
    + destruct Hin as [Hin|Hin]; [|now right; right].
      destruct (f x <? f y); [right; left|left]; exact Hin.
    + pose proof (Hall _ (or_introl eq_refl)) as Hacc.
      intros z [<-|[<-|Hz]].
      * destruct (Z.ltb_spec (f x) (f y)); lia.
      * destruct (Z.ltb_spec (f x) (f y)); lia.
      * apply Hall. now right.
Qed.

Lemma counter_get_in (c : counter) k :
  (exists p, In p c /\ py_eq (fst p) k = true) ->
  exists k' n, In (k', n) c /\ py_eq k' k = true /\ counter_get c k = n.
Proof.
  induction c as [|[k0 n0] c IH]; intros (p & Hp & Hk); [destruct Hp|].
  cbn. destruct (py_eq k0 k) eqn:E.
  - exists k0, n0. repeat split; [now left|exact E].
  - destruct Hp as [<-|Hp]; [cbn in Hk; congruence|].
    destruct IH as (k' & n & Hin & Hk' & Hget); [eauto|].
    exists k', n. repeat split; [now right|exact Hk'|exact Hget].
Qed.

Lemma counter_get_count data k :
  In k (List.map fst (count_values data)) ->
  counter_get (count_values data) k = count_of data k.
Proof.
  intros Hk. apply List.in_map_iff in Hk as ([k0 n0] & <- & Hin). cbn [fst].
  destruct (counter_get_in (count_values data) k0) as (k' & n & Hin' & Hk' & ->).
  - exists (k0, n0). split; [exact Hin|apply py_eq_refl].
  - destruct (count_values_inv data) as [_ Hinv].
    destruct (Hinv _ _ Hin') as [_ ->]. now apply count_of_congr.
Qed.

(** X11. [mode()] of a column without nulls that has at least one row
    returns a cell of the column that occurs at least as often as any value
    ([count] of the value), whatever the order in which the interpreter
    traverses the dictionary of the counts. *)
Theorem X11_mode ord h self t idx rows data :
  order_ok ord ->
  col_state h self t idx rows data ->
  data <> [] -> existsb is_none data = false ->
  exists m n_m,
    snd (NumberColumn.mode ord self h) = Ok m
    /\ In m data
    /\ snd (Column.count self m h) = Ok n_m
    /\ forall v, exists n_v,
         snd (Column.count self v h) = Ok n_v /\ n_v <= n_m.
Proof.
  intros Hord Hcs Hne Hnn.
  destruct (mode_returns _ _ _ _ _ ord h Hcs) as (h1 & E & _).
  rewrite E. cbn [snd]. unfold mode_of, guard_nulls. rewrite Hnn. cbv zeta.
  set (state := count_values data).
  pose proof (Hord state) as Hperm.
  assert (Hkeys : forall k, In k (List.map fst (ord state))
                            <-> In k (List.map fst state)).
  { intros k. split; apply Permutation_in, Permutation_map;
      [exact Hperm|exact (Permutation_sym Hperm)]. }
  destruct (List.map fst (ord state)) as [|x l] eqn:Ekeys.
  { exfalso. apply (count_values_nonempty data Hne).
    apply Permutation_nil. fold state.
    destruct (ord state); [exact Hperm|discriminate]. }
  cbn [py_max_by].
  destruct (fold_max_by_spec (counter_get state) l x) as [Hin Hmax].
  set (m := fold_left _ l x) in *.
  assert (Hget : forall k, In k (x :: l) -> counter_get state k = count_of data k).
  { intros k Hk. apply counter_get_count, Hkeys. exact Hk. }
  destruct (count_returns _ _ _ _ _ _ m Hcs) as (h2 & E2 & _).
  exists m, (count_of data m). split; [reflexivity|]. split; [|split].
  - apply Hkeys in Hin. apply List.in_map_iff in Hin as ([k n] & <- & Hin).
    destruct (count_values_inv data) as [_ Hinv]. now destruct (Hinv _ _ Hin).
  - now rewrite E2.
  - intros v. destruct (count_returns _ _ _ _ _ _ v Hcs) as (h3 & E3 & _).
    exists (count_of data v). rewrite E3. split; [reflexivity|].
    rewrite <- (Hget m Hin).
    destruct (Z.eq_dec (count_of data v) 0) as [->|Hpos].
    + rewrite (Hget m Hin), count_of_filter. lia.
    + rewrite count_of_filter in Hpos.
      destruct (filter_exists (fun d => py_eq d v) data) as (d & Hd & Hdv); [lia|].
      destruct (count_values_inv data) as [Huniq _].
      destruct (filter_exists (fun p => py_eq (fst p) d) state) as ([k n] & Hk & Hkd).
      { fold state in Huniq. rewrite (Huniq d Hd). lia. }
      cbn in Hkd.
      assert (Hkin : In k (x :: l)).
      { apply Hkeys. apply List.in_map_iff. now exists (k, n). }
      rewrite <- (count_of_congr data d v Hdv), <- (count_of_congr data k d Hkd).
      rewrite <- (Hget k Hkin). now apply Hmax.
Qed.

Lemma X11_mode_witness :
  let col := [VInt 4; VInt 6; VDec (Dec false 60 (-1)); VInt 4; VInt 6] in
  let h := fst (example_column col) in
  let self := snd (example_column col) in
  exists m n_m,
    snd (NumberColumn.mode id self h) = Ok m
    /\ In m col
    /\ snd (Column.count self m h) = Ok n_m
    /\ forall v, exists n_v,
         snd (Column.count self v h) = Ok n_v /\ n_v <= n_m.
Proof.
  intros col h self.
  apply (X11_mode id h self (snd (example_table col)) 1
           [[VStr "r"; VInt 4]; [VStr "r"; VInt 6];
            [VStr "r"; VDec (Dec false 60 (-1))]; [VStr "r"; VInt 4];
            [VStr "r"; VInt 6]] col).
  - exact order_ok_id.
  - example_state.
  - discriminate.
  - reflexivity.
Defined.

(** ** The sign of the variance *)

Lemma sqrt_of_nonneg x :
  dneg x = false -> exists d, Decimal.sqrt x = Ok d /\ dneg d = false.
Proof.
  intros Hx. unfold Decimal.sqrt. rewrite Hx.
  destruct (Decimal.is_zero x).
  - eexists. split; [reflexivity|]. now rewrite fix_dneg.
  - cbv zeta. destruct (_ && _); eexists; (split; [reflexivity|]);
      now rewrite fix_dneg.
Qed.

(** X12. On a column of numbers with at least one row, [mean()],
    [variance()] and [stdev()] return [Decimal] numbers, also when the cells
    are integers, and neither the variance nor the standard deviation is
    negative. *)
Theorem X12_variance_is_not_negative h self t idx rows data :
  col_state h self t idx rows data ->
  List.Forall (fun v => is_number v = true) data -> data <> [] ->
  exists m v s,
    snd (NumberColumn.mean self h) = Ok (VDec m)
    /\ snd (NumberColumn.variance self h) = Ok (VDec v)
    /\ snd (NumberColumn.stdev self h) = Ok (VDec s)
    /\ dneg v = false /\ dneg s = false.
Proof.
  intros Hcs Hnum Hne.
  assert (Hnum' : Forall (fun v => is_number v = true) data).
  { apply Forall_forall. intros v Hv. rewrite List.Forall_forall in Hnum.
    now apply Hnum, list_elem_of_In. }
  assert (Hnn : existsb is_none data = false).
  { clear -Hnum. induction Hnum as [|v data Hv _ IH]; [reflexivity|].
    cbn. rewrite IH. now destruct v. }
  destruct (mean_returns _ _ _ _ _ h Hcs) as (h1 & E1 & _).
  destruct (variance_returns _ _ _ _ _ h Hcs) as (h2 & E2 & _).
  destruct (stdev_returns _ _ _ _ _ h Hcs) as (h3 & E3 & _).
  destruct (mean_of_numbers data Hnum' Hne Hnn) as (m & Hm).
  destruct (variance_of_numbers data Hnum' Hne Hnn) as (v & Hv & Hsign).
  destruct (sqrt_of_nonneg v Hsign) as (s & Hs & Hssign).
  exists m, v, s. rewrite E1, E2, E3. cbn [snd].
  split; [exact Hm|]. split; [exact Hv|]. split; [|now split].
  unfold stdev_of, guard_nulls. rewrite Hnn, Hv. cbn [result_bind].
  now rewrite Hs.
Qed.

Lemma X12_variance_is_not_negative_witness :
  let col := [VInt 1; VInt 2; VInt 4] in
  let h := fst (example_column col) in
  let self := snd (example_column col) in
  exists m v s,
    snd (NumberColumn.mean self h) = Ok (VDec m)
    /\ snd (NumberColumn.variance self h) = Ok (VDec v)
    /\ snd (NumberColumn.stdev self h) = Ok (VDec s)
    /\ dneg v = false /\ dneg s = false.
Proof.
  intros col h self.
  apply (X12_variance_is_not_negative h self (snd (example_table col)) 1
           [[VStr "r"; VInt 1]; [VStr "r"; VInt 2]; [VStr "r"; VInt 4]] col).
  - example_state.
  - repeat constructor.
  - discriminate.
Defined.

(** ** [validate] *)

Lemma forM_check_ok {A} (bad : A -> bool) (e : A -> exn) xs (h : heap) :
  List.Forall (fun d => bad d = false) xs ->
  forM_ xs (fun d => if bad d then raise (e d) else ret tt) h = (h, Ok tt).
Proof.
  induction 1 as [|d xs Hd _ IH]; cbn [forM_]; [reflexivity|].
  unfold bind. rewrite Hd. exact IH.
Qed.

Lemma forM_check_raise {A} (bad : A -> bool) (e : A -> exn) pre d post (h : heap) :
  List.Forall (fun d => bad d = false) pre ->
  bad d = true ->
  forM_ (pre ++ d :: post) (fun d => if bad d then raise (e d) else ret tt) h
  = (h, Raise (e d)).
Proof.
  intros Hpre Hd. induction Hpre as [|x pre Hx _ IH]; cbn [app forM_].
  - unfold bind. now rewrite Hd.
  - unfold bind. rewrite Hx. exact IH.
Qed.

Lemma validate_run (ok : value -> bool) h self t idx rows data :
  col_state h self t idx rows data ->
  exists h1,
    (d <- Column._data self ;;
     xs <- read_values d ;;
     forM_ xs (fun d =>
       if negb (ok d) && negb (is_none d)
       then raise (ColumnValidationError d self)
       else ret tt)) h
    = forM_ data (fun d =>
        if negb (ok d) && negb (is_none d)
        then raise (ColumnValidationError d self)
        else ret tt) h1.
Proof.
  intros Hcs. destruct (_data_spec _ _ _ _ _ _ Hcs) as (h1 & l & E & Hl & _).
  exists h1. rewrite (bind_ok _ _ _ _ _ E).
  now rewrite (bind_ok _ _ _ _ _ (read_values_ok _ _ _ Hl)).
Qed.

Lemma validate_spec (ok : value -> bool) h self t idx rows data :
  col_state h self t idx rows data ->
  let validate :=
    d <- Column._data self ;;
    xs <- read_values d ;;
    forM_ xs (fun d =>
      if negb (ok d) && negb (is_none d)
      then raise (ColumnValidationError d self)
      else ret tt) in
  (List.Forall (fun d => ok d = true \/ d = VNone) data ->
     snd (validate h) = Ok tt)
  /\ (forall pre d post, data = pre ++ d :: post ->
        List.Forall (fun d => ok d = true \/ d = VNone) pre ->
        ok d = false -> d <> VNone ->
        snd (validate h) = Raise (ColumnValidationError d self)).
Proof.
  intros Hcs validate.
  destruct (validate_run ok _ _ _ _ _ _ Hcs) as (h1 & E).
  assert (Hgood : forall l, List.Forall (fun d => ok d = true \/ d = VNone) l ->
            List.Forall (fun d => negb (ok d) && negb (is_none d) = false) l).
  { intros l Hl. eapply List.Forall_impl; [|exact Hl].
    intros d [->| ->]; [reflexivity|apply andb_false_r]. }
  split.
  - intros Hall. unfold validate. rewrite E.
    now rewrite (forM_check_ok _ _ _ _ (Hgood _ Hall)).
  - intros pre d post -> Hpre Hd Hnn. unfold validate. rewrite E.
    rewrite (forM_check_raise _ (fun d => ColumnValidationError d self)
               pre d post h1 (Hgood _ Hpre)); [reflexivity|].
    rewrite Hd. now destruct d.
Qed.

(** X13. [validate()] of [TextColumn] and of [DecimalColumn].  It returns
    when every cell is of the type of the column (text, resp. [Decimal]) or
    null; otherwise it raises [ColumnValidationError] with the first cell
    that is neither, and with the column itself. *)
Theorem X13_validate h self t idx rows data :
  col_state h self t idx rows data ->
  List.Forall (fun p : (loc -> M unit) * (value -> bool) =>
     (List.Forall (fun d => snd p d = true \/ d = VNone) data ->
        snd (fst p self h) = Ok tt)
     /\ (forall pre d post, data = pre ++ d :: post ->
           List.Forall (fun d => snd p d = true \/ d = VNone) pre ->
           snd p d = false -> d <> VNone ->
           snd (fst p self h) = Raise (ColumnValidationError d self)))
    [ (TextColumn.validate, is_basestring);
      (DecimalColumn.validate, is_Decimal) ].
Proof.
  intros Hcs.
  apply List.Forall_cons; [|apply List.Forall_cons; [|apply List.Forall_nil]].
  - exact (validate_spec is_basestring _ _ _ _ _ _ Hcs).
  - exact (validate_spec is_Decimal _ _ _ _ _ _ Hcs).
Qed.

Lemma X13_validate_witness :
  let col := [VStr "a"; VNone; VInt 3; VDec (Dec false 1 0)] in
  let h := fst (example_column col) in
  let self := snd (example_column col) in
  List.Forall (fun p : (loc -> M unit) * (value -> bool) =>
     (List.Forall (fun d => snd p d = true \/ d = VNone) col ->
        snd (fst p self h) = Ok tt)
     /\ (forall pre d post, col = pre ++ d :: post ->
           List.Forall (fun d => snd p d = true \/ d = VNone) pre ->
           snd p d = false -> d <> VNone ->
           snd (fst p self h) = Raise (ColumnValidationError d self)))
    [ (TextColumn.validate, is_basestring);
      (DecimalColumn.validate, is_Decimal) ].
Proof.
  intros col h self.
  apply (X13_validate h self (snd (example_table col)) 1
           [[VStr "r"; VStr "a"]; [VStr "r"; VNone]; [VStr "r"; VInt 3];
            [VStr "r"; VDec (Dec false 1 0)]] col).
  example_state.
Defined.

(** ** What the casts return *)

Lemma cast_run (f : value -> result value) h self t idx rows data :
  col_state h self t idx rows data ->
  exists h1,
    (d <- Column._data self ;;
     xs <- read_values d ;;
     traverse (fun d => lift (f d)) xs) h
    = traverse (fun d => lift (f d)) data h1.
Proof.
  intros Hcs. destruct (_data_spec _ _ _ _ _ _ Hcs) as (h1 & l & E & Hl & _).
  exists h1. rewrite (bind_ok _ _ _ _ _ E).
  now rewrite (bind_ok _ _ _ _ _ (read_values_ok _ _ _ Hl)).
Qed.

Lemma traverse_lift_inv {A B} (f : A -> result B) xs : forall out (h h' : heap),
  traverse (fun d => lift (f d)) xs h = (h', Ok out) ->
  Forall2 (fun d v => f d = Ok v) xs out.
Proof.
  induction xs as [|x xs IH]; intros out h h' E; cbn [traverse] in E.
  - injection E as _ <-. constructor.
  - apply bind_inv in E as (h1 & b & Eb & E).
    apply bind_inv in E as (h2 & bs & Ebs & E). injection E as _ <-.
    constructor; [|eapply IH; exact Ebs].
    unfold lift in Eb. congruence.
Qed.

Lemma cast_inv (f : value -> result value) h self t idx rows data out :
  col_state h self t idx rows data ->
  snd ((d <- Column._data self ;;
        xs <- read_values d ;;
        traverse (fun d => lift (f d)) xs) h) = Ok out ->
  Forall2 (fun d v => f d = Ok v) data out.
Proof.
  intros Hcs E. destruct (cast_run f _ _ _ _ _ _ Hcs) as (h1 & E1).
  rewrite E1 in E.
  destruct (traverse (fun d => lift (f d)) data h1) as [h2 r] eqn:E2.
  cbn in E. subst r. eapply traverse_lift_inv. exact E2.
Qed.

Lemma cast_ok (f : value -> result value) h self t idx rows data out :
  col_state h self t idx rows data ->
  Forall2 (fun d v => f d = Ok v) data out ->
  snd ((d <- Column._data self ;;
        xs <- read_values d ;;
        traverse (fun d => lift (f d)) xs) h) = Ok out.
Proof.
  intros Hcs Hout. destruct (cast_run f _ _ _ _ _ _ Hcs) as (h1 & E1).
  rewrite E1. now rewrite (traverse_lift_ok f data out h1 Hout).
Qed.

Lemma text_cast_inv h self t idx rows data out :
  col_state h self t idx rows data ->
  snd (TextColumn._cast self h) = Ok out ->
  out = List.map TextColumn.cast_value data.
Proof.
  intros Hcs E. destruct (_data_spec _ _ _ _ _ _ Hcs) as (h1 & l & E1 & Hl & _).
  unfold TextColumn._cast in E. rewrite (bind_ok _ _ _ _ _ E1) in E.
  rewrite (bind_ok _ _ _ _ _ (read_values_ok _ _ _ Hl)) in E.
  cbn in E. congruence.
Qed.

Lemma text_cast_value_valid d :
  is_basestring (TextColumn.cast_value d) = true \/ TextColumn.cast_value d = VNone.
Proof. unfold TextColumn.cast_value. destruct (py_eq d _); auto. Qed.

Lemma decimal_cast_value_valid d v :
  DecimalColumn.cast_value d = Ok v -> is_Decimal v = true \/ v = VNone.
Proof.
  unfold DecimalColumn.cast_value. destruct (_ || _); [intros [= <-]; auto|].
  destruct (py_Decimal _); cbn; [intros [= <-]; auto|discriminate].
Qed.

(** X14. What [_cast] returns passes [validate].  The list that
    [TextColumn._cast], resp. [DecimalColumn._cast], returns has one value
    for every cell, and a column of the same class that holds these values
    is valid. *)
Theorem X14_cast_values_are_valid
    h self t idx rows data out h' self' t' idx' rows' :
  col_state h self t idx rows data ->
  col_state h' self' t' idx' rows' out ->
  List.Forall (fun p : (loc -> M (list value)) * (loc -> M unit) =>
     snd (fst p self h) = Ok out ->
     length out = length data /\ snd (snd p self' h') = Ok tt)
    [ (TextColumn._cast, TextColumn.validate);
      (DecimalColumn._cast, DecimalColumn.validate) ].
Proof.
  intros Hcs Hcs'.
  apply List.Forall_cons; [|apply List.Forall_cons; [|apply List.Forall_nil]];
    cbn [fst snd]; intros E.
  - apply (text_cast_inv _ _ _ _ _ _ _ Hcs) in E. subst out.
    split; [apply length_map|].
    apply (validate_spec is_basestring _ _ _ _ _ _ Hcs').
    apply List.Forall_forall. intros v Hv.
    apply List.in_map_iff in Hv as (d & <- & _). apply text_cast_value_valid.
  - apply (cast_inv DecimalColumn.cast_value _ _ _ _ _ _ _ Hcs) in E.
    split; [symmetry; exact (Forall2_length _ _ _ E)|].
    apply (validate_spec is_Decimal _ _ _ _ _ _ Hcs').
    clear -E. induction E as [|d v data out Hd _ IH]; constructor; [|exact IH].
    eapply decimal_cast_value_valid. exact Hd.
Qed.

Lemma X14_cast_values_are_valid_witness :
  let col := [VStr " 1,234.50 "; VNone; VInt 3; VStr ""] in
  let out := [VDec (Dec false 123450 (-2)); VNone; VDec (Dec false 3 0); VNone] in
  snd (DecimalColumn._cast (snd (example_column col)) (fst (example_column col)))
  = Ok out
  /\ length out = length col
  /\ snd (DecimalColumn.validate (snd (example_column out)) (fst (example_column out)))
     = Ok tt.
Proof.
  intros col out.
  assert (E : snd (DecimalColumn._cast (snd (example_column col))
                     (fst (example_column col))) = Ok out)
    by (vm_compute; reflexivity).
  split; [exact E|].
  assert (H := X14_cast_values_are_valid
            (fst (example_column col)) (snd (example_column col))
            (snd (example_table col)) 1
            [[VStr "r"; VStr " 1,234.50 "]; [VStr "r"; VNone];
             [VStr "r"; VInt 3]; [VStr "r"; VStr ""]] col out
            (fst (example_column out)) (snd (example_column out))
            (snd (example_table out)) 1
            [[VStr "r"; VDec (Dec false 123450 (-2))]; [VStr "r"; VNone];
             [VStr "r"; VDec (Dec false 3 0)]; [VStr "r"; VNone]]
            ltac:(example_state) ltac:(example_state)).
  apply List.Forall_cons_iff in H as [_ H].
  apply List.Forall_cons_iff in H as [H _].
  exact (H E).
Defined.

(** ** Casting twice *)

Lemma int_cast_value_fixed d v :
  IntColumn.cast_value d = Ok v -> IntColumn.cast_value v = Ok v.
Proof.
  unfold IntColumn.cast_value. destruct (_ || _); [now intros [= <-]|].
  destruct (py_int _); cbn; [now intros [= <-]|discriminate].
Qed.

Lemma decimal_cast_value_fixed d v :
  DecimalColumn.cast_value d = Ok v -> DecimalColumn.cast_value v = Ok v.
Proof.
  unfold DecimalColumn.cast_value. destruct (_ || _); [now intros [= <-]|].
  destruct (py_Decimal _); cbn; [now intros [= <-]|discriminate].
Qed.

(** X15. The casts of the two numeric classes change nothing when they are
    applied a second time: a column that holds the values [IntColumn._cast],
    resp. [DecimalColumn._cast], has returned is cast to these same
    values.  ([TextColumn._cast] is different: it turns the null it has
    made of an empty text into the text "None".) *)
Theorem X15_numeric_casts_are_idempotent
    h self t idx rows data out h' self' t' idx' rows' :
  col_state h self t idx rows data ->
  col_state h' self' t' idx' rows' out ->
  List.Forall (fun _cast : loc -> M (list value) =>
     snd (_cast self h) = Ok out -> snd (_cast self' h') = Ok out)
    [ IntColumn._cast; DecimalColumn._cast ].
Proof.
  intros Hcs Hcs'.
  apply List.Forall_cons; [|apply List.Forall_cons; [|apply List.Forall_nil]];
    intros E.
  - apply (cast_inv IntColumn.cast_value _ _ _ _ _ _ _ Hcs) in E.
    apply (cast_ok IntColumn.cast_value _ _ _ _ _ _ _ Hcs').
    clear -E. induction E as [|d v data out Hd _ IH]; constructor; [|exact IH].
    eapply int_cast_value_fixed. exact Hd.
  - apply (cast_inv DecimalColumn.cast_value _ _ _ _ _ _ _ Hcs) in E.
    apply (cast_ok DecimalColumn.cast_value _ _ _ _ _ _ _ Hcs').
    clear -E. induction E as [|d v data out Hd _ IH]; constructor; [|exact IH].
    eapply decimal_cast_value_fixed. exact Hd.
Qed.

Lemma X15_numeric_casts_are_idempotent_witness :
  let col := [VStr " 1,234 "; VNone; VDec (Dec true 37 (-1)); VStr ""] in
  let out := [VInt 1234; VNone; VInt (-3); VNone] in
  snd (IntColumn._cast (snd (example_column col)) (fst (example_column col)))
  = Ok out
  /\ snd (IntColumn._cast (snd (example_column out)) (fst (example_column out)))
     = Ok out.
Proof.
  intros col out.
  assert (E : snd (IntColumn._cast (snd (example_column col))
                     (fst (example_column col))) = Ok out)
    by (vm_compute; reflexivity).
  split; [exact E|].
  assert (H := X15_numeric_casts_are_idempotent
            (fst (example_column col)) (snd (example_column col))
            (snd (example_table col)) 1
            [[VStr "r"; VStr " 1,234 "]; [VStr "r"; VNone];
             [VStr "r"; VDec (Dec true 37 (-1))]; [VStr "r"; VStr ""]] col out
            (fst (example_column out)) (snd (example_column out))
            (snd (example_table out)) 1
            [[VStr "r"; VInt 1234]; [VStr "r"; VNone];
             [VStr "r"; VInt (-3)]; [VStr "r"; VNone]]
            ltac:(example_state) ltac:(example_state)).
  apply List.Forall_cons_iff in H as [H _].
  exact (H E).
Defined.

(** ** The text of an integer, read back *)

Lemma digit_char_spec n :
  (n < 10)%N ->
  Str.is_digit (Str.digit_char n) = true
  /\ (N_of_ascii (Str.digit_char n) - 48 = n)%N.
Proof.
  intros Hn. unfold Str.is_digit, Str.digit_char.
  rewrite N_ascii_embedding by lia. split; [|lia].
  apply andb_true_intro. split; apply N.leb_le; lia.
Qed.

Lemma append_cons a (s1 s2 : string) :
  append (String a s1) s2 = String a (append s1 s2).
Proof. reflexivity. Qed.

Lemma append_nil (s : string) : append EmptyString s = s.
Proof. reflexivity. Qed.

Lemma string_app_assoc (s1 s2 s3 : string) :
  append (append s1 s2) s3 = append s1 (append s2 s3).
Proof.
  induction s1 as [|a s1 IH]; [reflexivity|].
  now rewrite !append_cons, IH.
Qed.

Lemma string_app_nil_r (s : string) : append s EmptyString = s.
Proof.
  induction s as [|a s IH]; [reflexivity|]. now rewrite append_cons, IH.
Qed.

Lemma of_N_fuel_acc fuel : forall n acc,
  Str.of_N_fuel fuel n acc = append (Str.of_N_fuel fuel n EmptyString) acc.
Proof.
  induction fuel as [|fuel IH]; intros n acc; cbn [Str.of_N_fuel]; [reflexivity|].
  destruct (n <? 10)%N; [reflexivity|].
  rewrite (IH _ (String _ acc)), (IH _ (String _ EmptyString)).
  now rewrite string_app_assoc.
Qed.

Lemma digits_value_app s1 : forall acc s2,
  Str.digits_value acc (append s1 s2)
  = Str.digits_value (Str.digits_value acc s1) s2.
Proof.
  induction s1 as [|a s1 IH]; intros acc s2; [reflexivity|].
  rewrite append_cons. cbn [Str.digits_value]. apply IH.
Qed.

Lemma digits_only_app s1 s2 :
  digits_only s1 -> digits_only s2 -> digits_only (append s1 s2).
Proof.
  unfold digits_only. induction s1 as [|a s1 IH]; [auto|].
  rewrite append_cons. cbn [list_ascii_of_string].
  intros H1 H2. inversion H1; subst. constructor; auto.
Qed.

Lemma of_N_fuel_spec fuel : forall n,
  (N.log2 n <= N.of_nat fuel)%N ->
  digits_only (Str.of_N_fuel fuel n EmptyString)
  /\ Str.digits_value 0 (Str.of_N_fuel fuel n EmptyString) = n
  /\ Str.of_N_fuel fuel n EmptyString <> EmptyString.
Proof.
  induction fuel as [|fuel IH]; intros n Hlog.
  - assert (Hn : (n < 2)%N).
    { destruct (N.ltb_spec n 2) as [|H2]; [assumption|].
      apply N.log2_le_mono in H2. cbn in H2. lia. }
    cbn [Str.of_N_fuel]. rewrite N.mod_small by lia.
    destruct (digit_char_spec n) as [Hd Hv]; [lia|].
    split; [|split]; [repeat constructor; exact Hd| |discriminate].
    cbn. lia.
  - cbn [Str.of_N_fuel]. destruct (N.ltb_spec n 10) as [Hlt|Hge].
    + destruct (digit_char_spec n Hlt) as [Hd Hv].
      split; [|split]; [repeat constructor; exact Hd| |discriminate].
      cbn. lia.
    + rewrite of_N_fuel_acc.
      pose proof (log2_div10 n Hge) as Hl.
      destruct (IH (n / 10)%N) as (Hds & Hval & Hne); [lia|].
      destruct (digit_char_spec (n mod 10)%N) as [Hd Hv].
      { apply N.mod_lt. lia. }
      split; [|split].
      * apply digits_only_app; [exact Hds|repeat constructor; exact Hd].
      * rewrite digits_value_app, Hval. cbn.
        pose proof (N.div_mod n 10 ltac:(lia)). lia.
      * destruct (Str.of_N_fuel fuel (n / 10) EmptyString); [congruence|discriminate].
Qed.

Lemma of_N_spec n :
  digits_only (Str.of_N n)
  /\ Str.digits_value 0 (Str.of_N n) = n
  /\ Str.of_N n <> EmptyString.
Proof. apply of_N_fuel_spec. rewrite N2Nat.id. apply N.le_refl. Qed.

Lemma digit_plain a :
  Str.is_digit a = true ->
  Str.is_space a = false /\ Ascii.eqb a "," = false
  /\ Ascii.eqb a "-" = false /\ Ascii.eqb a "+" = false.
Proof.
  unfold Str.is_digit, Str.is_space. intros H.
  apply andb_prop in H as [H1 H2]. apply N.leb_le in H1, H2.
  split; [|split; [|split]].
  - apply orb_false_intro; [apply N.eqb_neq; lia|].
    apply andb_false_intro2. apply N.leb_gt. lia.
  - apply Ascii.eqb_neq. intros ->. cbn in H1. lia.
  - apply Ascii.eqb_neq. intros ->. cbn in H1. lia.
  - apply Ascii.eqb_neq. intros ->. cbn in H1. lia.
Qed.

Lemma span_digits_all s : digits_only s -> Str.span_digits s = (s, EmptyString).
Proof.
  unfold digits_only. induction s as [|a s IH]; cbn; [reflexivity|].
  intros H. inversion H as [|? ? Ha Hs]; subst. rewrite Ha, (IH Hs). reflexivity.
Qed.

Lemma remove_char_none c s :
  List.Forall (fun a => Ascii.eqb a c = false) (list_ascii_of_string s) ->
  Str.remove_char c s = s.
Proof.
  induction s as [|a s IH]; cbn; [reflexivity|].
  intros H. inversion H as [|? ? Ha Hs]; subst. now rewrite Ha, (IH Hs).
Qed.

Lemma rstrip_none s :
  List.Forall (fun a => Str.is_space a = false) (list_ascii_of_string s) ->
  Str.rstrip s = s.
Proof.
  induction s as [|a s IH]; cbn; [reflexivity|].
  intros H. inversion H as [|? ? Ha Hs]; subst. rewrite (IH Hs), Ha.
  now destruct s.
Qed.

Lemma strip_none s :
  List.Forall (fun a => Str.is_space a = false) (list_ascii_of_string s) ->
  Str.strip s = s.
Proof.
  intros H. unfold Str.strip.
  assert (Hl : Str.lstrip s = s).
  { destruct s as [|a s]; [reflexivity|]. cbn. inversion H; subst.
    now match goal with Ha : Str.is_space a = false |- _ => rewrite Ha end. }
  rewrite Hl. now apply rstrip_none.
Qed.

(** The characters of [str(n)]: no blank and no comma. *)
Lemma of_Z_plain n :
  List.Forall (fun a => Str.is_space a = false) (list_ascii_of_string (Str.of_Z n))
  /\ List.Forall (fun a => Ascii.eqb a "," = false)
       (list_ascii_of_string (Str.of_Z n))
  /\ Str.of_Z n <> EmptyString.
Proof.
  destruct (of_N_spec (Z.abs_N n)) as (Hd & _ & Hne).
  assert (H1 : List.Forall (fun a => Str.is_space a = false)
                 (list_ascii_of_string (Str.of_N (Z.abs_N n)))).
  { eapply List.Forall_impl; [|exact Hd]. intros a Ha. now apply digit_plain. }
  assert (H2 : List.Forall (fun a => Ascii.eqb a "," = false)
                 (list_ascii_of_string (Str.of_N (Z.abs_N n)))).
  { eapply List.Forall_impl; [|exact Hd]. intros a Ha. now apply digit_plain. }
  unfold Str.of_Z. destruct (n <? 0).
  - split; [|split]; [constructor; [reflexivity|exact H1]
                     |constructor; [reflexivity|exact H2]|discriminate].
  - now split; [|split].
Qed.

Lemma take_sign_of_Z n :
  Str.take_sign (Str.of_Z n) = (n <? 0, Str.of_N (Z.abs_N n)).
Proof.
  unfold Str.of_Z. destruct (n <? 0); [reflexivity|].
  destruct (of_N_spec (Z.abs_N n)) as (Hd & _ & Hne).
  destruct (Str.of_N (Z.abs_N n)) as [|a s]; [congruence|].
  inversion Hd as [|? ? Ha _]; subst.
  destruct (digit_plain a Ha) as (_ & _ & Hm & Hp).
  apply Ascii.eqb_neq in Hm, Hp. unfold Str.take_sign.
  destruct a as [[] [] [] [] [] [] [] []]; try reflexivity; congruence.
Qed.

Lemma int_of_string_of_Z n : int_of_string (Str.of_Z n) = Ok n.
Proof.
  destruct (of_Z_plain n) as (Hsp & _ & _).
  destruct (of_N_spec (Z.abs_N n)) as (Hd & Hv & Hne).
  unfold int_of_string. rewrite (strip_none _ Hsp), take_sign_of_Z.
  rewrite (span_digits_all _ Hd), Hv.
  destruct (Str.of_N (Z.abs_N n)); [congruence|].
  f_equal. destruct (Z.ltb_spec n 0); lia.
Qed.

Lemma decimal_of_string_of_Z n :
  decimal_of_string (Str.of_Z n) = Ok (Decimal.of_int n).
Proof.
  destruct (of_Z_plain n) as (Hsp & _ & _).
  destruct (of_N_spec (Z.abs_N n)) as (Hd & Hv & Hne).
  unfold decimal_of_string. rewrite (strip_none _ Hsp), take_sign_of_Z.
  rewrite (span_digits_all _ Hd). cbn [Str.span_digits].
  rewrite string_app_nil_r, Hv.
  destruct (Str.of_N (Z.abs_N n)); [congruence|]. reflexivity.
Qed.

Lemma strip_separators_of_Z n :
  strip_separators (VStr (Str.of_Z n)) = VStr (Str.of_Z n).
Proof.
  destruct (of_Z_plain n) as (Hsp & Hc & _). cbn.
  now rewrite (remove_char_none _ _ Hc), (strip_none _ Hsp).
Qed.

Lemma text_of_int n : TextColumn.cast_value (VInt n) = VStr (Str.of_Z n).
Proof. reflexivity. Qed.

Lemma int_of_text_of_int n :
  IntColumn.cast_value (VStr (Str.of_Z n)) = Ok (VInt n).
Proof.
  unfold IntColumn.cast_value. rewrite strip_separators_of_Z.
  destruct (of_Z_plain n) as (_ & _ & Hne).
  cbn [py_eq is_none orb py_int].
  assert (Hnz : String.eqb (Str.of_Z n) "" = false)
    by (destruct (Str.of_Z n); [congruence|reflexivity]).
  rewrite Hnz. cbn [orb]. now rewrite int_of_string_of_Z.
Qed.

Lemma decimal_of_text_of_int n :
  DecimalColumn.cast_value (VStr (Str.of_Z n)) = Ok (VDec (Decimal.of_int n)).
Proof.
  unfold DecimalColumn.cast_value. rewrite strip_separators_of_Z.
  destruct (of_Z_plain n) as (_ & _ & Hne).
  cbn [py_eq is_none orb py_Decimal].
  assert (Hnz : String.eqb (Str.of_Z n) "" = false)
    by (destruct (Str.of_Z n); [congruence|reflexivity]).
  rewrite Hnz. cbn [orb]. now rewrite decimal_of_string_of_Z.
Qed.

(** X16. Integers survive the passage through text.  [TextColumn._cast]
    turns a column of integers into their decimal numerals, and a column
    that holds these numerals is cast back to the same integers by
    [IntColumn._cast], and to the [Decimal] numbers of the same values by
    [DecimalColumn._cast], whatever the size and the sign of the
    integers. *)
Theorem X16_integers_survive_text
    h self t idx rows zs out h' self' t' idx' rows' :
  col_state h self t idx rows (List.map VInt zs) ->
  snd (TextColumn._cast self h) = Ok out ->
  col_state h' self' t' idx' rows' out ->
  out = List.map (fun z => VStr (Str.of_Z z)) zs
  /\ snd (IntColumn._cast self' h') = Ok (List.map VInt zs)
  /\ snd (DecimalColumn._cast self' h')
     = Ok (List.map (fun z => VDec (Decimal.of_int z)) zs).
Proof.
  intros Hcs E Hcs'.
  apply (text_cast_inv _ _ _ _ _ _ _ Hcs) in E.
  rewrite List.map_map in E. cbn in E.
  assert (Hout : out = List.map (fun z => VStr (Str.of_Z z)) zs).
  { rewrite E. apply List.map_ext. intros z. apply text_of_int. }
  split; [exact Hout|]. clear E. subst out. split.
  - apply (cast_ok IntColumn.cast_value _ _ _ _ _ _ _ Hcs').
    clear. induction zs as [|z zs IH]; cbn; constructor;
      [apply int_of_text_of_int|exact IH].
  - apply (cast_ok DecimalColumn.cast_value _ _ _ _ _ _ _ Hcs').
    clear. induction zs as [|z zs IH]; cbn; constructor;
      [apply decimal_of_text_of_int|exact IH].
Qed.

Lemma X16_integers_survive_text_witness :
  let zs := [-1234567; 0; 10 ^ 30] in
  let col := List.map VInt zs in
  let out := [VStr "-1234567"; VStr "0"; VStr "1000000000000000000000000000000"] in
  out = List.map (fun z => VStr (Str.of_Z z)) zs
  /\ snd (IntColumn._cast (snd (example_column out)) (fst (example_column out)))
     = Ok (List.map VInt zs)
  /\ snd (DecimalColumn._cast (snd (example_column out)) (fst (example_column out)))
     = Ok (List.map (fun z => VDec (Decimal.of_int z)) zs).
Proof.
  intros zs col out.
  apply (X16_integers_survive_text
           (fst (example_column col)) (snd (example_column col))
           (snd (example_table col)) 1
           [[VStr "r"; VInt (-1234567)]; [VStr "r"; VInt 0];
            [VStr "r"; VInt (10 ^ 30)]] zs out
           (fst (example_column out)) (snd (example_column out))
           (snd (example_table out)) 1
           [[VStr "r"; VStr "-1234567"]; [VStr "r"; VStr "0"];
            [VStr "r"; VStr "1000000000000000000000000000000"]]).
  - example_state.
  - vm_compute. reflexivity.
  - example_state.
Defined.

(** ** The proxies: [ColumnMapping] and [ColumnIterator] *)

Lemma py_in_text s names :
  py_in (VStr s) names = true <-> In s names.
Proof.
  unfold py_in. rewrite existsb_exists. split.
  - intros (n & Hn & E). cbn in E. apply String.eqb_eq in E. now subst.
  - intros H. exists s. split; [exact H|]. cbn. apply String.eqb_refl.
Qed.

Lemma py_in_not_text k names :
  (forall s, k <> VStr s) -> py_in k names = false.
Proof.
  intros Hk. unfold py_in. induction names as [|n names IH]; [reflexivity|].
  cbn [existsb]. rewrite IH. destruct k; try reflexivity. now destruct (Hk s).
Qed.

Lemma py_list_index_first s names : forall i,
  names !! i = Some s ->
  (forall j, (j < i)%nat -> names !! j <> Some s) ->
  py_list_index names (VStr s) = Ok (Z.of_nat i).
Proof.
  induction names as [|n names IH]; intros i Hi Hfirst; [discriminate|].
  cbn [py_list_index py_eq]. destruct i as [|i].
  - injection Hi as ->. now rewrite String.eqb_refl.
  - destruct (String.eqb_spec n s) as [->|Hne].
    + exfalso. apply (Hfirst 0%nat); [lia|reflexivity].
    + rewrite (IH i).
      * cbn. f_equal. lia.
      * exact Hi.
      * intros j Hj. apply (Hfirst (S j)). lia.
Qed.

(** X17. Access to a column by name.  [ColumnMapping.__getitem__(k)] raises
    [KeyError], without asking the table for a column and without changing
    anything, when [k] is not the name of a column (a key that is not text
    never is); otherwise it is the call of the column factory of the table
    at the first position that holds the name [k]. *)
Theorem X17_column_by_name (_get_column : column_factory) h t names k :
  h !! Table._column_names t = Some (ONames names) ->
  let self := ColumnMapping.__init__ t in
  ((forall s, k = VStr s -> ~ In s names) ->
     ColumnMapping.__getitem__ _get_column self k h = (h, Raise KeyError))
  /\ (forall s i, k = VStr s -> names !! i = Some s ->
        (forall j, (j < i)%nat -> names !! j <> Some s) ->
        ColumnMapping.__getitem__ _get_column self k h
        = _get_column t (Z.of_nat i) h).
Proof.
  intros Hnames self. unfold ColumnMapping.__getitem__. cbn [ColumnMapping._table self ColumnMapping.__init__].
  rewrite (bind_ok _ _ _ _ _ (read_names_ok _ _ _ Hnames)). split.
  - intros Hk. assert (E : py_in k names = false).
    { destruct k as [| |s|]; try (apply py_in_not_text; discriminate).
      destruct (py_in (VStr s) names) eqn:E; [|reflexivity].
      apply py_in_text in E. now destruct (Hk s eq_refl). }
    now rewrite E.
  - intros s i -> Hi Hfirst.
    assert (E : py_in (VStr s) names = true).
    { apply py_in_text. apply list_elem_of_In, list_elem_of_lookup. eauto. }
    rewrite E. cbn [negb].
    rewrite (bind_ok _ _ _ _ _ (read_names_ok _ _ _ Hnames)).
    unfold bind at 1. unfold lift.
    now rewrite (py_list_index_first s names i Hi Hfirst).
Qed.

Lemma X17_column_by_name_witness :
  let h := fst (example_table [VInt 1]) in
  let t := snd (example_table [VInt 1]) in
  let self := ColumnMapping.__init__ t in
  ((forall s, VStr "n" = VStr s -> ~ In s ["name"; "n"]%string) ->
     ColumnMapping.__getitem__ Column.__init__ self (VStr "n") h
     = (h, Raise KeyError))
  /\ (forall s i, VStr "n" = VStr s -> ["name"; "n"]%string !! i = Some s ->
        (forall j, (j < i)%nat -> ["name"; "n"]%string !! j <> Some s) ->
        ColumnMapping.__getitem__ Column.__init__ self (VStr "n") h
        = Column.__init__ t (Z.of_nat i) h).
Proof.
  intros h t self.
  apply (X17_column_by_name Column.__init__ h t ["name"; "n"]%string (VStr "n")).
  vm_compute. reflexivity.
Defined.

(** ** Iteration *)

Lemma next_in_range (_get_column : column_factory) (h : heap) t names i :
  h !! Table._column_names t = Some (ONames names) ->
  (i < length names)%nat ->
  ColumnIterator.next _get_column (ColumnIterator.Make t (Z.of_nat i)) h
  = (column <- _get_column t (Z.of_nat i) ;;
     ret (ColumnIterator.Make t (Z.of_nat (S i)), column)) h.
Proof.
  intros Hnames Hi. unfold ColumnIterator.next.
  cbn [ColumnIterator._table ColumnIterator._i].
  rewrite (bind_ok _ _ _ _ _ (read_names_ok _ _ _ Hnames)).
  destruct (py_index_in_range names (Z.of_nat i)) as (n & -> & _); [lia|].
  replace (Z.of_nat i + 1) with (Z.of_nat (S i)) by lia. reflexivity.
Qed.

Lemma next_exhausted (_get_column : column_factory) (h : heap) t names i :
  h !! Table._column_names t = Some (ONames names) ->
  Z.of_nat (length names) <= i ->
  ColumnIterator.next _get_column (ColumnIterator.Make t i) h
  = (h, Raise StopIteration).
Proof.
  intros Hnames Hi. unfold ColumnIterator.next.
  cbn [ColumnIterator._table ColumnIterator._i].
  rewrite (bind_ok _ _ _ _ _ (read_names_ok _ _ _ Hnames)).
  unfold py_index. destruct (Z.ltb_spec i 0); [lia|].
  destruct (Z.leb_spec 0 i); [|lia].
  destruct (Z.ltb_spec i (Z.of_nat (length names))); [lia|]. reflexivity.
Qed.

Lemma nexts_walk (_get_column : column_factory) t names :
  (forall i (h : heap), h !! Table._column_names t = Some (ONames names) ->
     fst (_get_column t i h) !! Table._column_names t = Some (ONames names)) ->
  forall n i (h : heap),
    h !! Table._column_names t = Some (ONames names) ->
    (i + n <= length names)%nat ->
    nexts _get_column n (ColumnIterator.Make t (Z.of_nat i)) h
    = (cols <- traverse (_get_column t) (List.map Z.of_nat (seq i n)) ;;
       ret (ColumnIterator.Make t (Z.of_nat (i + n)), cols)) h.
Proof.
  intros Hkeep. induction n as [|n IH]; intros i h Hnames Hin.
  - cbn. now rewrite Nat.add_0_r.
  - cbn [nexts seq List.map traverse].
    pose proof (Hkeep (Z.of_nat i) h Hnames) as Hnames'.
    destruct (_get_column t (Z.of_nat i) h) as [h1 [c|e]] eqn:Ec.
    + assert (En : ColumnIterator.next _get_column
                     (ColumnIterator.Make t (Z.of_nat i)) h
                   = (h1, Ok (ColumnIterator.Make t (Z.of_nat (S i)), c))).
      { rewrite (next_in_range _ h t names i Hnames) by lia.
        now rewrite (bind_ok _ _ _ _ _ Ec). }
      rewrite (bind_ok _ _ _ _ _ En). cbn [fst snd] in *.
      unfold bind at 1. rewrite (IH (S i) h1 Hnames') by lia.
      unfold bind. rewrite Ec.
      destruct (traverse (_get_column t) (List.map Z.of_nat (seq (S i) n)) h1)
        as [h2 [cs|e]]; [|reflexivity].
      cbn. now replace (i + S n)%nat with (S i + n)%nat by lia.
    + assert (En : ColumnIterator.next _get_column
                     (ColumnIterator.Make t (Z.of_nat i)) h
                   = (h1, Raise e)).
      { rewrite (next_in_range _ h t names i Hnames) by lia.
        now rewrite (bind_raise _ _ _ _ _ Ec). }
      rewrite (bind_raise _ _ _ _ _ En). unfold bind. now rewrite Ec.
Qed.

(** X18. Iterating over the columns of a table.  Provided the column
    factory leaves the list of column names of the table as it is,
    [len(names)] successive calls of [next] on a new iterator are the calls
    of the factory at the positions 0, 1, ... in this order, as many as
    [ColumnMapping.__len__] says; once these have returned, [next] raises
    [StopIteration] and changes nothing, and goes on doing so. *)
Theorem X18_iteration_over_columns (_get_column : column_factory) (h : heap) t names :
  (forall i (h : heap), h !! Table._column_names t = Some (ONames names) ->
     fst (_get_column t i h) !! Table._column_names t = Some (ONames names)) ->
  h !! Table._column_names t = Some (ONames names) ->
  let mapping := ColumnMapping.__init__ t in
  let n := length names in
  ColumnMapping.__len__ mapping h = (h, Ok (Z.of_nat n))
  /\ nexts _get_column n (ColumnMapping.__iter__ mapping) h
     = (cols <- traverse (_get_column t) (List.map Z.of_nat (seq 0 n)) ;;
        ret (ColumnIterator.Make t (Z.of_nat n), cols)) h
  /\ forall h1 it cols,
       nexts _get_column n (ColumnMapping.__iter__ mapping) h = (h1, Ok (it, cols)) ->
       length cols = n
       /\ ColumnIterator.next _get_column it h1 = (h1, Raise StopIteration).
Proof.
  intros Hkeep Hnames mapping n.
  assert (Hwalk := nexts_walk _get_column t names Hkeep n 0 h Hnames (le_n _)).
  split; [|split].
  - unfold ColumnMapping.__len__. cbn [ColumnMapping._table mapping ColumnMapping.__init__].
    now rewrite (bind_ok _ _ _ _ _ (read_names_ok _ _ _ Hnames)).
  - exact Hwalk.
  - intros h1 it cols E.
    change (ColumnMapping.__iter__ mapping) with (ColumnIterator.Make t (Z.of_nat 0)) in E.
    rewrite Hwalk in E. apply bind_inv in E as (h2 & cs & Et & E).
    injection E as -> <- <-.
    assert (Hlen : forall l (h0 h' : heap) cs0,
              traverse (_get_column t) l h0 = (h', Ok cs0) ->
              h0 !! Table._column_names t = Some (ONames names) ->
              length cs0 = length l
              /\ h' !! Table._column_names t = Some (ONames names)).
    { clear -Hkeep. induction l as [|a l IH]; intros h0 h' cs0 E H0; cbn [traverse] in E.
      - injection E as <- <-. now split.
      - apply bind_inv in E as (ha & c & Ec & E).
        apply bind_inv in E as (hb & cs1 & Ecs & E). injection E as <- <-.
        pose proof (Hkeep a h0 H0) as Ha. rewrite Ec in Ha. cbn in Ha.
        destruct (IH _ _ _ Ecs Ha) as [Hl Hb]. split; [cbn; lia|exact Hb]. }
    destruct (Hlen _ _ _ _ Et Hnames) as [Hl Hn1].
    split.
    + rewrite Hl, length_map, length_seq. reflexivity.
    + apply (next_exhausted _ h1 t names); [exact Hn1|]. cbn. lia.
Qed.

Lemma X18_iteration_over_columns_witness :
  let h := fst (example_table [VInt 1]) in
  let t := snd (example_table [VInt 1]) in
  let mapping := ColumnMapping.__init__ t in
  ColumnMapping.__len__ mapping h = (h, Ok (Z.of_nat 2))
  /\ nexts Column.__init__ 2 (ColumnMapping.__iter__ mapping) h
     = (cols <- traverse (Column.__init__ t) (List.map Z.of_nat (seq 0 2)) ;;
        ret (ColumnIterator.Make t (Z.of_nat 2), cols)) h
  /\ forall h1 it cols,
       nexts Column.__init__ 2 (ColumnMapping.__iter__ mapping) h = (h1, Ok (it, cols)) ->
       length cols = 2%nat
       /\ ColumnIterator.next Column.__init__ it h1 = (h1, Raise StopIteration).
Proof.
  intros h t mapping.
  apply (X18_iteration_over_columns Column.__init__ h t ["name"; "n"]%string).
  - intros i h0 H0. unfold Column.__init__, alloc. cbn [fst].
    rewrite lookup_insert_ne; [exact H0|].
    intros E. rewrite <- E in H0. now rewrite fresh_lookup in H0.
  - vm_compute. reflexivity.
Defined.

(** ** When [map] fails *)

Lemma py_setitem_in_range {A} (l : list A) j x (y : A) :
  py_index l j = Ok x -> exists l', py_setitem l j y = Ok l'.
Proof.
  unfold py_index, py_setitem. destruct (_ && _); [eauto|discriminate].
Qed.

(** [map] up to its loop: the rows, the types and the names are copied. *)
Lemma map_copies h self c (func : value -> result value)
    new_column_type new_column_name rs rows types names :
  h !! self = Some (OColumn c) ->
  h !! Table._data (_table c) = Some (ORows rs) ->
  List.NoDup rs ->
  Forall2 (fun r xs => h !! r = Some (OValues xs)) rs rows ->
  h !! Table._column_types (_table c) = Some (OTypes types) ->
  h !! Table._column_names (_table c) = Some (ONames names) ->
  exists (h5 : heap) data column_types column_names rs',
    Column.map self func new_column_type new_column_name h
    = (forM_ rs' (fun row =>
         xs <- read_values row ;;
         x <- lift (py_index xs (_index c)) ;;
         y <- lift (func x) ;;
         xs' <- lift (py_setitem xs (_index c) y) ;;
         store row (OValues xs')) ;;;
       match new_column_type with
       | Some ty =>
           ts <- read_types column_types ;;
           ts' <- lift (py_setitem ts (_index c) ty) ;;
           store column_types (OTypes ts')
       | None => ret tt
       end ;;;
       match new_column_name with
       | Some name =>
           if String.eqb name "" then ret tt
           else
             ns <- read_names column_names ;;
             ns' <- lift (py_setitem ns (_index c) name) ;;
             store column_names (ONames ns')
       | None => ret tt
       end ;;;
       _fork data column_types column_names) h5
    /\ List.NoDup rs'
    /\ Forall2 (fun r' xs => h5 !! r' = Some (OValues xs)) rs' rows.
Proof.
  intros Hself Hdata Hnd Hrows Htypes Hnames.
  unfold Column.map.
  rewrite (bind_ok _ _ _ _ _ (read_column_ok _ _ _ Hself)).
  set (y := fresh (dom h)). set (h1 := <[y := ORows []]> h).
  pose proof (unchanged_alloc h (ORows [])) as Hu1. fold y h1 in Hu1.
  destruct (deepcopy_rows_distinct rs rows [] h1 Hnd) as
    (h2 & rs' & Ecopy & Hc2 & Hnd' & Hfr & Hu2).
  { eapply Forall2_impl; [exact Hrows|]. cbn. intros r xs. apply Hu1. }
  { constructor. }
  assert (Hy1 : h1 !! y = Some (ORows [])) by apply lookup_insert_eq.
  set (h3 := <[y := ORows rs']> h2).
  assert (Edata : deepcopy_data (Table._data (_table c)) h = (h3, Ok y)).
  { unfold deepcopy_data.
    rewrite (bind_ok _ _ _ _ _ (read_rows_ok _ _ _ Hdata)).
    assert (E0 : alloc (ORows []) h = (h1, Ok y)) by reflexivity.
    rewrite (bind_ok _ _ _ _ _ E0), (bind_ok _ _ _ _ _ Ecopy). reflexivity. }
  rewrite (bind_ok _ _ _ _ _ Edata).
  assert (Hother3 : forall l o, h !! l = Some o -> h3 !! l = Some o).
  { intros l o Hl. unfold h3. rewrite lookup_insert_ne.
    - now apply Hu2, Hu1.
    - intros <-. unfold y in Hl. now rewrite fresh_lookup in Hl. }
  set (ct := fresh (dom h3)). set (h4 := <[ct := OTypes types]> h3).
  assert (Etypes : deepcopy_types (Table._column_types (_table c)) h3 = (h4, Ok ct)).
  { unfold deepcopy_types.
    now rewrite (bind_ok _ _ _ _ _ (read_types_ok _ _ _ (Hother3 _ _ Htypes))). }
  rewrite (bind_ok _ _ _ _ _ Etypes).
  pose proof (unchanged_alloc h3 (OTypes types)) as Hu4. fold ct h4 in Hu4.
  set (cn := fresh (dom h4)). set (h5 := <[cn := ONames names]> h4).
  assert (Enames : deepcopy_names (Table._column_names (_table c)) h4 = (h5, Ok cn)).
  { unfold deepcopy_names.
    now rewrite (bind_ok _ _ _ _ _ (read_names_ok _ _ _ (Hu4 _ _ (Hother3 _ _ Hnames)))). }
  rewrite (bind_ok _ _ _ _ _ Enames).
  pose proof (unchanged_alloc h4 (ONames names)) as Hu5. fold cn h5 in Hu5.
  assert (Hy5 : h5 !! y = Some (ORows rs')).
  { apply Hu5, Hu4. apply lookup_insert_eq. }
  assert (Hc5 : Forall2 (fun r' xs => h5 !! r' = Some (OValues xs)) rs' rows).
  { eapply Forall2_impl; [exact Hc2|]. cbn. intros r' xs Hr'.
    apply Hu5, Hu4. unfold h3. rewrite lookup_insert_ne; [exact Hr'|].
    intros <-. apply Hu2 in Hy1. congruence. }
  rewrite (bind_ok _ _ _ _ _ (read_rows_ok _ _ _ Hy5)).
  exists h5, y, ct, cn, rs'. split; [reflexivity|]. now split.
Qed.

(** The loop of [map] stops at the first row on which it fails. *)
Lemma map_loop_raise (func : value -> result value) idx pre :
  forall rs rows (h : heap) xs post e,
  List.NoDup rs ->
  Forall2 (fun r xs => h !! r = Some (OValues xs)) rs rows ->
  rows = pre ++ xs :: post ->
  List.Forall (fun xs0 => exists x0 y0,
                 py_index xs0 idx = Ok x0 /\ func x0 = Ok y0) pre ->
  result_bind (py_index xs idx) func = Raise e ->
  exists h',
    forM_ rs (fun row =>
       xs <- read_values row ;;
       x <- lift (py_index xs idx) ;;
       y <- lift (func x) ;;
       xs' <- lift (py_setitem xs idx y) ;;
       store row (OValues xs')) h = (h', Raise e).
Proof.
  induction pre as [|p pre IH]; intros rs rows h xs post e Hnd Hall -> Hpre Hfail.
  - inversion Hall as [|r ? rs0 ? Hr Hall']; subst. cbn [forM_].
    exists h. apply bind_raise.
    rewrite (bind_ok _ _ _ _ _ (read_values_ok _ _ _ Hr)).
    unfold bind, lift. destruct (py_index xs idx) as [x|e']; cbn in Hfail.
    + now rewrite Hfail.
    + congruence.
  - inversion Hall as [|r ? rs0 rows0 Hr Hall']; subst.
    inversion Hpre as [|? ? (x0 & y0 & Hx & Hy) Hpre']; subst.
    destruct (py_setitem_in_range p idx x0 y0 Hx) as (p' & Hset).
    apply List.NoDup_cons_iff in Hnd as [Hnotin Hnd].
    cbn [forM_].
    set (h1 := <[r := OValues p']> h).
    assert (E1 : (xs <- read_values r ;;
                  x <- lift (py_index xs idx) ;;
                  y <- lift (func x) ;;
                  xs' <- lift (py_setitem xs idx y) ;;
                  store r (OValues xs')) h = (h1, Ok tt)).
    { rewrite (bind_ok _ _ _ _ _ (read_values_ok _ _ _ Hr)).
      unfold bind, lift. now rewrite Hx, Hy, Hset. }
    rewrite (bind_ok _ _ _ _ _ E1).
    apply (IH rs0 (pre ++ xs :: post) h1 xs post e Hnd); auto.
    apply Forall2_lookup. intros i.
    pose proof (proj1 (Forall2_lookup _ _ _) Hall' i) as Hi.
    destruct (rs0 !! i) as [r0|] eqn:Ei; inversion Hi; subst; constructor.
    unfold h1. rewrite lookup_insert_ne; [assumption|].
    intros <-. apply Hnotin. apply list_elem_of_In.
    apply list_elem_of_lookup. eauto.
Qed.

(** X19. [map] fails when [func] fails.  On a table of distinct rows, when
    [func] raises on the cell of a row -- or the row has no cell at the
    position of the column -- and has returned on the cells of the rows
    before, [map] raises the same error, and returns no table. *)
Theorem X19_map_raises_what_func_raises
    h self c func new_column_type new_column_name
    rs rows types names pre xs post e :
  h !! self = Some (OColumn c) ->
  h !! Table._data (_table c) = Some (ORows rs) ->
  List.NoDup rs ->
  Forall2 (fun r xs => h !! r = Some (OValues xs)) rs rows ->
  h !! Table._column_types (_table c) = Some (OTypes types) ->
  h !! Table._column_names (_table c) = Some (ONames names) ->
  rows = pre ++ xs :: post ->
  List.Forall (fun xs0 => exists x0 y0,
                 py_index xs0 (_index c) = Ok x0 /\ func x0 = Ok y0) pre ->
  result_bind (py_index xs (_index c)) func = Raise e ->
  snd (Column.map self func new_column_type new_column_name h) = Raise e.
Proof.
  intros Hself Hdata Hnd Hrows Htypes Hnames Hsplit Hpre Hfail.
  destruct (map_copies h self c func new_column_type new_column_name
              rs rows types names Hself Hdata Hnd Hrows Htypes Hnames)
    as (h5 & y & ct & cn & rs' & -> & Hnd' & Hc5).
  destruct (map_loop_raise func (_index c) pre rs' rows h5 xs post e
              Hnd' Hc5 Hsplit Hpre Hfail) as (h6 & E).
  now rewrite (bind_raise _ _ _ _ _ E).
Qed.

Lemma X19_map_raises_what_func_raises_witness :
  let col := [VInt 1; VNone; VInt 3] in
  let h := fst (example_column col) in
  let self := snd (example_column col) in
  snd (Column.map self (fun v => py_add v (VInt 1)) None None h) = Raise TypeError.
Proof.
  intros col h self.
  apply (X19_map_raises_what_func_raises h self
           (MkColumn (snd (example_table col)) 1 None None None)
           (fun v => py_add v (VInt 1)) None None
           [3; 4; 5]%nat
           [[VStr "r"; VInt 1]; [VStr "r"; VNone]; [VStr "r"; VInt 3]]
           [class_TextColumn; class_IntColumn] ["name"; "n"]%string
           [[VStr "r"; VInt 1]] [VStr "r"; VNone] [[VStr "r"; VInt 3]] TypeError).
  - vm_compute. reflexivity.
  - vm_compute. reflexivity.
  - repeat constructor; cbn; intuition discriminate.
  - repeat constructor.
  - vm_compute. reflexivity.
  - vm_compute. reflexivity.
  - reflexivity.
  - repeat constructor. eexists _, _. split; reflexivity.
  - reflexivity.
Defined.

(** ** The median of an odd number of cells *)

Lemma sorted_around (R : value -> value -> Prop) l1 x l2 :
  StronglySorted R (l1 ++ x :: l2) ->
  List.Forall (fun a => R a x) l1 /\ List.Forall (R x) l2.
Proof.
  induction l1 as [|a l1 IH]; cbn; intros Hs.
  - apply StronglySorted_inv in Hs as [_ Hx]. split; [constructor|].
    apply List.Forall_forall. intros b Hb. rewrite Forall_forall in Hx.
    now apply Hx, list_elem_of_In.
  - apply StronglySorted_inv in Hs as [Hs Ha].
    destruct (IH Hs) as [H1 H2]. split; [|exact H2].
    constructor; [|exact H1]. rewrite Forall_forall in Ha.
    apply Ha. apply list_elem_of_In, in_or_app. right. now left.
Qed.

Lemma filter_all {A} (f : A -> bool) l :
  List.Forall (fun a => f a = true) l -> List.filter f l = l.
Proof.
  induction 1 as [|a l Ha _ IH]; cbn; [reflexivity|]. now rewrite Ha, IH.
Qed.

Lemma py_lt_irrefl x : py_lt x x = false.
Proof.
  destruct (py_lt x x) eqn:E; [|reflexivity].
  now rewrite (py_lt_asym_all x x E) in E.
Qed.

(** X20. The median of a column without nulls that has an odd number
    [2k + 1] of cells is a cell of the column that splits it in two: at
    least [k + 1] cells are not larger than it, and at least [k + 1] cells
    are not smaller. *)
Theorem X20_median_of_an_odd_column h self t idx rows data k :
  col_state h self t idx rows data ->
  existsb is_none data = false ->
  length data = (2 * k + 1)%nat ->
  exists m, snd (NumberColumn.median self h) = Ok m
    /\ In m data
    /\ (k + 1 <= length (List.filter (fun x => negb (py_lt m x)) data))%nat
    /\ (k + 1 <= length (List.filter (fun x => negb (py_lt x m)) data))%nat.
Proof.
  intros Hcs Hnn Hlen.
  destruct (median_returns _ _ _ _ _ h Hcs) as (h1 & E & _).
  rewrite E. cbn [snd]. unfold median_of, guard_nulls. rewrite Hnn. cbv zeta.
  rewrite py_sorted_length, Hlen.
  assert (Hodd : Z.of_nat (2 * k + 1) mod 2 = 1).
  { replace (Z.of_nat (2 * k + 1)) with (1 + Z.of_nat k * 2) by lia.
    now rewrite Z.mod_add. }
  rewrite Hodd. cbn [Z.eqb Pos.eqb].
  assert (Hk : (Z.of_nat (2 * k + 1) + 1) / 2 - 1 = Z.of_nat k).
  { replace (Z.of_nat (2 * k + 1) + 1) with ((Z.of_nat k + 1) * 2) by lia.
    rewrite Z.div_mul; lia. }
  rewrite Hk.
  destruct (py_index_in_range (py_sorted data) (Z.of_nat k)) as (m & -> & Hm).
  { rewrite py_sorted_length. lia. }
  rewrite Nat2Z.id in Hm.
  pose proof (take_drop_middle _ _ _ Hm) as Hsplit.
  pose proof (py_sorted_ordered data) as Hs. rewrite <- Hsplit in Hs.
  destruct (sorted_around _ _ _ _ Hs) as [Hbefore Hafter].
  assert (Hl1 : length (take k (py_sorted data)) = k).
  { rewrite length_take, py_sorted_length. lia. }
  assert (Hl2 : length (drop (S k) (py_sorted data)) = k).
  { rewrite length_drop, py_sorted_length. lia. }
  exists m. split; [reflexivity|]. split; [|split].
  - apply (Permutation_in _ (py_sorted_perm data)).
    apply list_elem_of_In, list_elem_of_lookup. eauto.
  - rewrite <- (filter_length_perm _ _ _ (py_sorted_perm data)), <- Hsplit.
    rewrite List.filter_app, length_app. cbn [List.filter].
    rewrite py_lt_irrefl. cbn [negb length].
    rewrite (filter_all _ (take k (py_sorted data))).
    + lia.
    + eapply List.Forall_impl; [|exact Hbefore]. cbn. now intros a ->.
  - rewrite <- (filter_length_perm _ _ _ (py_sorted_perm data)), <- Hsplit.
    rewrite List.filter_app, length_app. cbn [List.filter].
    rewrite py_lt_irrefl. cbn [negb length].
    rewrite (filter_all _ (drop (S k) (py_sorted data))).
    + lia.
    + eapply List.Forall_impl; [|exact Hafter]. cbn. now intros a ->.
Qed.

Lemma X20_median_of_an_odd_column_witness :
  let col := [VInt 9; VDec (Dec false 25 (-1)); VInt 4; VInt 4; VInt 7] in
  let h := fst (example_column col) in
  let self := snd (example_column col) in
  exists m, snd (NumberColumn.median self h) = Ok m
    /\ In m col
    /\ (2 + 1 <= length (List.filter (fun x => negb (py_lt m x)) col))%nat
    /\ (2 + 1 <= length (List.filter (fun x => negb (py_lt x m)) col))%nat.
Proof.
  intros col h self.
  apply (X20_median_of_an_odd_column h self (snd (example_table col)) 1
           [[VStr "r"; VInt 9]; [VStr "r"; VDec (Dec false 25 (-1))];
            [VStr "r"; VInt 4]; [VStr "r"; VInt 4]; [VStr "r"; VInt 7]] col 2).
  - example_state.
  - reflexivity.
  - reflexivity.
Defined.

(** ** [IntColumn._cast] of a [Decimal] *)

Lemma to_int_truncates d :
  Decimal.to_int d
  = Z.quot (Decimal.scoeff d * 10 ^ Z.max 0 (dexp d)) (10 ^ Z.max 0 (- dexp d)).
Proof.
  unfold Decimal.to_int, Decimal.scoeff.
  destruct (Z.leb_spec 0 (dexp d)) as [He|He].
  - rewrite Z.max_r by lia. rewrite (Z.max_l 0 (- dexp d)) by lia.
    rewrite Z.pow_0_r, Z.quot_1_r, N2Z.inj_mul, pow10_Z by lia.
    destruct (dneg d); lia.
  - rewrite Z.max_l by lia. rewrite (Z.max_r 0 (- dexp d)) by lia.
    rewrite Z.pow_0_r, Z.mul_1_r, N2Z.inj_div, pow10_Z by lia.
    assert (Hp : 0 < 10 ^ (- dexp d)) by (apply Z.pow_pos_nonneg; lia).
    destruct (dneg d).
    + rewrite Z.quot_opp_l by lia. f_equal.
      symmetry. apply Z.quot_div_nonneg; lia.
    + symmetry. apply Z.quot_div_nonneg; lia.
Qed.

(** X21. [IntColumn._cast] of [Decimal] cells never fails and drops the
    fraction: a cell [(-1)^sign * coeff * 10^exp] becomes the integer
    quotient, rounded toward zero, of its numerator by its denominator
    (2.7 becomes 2 and -2.7 becomes -2). *)
Theorem X21_int_cast_truncates h self t idx rows ds :
  col_state h self t idx rows (List.map VDec ds) ->
  snd (IntColumn._cast self h)
  = Ok (List.map
          (fun d => VInt (Z.quot (Decimal.scoeff d * 10 ^ Z.max 0 (dexp d))
                                 (10 ^ Z.max 0 (- dexp d)))) ds).
Proof.
  intros Hcs. apply (cast_ok IntColumn.cast_value _ _ _ _ _ _ _ Hcs).
  clear. induction ds as [|d ds IH]; cbn [List.map]; constructor; [|exact IH].
  unfold IntColumn.cast_value. cbn. now rewrite to_int_truncates.
Qed.

Lemma X21_int_cast_truncates_witness :
  let ds := [Dec false 27 (-1); Dec true 27 (-1); Dec false 5 2] in
  let col := List.map VDec ds in
  let h := fst (example_column col) in
  let self := snd (example_column col) in
  snd (IntColumn._cast self h)
  = Ok (List.map
          (fun d => VInt (Z.quot (Decimal.scoeff d * 10 ^ Z.max 0 (dexp d))
                                 (10 ^ Z.max 0 (- dexp d)))) ds).
Proof.
  intros ds col h self.
  apply (X21_int_cast_truncates h self (snd (example_table col)) 1
           [[VStr "r"; VDec (Dec false 27 (-1))]; [VStr "r"; VDec (Dec true 27 (-1))];
            [VStr "r"; VDec (Dec false 5 2)]] ds).
  example_state.
Defined.

(** ** A view that fails *)

Lemma bind_raise_inv {A B} (m : M A) (k : A -> M B) (h h' : heap) e :
  bind m k h = (h', Raise e) ->
  m h = (h', Raise e)
  \/ exists h1 a, m h = (h1, Ok a) /\ k a h1 = (h', Raise e).
Proof.
  unfold bind. destruct (m h) as [h1 [a|e']]; [eauto|].
  intros [= <- <-]. now left.
Qed.

Lemma read_column_store (h h' : heap) l r :
  read_column l h = (h', r) -> h' = h.
Proof.
  unfold read_column. destruct (h !! l) as [[]|]; now intros [= <- _].
Qed.

Lemma read_values_store (h h' : heap) l r :
  read_values l h = (h', r) -> h' = h.
Proof.
  unfold read_values. destruct (h !! l) as [[]|]; now intros [= <- _].
Qed.

Lemma read_rows_store (h h' : heap) l r :
  read_rows l h = (h', r) -> h' = h.
Proof.
  unfold read_rows. destruct (h !! l) as [[]|]; now intros [= <- _].
Qed.

Lemma traverse_store {A B} (f : A -> M B) l :
  (forall a (h h' : heap) r, f a h = (h', r) -> h' = h) ->
  forall (h h' : heap) r, traverse f l h = (h', r) -> h' = h.
Proof.
  intros Hf. induction l as [|a l IH]; intros h h' r; cbn [traverse].
  - now intros [= <- _].
  - unfold bind at 1. destruct (f a h) as [h1 [b|e]] eqn:E;
      apply Hf in E; subst h1; [|now intros [= <- _]].
    unfold bind. destruct (traverse f l h) as [h1 [bs|e]] eqn:E;
      apply IH in E; subst h1; now intros [= <- _].
Qed.

Lemma slice_store table index (h h' : heap) r :
  Column.slice table index h = (h', r) -> h' = h.
Proof.
  unfold Column.slice. unfold bind at 1.
  destruct (read_rows (Table._data table) h) as [h1 [rs|e]] eqn:E;
    apply read_rows_store in E; subst h1; [|now intros [= <- _]].
  apply traverse_store. clear. intros a h h' r. unfold bind.
  destruct (read_values a h) as [h1 [xs|e]] eqn:E;
    apply read_values_store in E; subst h1; [|now intros [= <- _]].
  unfold lift. now intros [= <- _].
Qed.

(** Filling a cache after the list has been made cannot fail. *)
Lemma fill_raise_inv (setter : loc -> loc -> M unit) (o : obj) self (h h' : heap) e :
  (forall l0 (h0 : heap) c, h0 !! self = Some (OColumn c) ->
     exists h1, setter self l0 h0 = (h1, Ok tt)) ->
  (exists c, h !! self = Some (OColumn c)) ->
  (l0 <- alloc o ;; setter self l0 ;;; ret l0) h <> (h', Raise e).
Proof.
  intros Hset (c & Hc) E.
  apply bind_raise_inv in E as [E|(h1 & l & Ea & E)]; [discriminate|].
  injection Ea as <- <-.
  destruct (Hset (fresh (dom h)) (<[fresh (dom h) := o]> h) c) as (h2 & E2).
  { rewrite lookup_insert_ne; [exact Hc|].
    intros E0. rewrite <- E0 in Hc. now rewrite fresh_lookup in Hc. }
  rewrite (bind_ok _ _ _ _ _ E2) in E. discriminate.
Qed.

Lemma data_fails_cleanly self (h h' : heap) e :
  Column._data self h = (h', Raise e) -> h' = h.
Proof.
  unfold Column._data. intros E.
  apply bind_raise_inv in E as [E|(h1 & c & Ec & E)];
    [now apply read_column_store in E|].
  apply read_column_inv in Ec as [-> Hc].
  destruct (_cached_data c); [discriminate|].
  apply bind_raise_inv in E as [E|(h1 & xs & Es & E)];
    [now apply slice_store in E|].
  apply slice_store in Es. subst h1. exfalso.
  apply (fill_raise_inv Column.set_cached_data (OValues xs) self h h' e); eauto.
  intros l0 h0 c0 H0. eexists. unfold Column.set_cached_data.
  now rewrite (bind_ok _ _ _ _ _ (read_column_ok _ _ _ H0)).
Qed.

(** After [_data] has returned, either nothing has changed or the list it
    returns and the column object are in the store. *)
Lemma data_ok_inv self (h h1 : heap) d :
  Column._data self h = (h1, Ok d) ->
  h1 = h
  \/ (exists xs, h1 !! d = Some (OValues xs))
     /\ exists c, h1 !! self = Some (OColumn c).
Proof.
  unfold Column._data. intros E.
  apply bind_inv in E as (h0 & c & Ec & E).
  apply read_column_inv in Ec as [-> Hc].
  destruct (_cached_data c); [injection E as <- <-; now left|].
  right.
  apply bind_inv in E as (h2 & xs & Es & E). apply slice_store in Es. subst h2.
  apply bind_inv in E as (h3 & l & Ea & E). injection Ea as <- <-.
  apply bind_inv in E as (h4 & [] & Eset & E). injection E as <- <-.
  unfold Column.set_cached_data in Eset.
  apply bind_inv in Eset as (h5 & c' & Er & Eset).
  apply read_column_inv in Er as [-> Hc']. injection Eset as <-.
  assert (Hne : fresh (dom h) <> self).
  { intros E0. rewrite <- E0 in Hc. now rewrite fresh_lookup in Hc. }
  split.
  - exists xs. rewrite lookup_insert_ne by congruence. apply lookup_insert_eq.
  - eexists. apply lookup_insert_eq.
Qed.

Lemma derived_view_fails_cleanly (get : column -> option loc)
    (setter : loc -> loc -> M unit) (f : list value -> list value)
    self (h h' : heap) e :
  (forall l0 (h0 : heap) c, h0 !! self = Some (OColumn c) ->
     exists h1, setter self l0 h0 = (h1, Ok tt)) ->
  (c <- read_column self ;;
   match get c with
   | None =>
       d <- Column._data self ;;
       xs <- read_values d ;;
       l <- alloc (OValues (f xs)) ;;
       setter self l ;;;
       ret l
   | Some l => ret l
   end) h = (h', Raise e) ->
  h' = h.
Proof.
  intros Hset E.
  apply bind_raise_inv in E as [E|(h1 & c & Ec & E)];
    [now apply read_column_store in E|].
  apply read_column_inv in Ec as [-> Hc].
  destruct (get c); [discriminate|].
  apply bind_raise_inv in E as [E|(h1 & d & Ed & E)];
    [now apply data_fails_cleanly in E|].
  apply bind_raise_inv in E as [E|(h2 & xs & Ex & E)].
  - pose proof (read_values_store _ _ _ _ E) as ->.
    destruct (data_ok_inv _ _ _ _ Ed) as [->|[(xs & Hd) _]]; [reflexivity|].
    rewrite (read_values_ok _ _ _ Hd) in E. discriminate.
  - pose proof (read_values_store _ _ _ _ Ex) as ->. exfalso.
    apply (fill_raise_inv setter (OValues (f xs)) self h1 h' e Hset); [|exact E].
    destruct (data_ok_inv _ _ _ _ Ed) as [->|[_ Hc1]]; eauto.
Qed.

(** X22. A view that fails caches nothing.  When [_data],
    [_data_without_nulls] or [_data_sorted] raises -- a row of the table is
    too short for the position of the column, say -- the store is as it was
    before the call: no cache attribute is set, so that a later call
    computes the view again. *)
Theorem X22_a_view_that_fails_changes_nothing
    (view : loc -> M loc) self (h h' : heap) e :
  In view [Column._data; Column._data_without_nulls; Column._data_sorted] ->
  view self h = (h', Raise e) ->
  h' = h.
Proof.
  intros [<-|[<-|[<-|[]]]].
  - apply data_fails_cleanly.
  - apply (derived_view_fails_cleanly _cached_data_without_nulls
             Column.set_cached_data_without_nulls
             (List.filter (fun d => negb (is_none d)))).
    intros l0 h0 c0 H0. eexists. unfold Column.set_cached_data_without_nulls.
    now rewrite (bind_ok _ _ _ _ _ (read_column_ok _ _ _ H0)).
  - apply (derived_view_fails_cleanly _cached_data_sorted
             Column.set_cached_data_sorted py_sorted).
    intros l0 h0 c0 H0. eexists. unfold Column.set_cached_data_sorted.
    now rewrite (bind_ok _ _ _ _ _ (read_column_ok _ _ _ H0)).
Qed.

Lemma X22_a_view_that_fails_changes_nothing_witness :
  let h := fst (example_table [VInt 1; VInt 2]) in
  let t := snd (example_table [VInt 1; VInt 2]) in
  let h0 := fst (Column.__init__ t 2 h) in
  Column._data_sorted 5%nat h0 = (h0, Raise IndexError).
Proof.
  intros h t h0.
  assert (E : snd (Column._data_sorted 5%nat h0) = Raise IndexError)
    by (vm_compute; reflexivity).
  destruct (Column._data_sorted 5%nat h0) as [h' r] eqn:E'.
  cbn in E. subst r.
  now rewrite (X22_a_view_that_fails_changes_nothing
                 Column._data_sorted 5%nat h0 h' IndexError
                 (or_intror (or_intror (or_introl eq_refl))) E').
Defined.

(** ** The text of a [Decimal], read back *)

Lemma chars_app (s1 s2 : string) :
  list_ascii_of_string (append s1 s2)
  = (list_ascii_of_string s1 ++ list_ascii_of_string s2)%list.
Proof.
  induction s1 as [|a s1 IH]; [reflexivity|].
  rewrite append_cons. cbn [list_ascii_of_string]. now rewrite IH.
Qed.

Lemma string_length_app (s1 s2 : string) :
  String.length (append s1 s2) = (String.length s1 + String.length s2)%nat.
Proof.
  induction s1 as [|a s1 IH]; [reflexivity|].
  rewrite append_cons. cbn [String.length]. now rewrite IH.
Qed.

Lemma zeros_length k : String.length (Str.zeros k) = k.
Proof. induction k as [|k IH]; cbn; [reflexivity|now rewrite IH]. Qed.

Lemma zeros_digits k : digits_only (Str.zeros k).
Proof.
  unfold digits_only. induction k as [|k IH]; cbn; constructor; [reflexivity|exact IH].
Qed.

Lemma zeros_value k : forall s,
  Str.digits_value 0 (append (Str.zeros k) s) = Str.digits_value 0 s.
Proof.
  induction k as [|k IH]; intros s; [reflexivity|].
  cbn [Str.zeros]. rewrite append_cons. cbn [Str.digits_value]. apply IH.
Qed.

Lemma take_drop_string k : forall s, append (Str.take k s) (Str.drop k s) = s.
Proof.
  induction k as [|k IH]; intros [|a s]; try reflexivity.
  cbn [Str.take Str.drop]. rewrite append_cons. now rewrite IH.
Qed.

Lemma take_length k : forall s,
  (k <= String.length s)%nat -> String.length (Str.take k s) = k.
Proof.
  induction k as [|k IH]; intros [|a s] Hk; cbn in *; try reflexivity; try lia.
  rewrite IH; lia.
Qed.

Lemma digits_only_split s1 s2 :
  digits_only (append s1 s2) -> digits_only s1 /\ digits_only s2.
Proof.
  unfold digits_only. rewrite chars_app. apply List.Forall_app.
Qed.

Lemma take_sign_digit a r :
  Str.is_digit a = true -> Str.take_sign (String a r) = (false, String a r).
Proof.
  intros Ha. destruct (digit_plain a Ha) as (_ & _ & Hm & Hp).
  apply Ascii.eqb_neq in Hm, Hp. unfold Str.take_sign.
  destruct a as [[] [] [] [] [] [] [] []]; try reflexivity; congruence.
Qed.

Lemma span_digits_app s : forall rest,
  digits_only s ->
  match rest with
  | EmptyString => True
  | String c _ => Str.is_digit c = false
  end ->
  Str.span_digits (append s rest) = (s, rest).
Proof.
  unfold digits_only. induction s as [|a s IH]; intros rest Hs Hrest.
  - rewrite append_nil. destruct rest as [|c r]; [reflexivity|].
    cbn [Str.span_digits]. now rewrite Hrest.
  - rewrite append_cons. cbn [Str.span_digits].
    inversion Hs as [|? ? Ha Hs']; subst. rewrite Ha.
    now rewrite (IH rest Hs' Hrest).
Qed.

(** What [Decimal()] makes of a numeral: a sign, digits, a fraction or
    none, an exponent or none. *)
Lemma parse_numeral (neg : bool) (ip : string) (frac : option string)
    (expo : option (bool * string)) :
  digits_only ip -> ip <> EmptyString ->
  match frac with Some fr => digits_only fr | None => True end ->
  match expo with
  | Some (_, ed) => digits_only ed /\ ed <> EmptyString
  | None => True
  end ->
  let fr := match frac with Some fr => fr | None => EmptyString end in
  decimal_of_string
    (append (if neg then "-" else "")
       (append ip
          (append (match frac with
                   | Some fr => append "." fr
                   | None => EmptyString
                   end)
                  (match expo with
                   | Some (eneg, ed) =>
                       append "E" (append (if eneg then "-" else "+") ed)
                   | None => EmptyString
                   end))))%string
  = Ok (Dec neg (Str.digits_value 0 (append ip fr))
          (match expo with
           | Some (eneg, ed) =>
               (if eneg then - Z.of_N (Str.digits_value 0 ed)
                else Z.of_N (Str.digits_value 0 ed))
               - Z.of_nat (String.length fr)
           | None => - Z.of_nat (String.length fr)
           end)).
Proof.
  intros Hip Hne Hfrac Hexpo fr.
  set (X := match expo with
            | Some (eneg, ed) =>
                append "E" (append (if eneg then "-" else "+") ed)
            | None => EmptyString
            end).
  set (F := match frac with Some fr => append "." fr | None => EmptyString end).
  assert (HX : match X with
               | EmptyString => True
               | String c _ => Str.is_digit c = false /\ c <> "."%char
               end).
  { unfold X. destruct expo as [[eneg ed]|]; [|exact I].
    rewrite append_cons. split; [reflexivity|discriminate]. }
  assert (HFX : match append F X with
                | EmptyString => True
                | String c _ => Str.is_digit c = false
                end).
  { unfold F. destruct frac as [fr0|].
    - rewrite append_cons. reflexivity.
    - rewrite append_nil. destruct X; [exact I|apply HX]. }
  (* no blank in the numeral *)
  assert (Hplain : List.Forall (fun a => Str.is_space a = false)
                     (list_ascii_of_string
                        (append (if neg then "-" else "") (append ip (append F X))))).
  { assert (Hd : forall s, digits_only s ->
                   List.Forall (fun a => Str.is_space a = false)
                     (list_ascii_of_string s)).
    { intros s Hs. eapply List.Forall_impl; [|exact Hs].
      intros a Ha. now apply digit_plain. }
    rewrite !chars_app.
    apply List.Forall_app. split; [|apply List.Forall_app; split;
                                      [|apply List.Forall_app; split]].
    - destruct neg; repeat constructor.
    - now apply Hd.
    - unfold F. destruct frac as [fr0|]; [|constructor].
      rewrite append_cons. cbn [list_ascii_of_string].
      constructor; [reflexivity|]. rewrite append_nil. now apply Hd.
    - unfold X. destruct expo as [[eneg ed]|]; [|constructor].
      rewrite append_cons, append_nil. cbn [list_ascii_of_string].
      constructor; [reflexivity|]. rewrite chars_app.
      apply List.Forall_app. split; [destruct eneg; repeat constructor|].
      apply Hd, Hexpo. }
  unfold decimal_of_string. rewrite (strip_none _ Hplain).
  assert (Hsign : Str.take_sign
                    (append (if neg then "-" else "") (append ip (append F X)))
                  = (neg, append ip (append F X))).
  { destruct neg; [reflexivity|]. rewrite append_nil.
    destruct ip as [|a ip']; [congruence|]. rewrite append_cons.
    apply take_sign_digit. now inversion Hip. }
  rewrite Hsign. rewrite (span_digits_app ip (append F X) Hip HFX).
  assert (Hfrac2 : match append F X with
                   | String "."%char r => Str.span_digits r
                   | _ => (EmptyString, append F X)
                   end = (fr, X)).
  { unfold F, fr. destruct frac as [fr0|].
    - rewrite append_cons, append_nil.
      apply span_digits_app; [exact Hfrac|].
      destruct X; [exact I|apply HX].
    - rewrite append_nil. destruct X as [|c r] eqn:EX; [reflexivity|].
      destruct HX as [_ Hc].
      destruct c as [[] [] [] [] [] [] [] []]; try reflexivity; congruence. }
  rewrite Hfrac2.
  assert (Hne' : append ip fr <> EmptyString).
  { destruct ip; [congruence|]. rewrite append_cons. discriminate. }
  destruct (append ip fr) as [|a0 s0] eqn:Eip; [congruence|].
  unfold X. destruct expo as [[eneg ed]|]; [|reflexivity].
  rewrite append_cons, append_nil.
  assert (Hes : Str.take_sign (append (if eneg then "-" else "+") ed) = (eneg, ed)).
  { now destruct eneg. }
  destruct Hexpo as [Hed Hedne].
  cbn [Ascii.eqb Bool.eqb orb andb].
  rewrite Hes, (span_digits_all _ Hed).
  destruct ed; [congruence|reflexivity].
Qed.

Lemma take_drop_digits k s :
  digits_only s -> digits_only (Str.take k s) /\ digits_only (Str.drop k s).
Proof.
  intros Hs. apply digits_only_split. now rewrite take_drop_string.
Qed.

Lemma drop_length k s :
  (k <= String.length s)%nat ->
  String.length (Str.drop k s) = (String.length s - k)%nat.
Proof.
  intros Hk. pose proof (string_length_app (Str.take k s) (Str.drop k s)) as H.
  rewrite take_drop_string, (take_length k s Hk) in H. lia.
Qed.

Lemma take_nonempty k s :
  (1 <= k)%nat -> s <> EmptyString -> Str.take k s <> EmptyString.
Proof. destruct k, s; cbn; try lia; congruence. Qed.

Lemma signed_abs e :
  (if e <? 0 then - Z.of_N (Z.abs_N e) else Z.of_N (Z.abs_N e)) = e.
Proof. destruct (Z.ltb_spec e 0); lia. Qed.

(** [Decimal(str(d))] is [d], digit for digit. *)
Lemma decimal_round_trip d : decimal_of_string (decimal_to_string d) = Ok d.
Proof.
  destruct d as [neg c e]. unfold decimal_to_string. cbn [dneg dcoeff dexp].
  destruct (of_N_spec c) as (Hd & Hv & Hne).
  set (digits := Str.of_N c) in *.
  assert (Hlen : (1 <= String.length digits)%nat).
  { destruct digits; [congruence|cbn; lia]. }
  set (len := Z.of_nat (String.length digits)) in *.
  cbv zeta.
  destruct ((e <=? 0) && (-6 <? e + len)) eqn:Hcase.
  - apply andb_prop in Hcase as [He Hl].
    apply Z.leb_le in He. apply Z.ltb_lt in Hl.
    rewrite Z.eqb_refl.
    destruct (Z.leb_spec (e + len) 0) as [Hdot|Hdot].
    + pose proof (parse_numeral neg "0"
                    (Some (append (Str.zeros (Z.to_nat (- (e + len)))) digits))
                    None) as H.
      cbv beta iota zeta in H. rewrite H; clear H.
      * f_equal. f_equal.
        -- change (append "0" ?s) with (append (Str.zeros 1) s).
           now rewrite !zeros_value.
        -- rewrite string_length_app, zeros_length. lia.
      * repeat constructor.
      * discriminate.
      * apply digits_only_app; [apply zeros_digits|exact Hd].
      * exact I.
    + destruct (Z.leb_spec len (e + len)) as [Hfull|Hpart].
      * assert (e = 0) by lia. subst e.
        replace (0 + len - len) with 0 by lia.
        change (Str.zeros (Z.to_nat 0)) with EmptyString.
        rewrite (string_app_nil_r digits).
        pose proof (parse_numeral neg digits None None) as H.
        cbv beta iota zeta in H. rewrite H; clear H; auto.
        rewrite string_app_nil_r, Hv. reflexivity.
      * set (k := Z.to_nat (e + len)).
        assert (Hk : (1 <= k <= String.length digits)%nat) by (unfold k; lia).
        destruct (take_drop_digits k digits Hd) as [Ht Hdr].
        pose proof (parse_numeral neg (Str.take k digits)
                      (Some (Str.drop k digits)) None) as H.
        cbv beta iota zeta in H. rewrite H; clear H; auto.
        -- f_equal. f_equal.
           ++ now rewrite take_drop_string.
           ++ rewrite drop_length by lia. unfold k. lia.
        -- apply take_nonempty; [lia|exact Hne].
  - assert (Hsci : e + len <> 1).
    { apply andb_false_iff in Hcase as [H|H];
        [apply Z.leb_gt in H|apply Z.ltb_ge in H]; lia. }
    destruct (Z.eqb_spec (e + len) 1) as [|_]; [lia|].
    change (1 <=? 0) with false. cbv beta iota.
    set (E := e + len - 1).
    destruct (of_N_spec (Z.abs_N E)) as (HEd & HEv & HEne).
    destruct (Z.leb_spec len 1) as [Hone|Hmore].
    + replace (1 - len) with 0 by lia.
      change (Str.zeros (Z.to_nat 0)) with EmptyString.
      rewrite (string_app_nil_r digits).
      pose proof (parse_numeral neg digits None
                    (Some (E <? 0, Str.of_N (Z.abs_N E)))) as H.
      cbv beta iota zeta in H. rewrite H; clear H; auto.
      rewrite string_app_nil_r, Hv, HEv, signed_abs.
      f_equal. f_equal. unfold E. cbn [String.length]. lia.
    + change (Z.to_nat 1) with 1%nat.
      destruct (take_drop_digits 1 digits Hd) as [Ht Hdr].
      pose proof (parse_numeral neg (Str.take 1 digits)
                    (Some (Str.drop 1 digits))
                    (Some (E <? 0, Str.of_N (Z.abs_N E)))) as H.
      cbv beta iota zeta in H. rewrite H; clear H; auto.
      * rewrite take_drop_string, Hv, HEv, signed_abs.
        f_equal. f_equal. rewrite drop_length by lia. unfold E. lia.
      * apply take_nonempty; [lia|exact Hne].
Qed.

(** The characters of [str(d)]: no blank and no comma. *)
Lemma plain_app (P : ascii -> Prop) s1 s2 :
  List.Forall P (list_ascii_of_string s1) ->
  List.Forall P (list_ascii_of_string s2) ->
  List.Forall P (list_ascii_of_string (append s1 s2)).
Proof. intros H1 H2. rewrite chars_app. apply List.Forall_app. now split. Qed.

Lemma digits_plain s :
  digits_only s ->
  List.Forall (fun a => Str.is_space a = false /\ Ascii.eqb a "," = false)
    (list_ascii_of_string s).
Proof.
  intros Hs. eapply List.Forall_impl; [|exact Hs].
  intros a Ha. destruct (digit_plain a Ha) as (H1 & H2 & _). now split.
Qed.

Lemma decimal_to_string_plain d :
  List.Forall (fun a => Str.is_space a = false /\ Ascii.eqb a "," = false)
    (list_ascii_of_string (decimal_to_string d))
  /\ (1 <= String.length (decimal_to_string d))%nat.
Proof.
  unfold decimal_to_string.
  destruct (of_N_spec (dcoeff d)) as (Hd & _ & Hne).
  set (digits := Str.of_N (dcoeff d)) in *.
  assert (Hlen : (1 <= String.length digits)%nat).
  { destruct digits; [congruence|cbn; lia]. }
  set (len := Z.of_nat (String.length digits)).
  cbv zeta.
  set (dotplace := if (dexp d <=? 0) && (-6 <? dexp d + len)
                   then dexp d + len else 1).
  match goal with
  | |- context [if dexp d + len =? dotplace then ?x else ?y] =>
      set (ex := if dexp d + len =? dotplace then x else y)
  end.
  assert (Hex : List.Forall
                  (fun a => Str.is_space a = false /\ Ascii.eqb a "," = false)
                  (list_ascii_of_string ex)).
  { unfold ex. destruct (_ =? _); [constructor|].
    apply plain_app; [repeat constructor|].
    apply plain_app; [destruct (_ <? 0); repeat constructor|].
    apply digits_plain. apply of_N_spec. }
  assert (Hsign : List.Forall
                  (fun a => Str.is_space a = false /\ Ascii.eqb a "," = false)
                  (list_ascii_of_string (if dneg d then "-" else ""))).
  { destruct (dneg d); repeat constructor. }
  destruct (Z.leb_spec dotplace 0) as [Hdot|Hdot].
  - split.
    + apply plain_app; [exact Hsign|]. apply plain_app; [repeat constructor|].
      apply plain_app; [|exact Hex]. apply plain_app; [repeat constructor|].
      apply digits_plain. apply digits_only_app; [apply zeros_digits|exact Hd].
    + rewrite !string_length_app. cbn [String.length]. lia.
  - destruct (Z.leb_spec len dotplace) as [Hfull|Hpart].
    + split.
      * apply plain_app; [exact Hsign|]. apply plain_app; [|apply plain_app;
          [constructor|exact Hex]].
        apply digits_plain. apply digits_only_app; [exact Hd|apply zeros_digits].
      * rewrite !string_length_app. lia.
    + destruct (take_drop_digits (Z.to_nat dotplace) digits Hd) as [Ht Hdr].
      split.
      * apply plain_app; [exact Hsign|]. apply plain_app; [now apply digits_plain|].
        apply plain_app; [|exact Hex]. apply plain_app; [repeat constructor|].
        now apply digits_plain.
      * rewrite !string_length_app. rewrite take_length by (unfold len in Hpart; lia).
        lia.
Qed.

Lemma text_of_decimal d :
  TextColumn.cast_value (VDec d) = VStr (decimal_to_string d).
Proof. reflexivity. Qed.

Lemma decimal_of_text_of_decimal d :
  DecimalColumn.cast_value (VStr (decimal_to_string d)) = Ok (VDec d).
Proof.
  destruct (decimal_to_string_plain d) as [Hplain Hlen].
  assert (Hsp : List.Forall (fun a => Str.is_space a = false)
                  (list_ascii_of_string (decimal_to_string d))).
  { eapply List.Forall_impl; [|exact Hplain]. now intros a [H _]. }
  assert (Hc : List.Forall (fun a => Ascii.eqb a "," = false)
                 (list_ascii_of_string (decimal_to_string d))).
  { eapply List.Forall_impl; [|exact Hplain]. now intros a [_ H]. }
  unfold DecimalColumn.cast_value, strip_separators.
  rewrite (remove_char_none _ _ Hc), (strip_none _ Hsp).
  cbn [py_eq is_none orb py_Decimal].
  assert (Hnz : String.eqb (decimal_to_string d) "" = false).
  { destruct (decimal_to_string d); [cbn in Hlen; lia|reflexivity]. }
  rewrite Hnz. cbn [orb]. now rewrite decimal_round_trip.
Qed.

(** X23. [Decimal] numbers survive the passage through text.
    [TextColumn._cast] turns a column of [Decimal] cells into their numerals
    ([str(d)], in plain or in scientific notation), and a column that holds
    these numerals is cast back by [DecimalColumn._cast] to the same cells:
    the same sign, the same digits -- trailing zeros and a negative zero
    included -- and the same exponent. *)
Theorem X23_decimals_survive_text
    h self t idx rows ds out h' self' t' idx' rows' :
  col_state h self t idx rows (List.map VDec ds) ->
  snd (TextColumn._cast self h) = Ok out ->
  col_state h' self' t' idx' rows' out ->
  out = List.map (fun d => VStr (decimal_to_string d)) ds
  /\ snd (DecimalColumn._cast self' h') = Ok (List.map VDec ds).
Proof.
  intros Hcs E Hcs'.
  apply (text_cast_inv _ _ _ _ _ _ _ Hcs) in E.
  rewrite List.map_map in E.
  assert (Hout : out = List.map (fun d => VStr (decimal_to_string d)) ds).
  { rewrite E. apply List.map_ext. intros d. apply text_of_decimal. }
  split; [exact Hout|]. clear E. subst out.
  apply (cast_ok DecimalColumn.cast_value _ _ _ _ _ _ _ Hcs').
  clear. induction ds as [|d ds IH]; cbn; constructor;
    [apply decimal_of_text_of_decimal|exact IH].
Qed.

Lemma X23_decimals_survive_text_witness :
  let ds := [Dec false 12340 (-2); Dec true 0 (-3); Dec false 5 7;
             Dec true 123 (-12)] in
  let col := List.map VDec ds in
  let out := [VStr "123.40"; VStr "-0.000"; VStr "5E+7"; VStr "-1.23E-10"] in
  out = List.map (fun d => VStr (decimal_to_string d)) ds
  /\ snd (DecimalColumn._cast (snd (example_column out)) (fst (example_column out)))
     = Ok (List.map VDec ds).
Proof.
  intros ds col out.
  apply (X23_decimals_survive_text
           (fst (example_column col)) (snd (example_column col))
           (snd (example_table col)) 1
           [[VStr "r"; VDec (Dec false 12340 (-2))];
            [VStr "r"; VDec (Dec true 0 (-3))];
            [VStr "r"; VDec (Dec false 5 7)];
            [VStr "r"; VDec (Dec true 123 (-12))]] ds out
           (fst (example_column out)) (snd (example_column out))
           (snd (example_table out)) 1
           [[VStr "r"; VStr "123.40"]; [VStr "r"; VStr "-0.000"];
            [VStr "r"; VStr "5E+7"]; [VStr "r"; VStr "-1.23E-10"]]).
  - example_state.
  - vm_compute. reflexivity.
  - example_state.
Defined.
